(** * Power Plant Data Merger: the spreadsheet interpretation core of carbonpre.py

    A shallow embedding of the name normalizer, the entity matcher, the
    column detectors, the date extractor and the final filter / merge stage
    of [carbonpre.py], followed by the properties established about them.

    Conventions.
    - A Python [str] is a list of characters; a character is a code point
      in 0..255 ([ascii]).  Literals are written [T "..."].
    - A spreadsheet cell is either missing ([NaN], what [pd.isna] tests) or
      the text [str(v)] of its value.
    - A [float] similarity ratio is the exact rational it rounds; the two
      comparisons made on ratios ([>] between two ratios, [>=] against 0.55)
      give the same answer on the rationals for every pair of strings
      shorter than 2^26 characters.
    - An [int] is an integer of any size; [int(digits)] raises
      [ValueError] above the interpreter's limit of 4300 digits.
    - [strftime] writes as the C library under the interpreter does: a
      year below 1000 is not padded.
    - A call that can raise returns a [result]; [try]/[except] is written
      out where the source has it.
    - What [pd.read_excel] gives for a file is part of the file: a sheet
      or an exception, for each header row and row count asked. *)

From Stdlib Require Import List Ascii String Bool Arith ZArith QArith Lia.
From Stdlib Require Import DecimalString.
From Stdlib Require DecimalZ.
Import ListNotations.
Close Scope Q_scope.

Set Implicit Arguments.

(* ================================================================== *)
(** ** Text *)
(* ================================================================== *)

Module Text.

Definition text := list ascii.

Definition T (s : string) : text := list_ascii_of_string s.

Definition code (c : ascii) : nat := nat_of_ascii c.

Definition between (lo hi : nat) (c : ascii) : bool :=
  (lo <=? code c) && (code c <=? hi).

Definition is_upper (c : ascii) : bool := between 65 90 c.
Definition is_lower (c : ascii) : bool := between 97 122 c.
Definition is_alpha (c : ascii) : bool := is_upper c || is_lower c.
Definition is_digit (c : ascii) : bool := between 48 57 c.

(** [\s] of a [str] pattern, and the characters [str.strip()] removes:
    TAB LF VT FF CR, FS GS RS US, SPACE, NEL and NBSP. *)
Definition is_space (c : ascii) : bool :=
  between 9 13 c || between 28 32 c || (code c =? 133) || (code c =? 160).

(** [\w] of a [str] pattern on this range: letters (also the accented
    ones), digits in the wide sense, and the underscore. *)
Definition is_word (c : ascii) : bool :=
  is_alpha c || is_digit c || (code c =? 95)
  || (code c =? 170) || (code c =? 178) || (code c =? 179) || (code c =? 181)
  || (code c =? 185) || (code c =? 186) || between 188 190 c
  || (between 192 255 c && negb (code c =? 215) && negb (code c =? 247)).

Definition space : ascii := " "%char.

(** [str.lower()], one character: A-Z and the accented capitals. *)
Definition lower_char (c : ascii) : ascii :=
  if is_upper c || (between 192 222 c && negb (code c =? 215))
  then ascii_of_nat (code c + 32) else c.

(** [str.upper()], one character: a-z and the accented small letters whose
    capital is again a single code point below 256 (the capitals of 0xB5,
    0xDF and 0xFF are not; those three are kept as they are). *)
Definition upper_char (c : ascii) : ascii :=
  if is_lower c || (between 224 254 c && negb (code c =? 247))
  then ascii_of_nat (code c - 32) else c.

Definition lower (s : text) : text := map lower_char s.
Definition upper (s : text) : text := map upper_char s.

Definition text_eqb (a b : text) : bool :=
  if list_eq_dec ascii_dec a b then true else false.

(** [s.startswith(p)] *)
Fixpoint prefixb (p s : text) : bool :=
  match p, s with
  | [], _ => true
  | _ :: _, [] => false
  | a :: p', b :: s' => Ascii.eqb a b && prefixb p' s'
  end.

(** [sub in s] *)
Fixpoint contains (sub s : text) : bool :=
  prefixb sub s ||
  match s with
  | [] => false
  | _ :: s' => contains sub s'
  end.

(** [s.replace(old, new)] for a non-empty [old]: occurrences are taken from
    left to right and do not overlap.  [skip] counts the characters of an
    occurrence that are still to be passed over. *)
Fixpoint replace_from (old new s : text) (skip : nat) : text :=
  match s with
  | [] => []
  | c :: s' =>
      match skip with
      | S k => replace_from old new s' k
      | O =>
          if prefixb old s
          then new ++ replace_from old new s' (List.length old - 1)
          else c :: replace_from old new s' 0
      end
  end.

Definition replace (old new s : text) : text := replace_from old new s 0.

(** [s.lstrip()], [s.rstrip()], [s.strip()]: a character at the end goes
    when it is white space and everything after it has gone. *)
Fixpoint lstrip (s : text) : text :=
  match s with
  | c :: s' => if is_space c then lstrip s' else s
  | [] => []
  end.

Fixpoint rstrip (s : text) : text :=
  match s with
  | [] => []
  | c :: s' =>
      match rstrip s' with
      | [] => if is_space c then [] else [c]
      | kept => c :: kept
      end
  end.

Definition strip (s : text) : text := rstrip (lstrip s).

(** [s.strip(chars)] *)
Definition among (chars : text) (c : ascii) : bool := existsb (Ascii.eqb c) chars.

Fixpoint lstrip_chars (chars : text) (s : text) : text :=
  match s with
  | c :: s' => if among chars c then lstrip_chars chars s' else s
  | [] => []
  end.

Fixpoint rstrip_chars (chars : text) (s : text) : text :=
  match s with
  | [] => []
  | c :: s' =>
      match rstrip_chars chars s' with
      | [] => if among chars c then [] else [c]
      | kept => c :: kept
      end
  end.

Definition strip_chars (chars s : text) : text :=
  rstrip_chars chars (lstrip_chars chars s).

End Text.
Export Text.

(** A cell of a sheet or of a Series: missing, or the text of its value. *)
Inductive cell : Type :=
| NaN : cell
| Str : text -> cell.

Definition isna (v : cell) : bool :=
  match v with NaN => true | Str _ => false end.

(** [str(v)]; a missing value prints as [nan]. *)
Definition str_of (v : cell) : text :=
  match v with NaN => T "nan" | Str s => s end.

(* ================================================================== *)
(** ** Name normalizer *)
(* ================================================================== *)

(** [.*?\)] read from just after an opening parenthesis: the number of
    characters up to and including the first closing parenthesis, provided
    no line feed comes before it ([.] does not match a line feed). *)
Fixpoint paren_close (s : text) : option nat :=
  match s with
  | [] => None
  | c :: s' =>
      if Ascii.eqb c ")"%char then Some 1
      else if Ascii.eqb c "010"%char then None
      else option_map S (paren_close s')
  end.

(** [re.sub(r"\(.*?\)", " ", s)] *)
Fixpoint sub_parens_from (s : text) (skip : nat) : text :=
  match s with
  | [] => []
  | c :: s' =>
      match skip with
      | S k => sub_parens_from s' k
      | O =>
          if Ascii.eqb c "("%char then
            match paren_close s' with
            | Some n => space :: sub_parens_from s' n
            | None => c :: sub_parens_from s' 0
            end
          else c :: sub_parens_from s' 0
      end
  end.

Definition sub_parens (s : text) : text := sub_parens_from s 0.

(** [re.sub(r"[^A-Za-z0-9\s]", " ", s)] *)
Definition keep_char (c : ascii) : bool := is_alpha c || is_digit c || is_space c.

Definition sub_punct (s : text) : text :=
  map (fun c => if keep_char c then c else space) s.

(** [re.sub(r"\s+", " ", s)]; [in_run] says that the previous character was
    white space, already replaced. *)
Fixpoint sub_spaces_from (s : text) (in_run : bool) : text :=
  match s with
  | [] => []
  | c :: s' =>
      if is_space c
      then (if in_run then sub_spaces_from s' true
            else space :: sub_spaces_from s' true)
      else c :: sub_spaces_from s' false
  end.

Definition sub_spaces (s : text) : text := sub_spaces_from s false.

Definition normalize_text (s : text) : text :=
  let s := replace (T "&") (T " and ") s in
  let s := sub_parens s in
  let s := replace (T "stps") (T "tps") s in
  let s := replace (T "station") (T "stn") s in
  let s := replace (T "power limited") (T "power") s in
  let s := sub_punct s in
  lower (strip (sub_spaces s)).

Definition normalize_name (v : cell) : text :=
  match v with
  | NaN => []
  | Str s => normalize_text s
  end.

(* ================================================================== *)
(** ** difflib.SequenceMatcher(None, a, b).ratio() *)
(* ================================================================== *)

Module Difflib.

Section Matcher.

Variables a b : text.

(** [__chain_b]: with [isjunk=None] no element is junk; with the default
    [autojunk], when [b] has at least 200 elements, those occurring more
    than [len(b) // 100 + 1] times are "popular" and are left out of
    [b2j]. *)
Definition popular (c : ascii) : bool :=
  (200 <=? List.length b) &&
  (List.length b / 100 + 1 <? count_occ ascii_dec b c).

Definition elt (s : text) (i : nat) : ascii := nth i s space.

(** One pass of the inner loop of [find_longest_match] for the element
    [ai]: the new [j2len], as the list of its values at [j], [j+1], ...
    (0 where the dictionary has no entry).  [prev] lists the old [j2len]
    at [j-1], [j], ... *)
Fixpoint new_j2len (ai : ascii) (blo bhi : nat) (bs : text) (j : nat)
    (prev : list nat) : list nat :=
  match bs with
  | [] => []
  | bj :: bs' =>
      let k :=
        if Ascii.eqb ai bj && negb (popular bj) && (blo <=? j) && (j <? bhi)
        then hd 0 prev + 1 else 0 in
      k :: new_j2len ai blo bhi bs' (S j) (tl prev)
  end.

(** The updates of [(besti, bestj, bestsize)] made during that pass; a run
    of [k] matches ending at [(i, j)] starts at [(i-k+1, j-k+1)]. *)
Fixpoint update_best (i : nat) (row : list nat) (j : nat)
    (best : nat * nat * nat) : nat * nat * nat :=
  match row with
  | [] => best
  | k :: row' =>
      let '(_, _, bestsize) := best in
      update_best i row' (S j)
        (if bestsize <? k then (i + 1 - k, j + 1 - k, k) else best)
  end.

(** The outer loop, [for i in range(alo, ahi)], over [a[i:]]. *)
Fixpoint scan_rows (blo bhi : nat) (rest : text) (i ahi : nat)
    (j2len : list nat) (best : nat * nat * nat) : nat * nat * nat :=
  match rest with
  | [] => best
  | ai :: rest' =>
      if i <? ahi then
        let row := new_j2len ai blo bhi b 0 (0 :: j2len) in
        scan_rows blo bhi rest' (S i) ahi row (update_best i row 0 best)
      else best
  end.

(** [while besti > alo and bestj > blo and a[besti-1] == b[bestj-1]] *)
Fixpoint extend_left (alo blo : nat) (besti bestj bestsize : nat)
    : nat * nat * nat :=
  match besti with
  | O => (besti, bestj, bestsize)
  | S i' =>
      if (alo <? besti) && (blo <? bestj)
         && Ascii.eqb (elt a i') (elt b (bestj - 1))
      then extend_left alo blo i' (bestj - 1) (bestsize + 1)
      else (besti, bestj, bestsize)
  end.

(** [while besti+bestsize < ahi and bestj+bestsize < bhi and
    a[besti+bestsize] == b[bestj+bestsize]]; [room] is
    [ahi - (besti + bestsize)], the number of turns the first test allows. *)
Fixpoint extend_right (room : nat) (ahi bhi : nat) (besti bestj bestsize : nat)
    : nat :=
  match room with
  | O => bestsize
  | S room' =>
      if (besti + bestsize <? ahi) && (bestj + bestsize <? bhi)
         && Ascii.eqb (elt a (besti + bestsize)) (elt b (bestj + bestsize))
      then extend_right room' ahi bhi besti bestj (bestsize + 1)
      else bestsize
  end.

(** [find_longest_match(alo, ahi, blo, bhi)].  The two further loops of the
    source extend the match over junk elements of [b]; there are none. *)
Definition find_longest_match (alo ahi blo bhi : nat) : nat * nat * nat :=
  let '(besti, bestj, bestsize) :=
    scan_rows blo bhi (skipn alo a) alo ahi [] (alo, blo, 0) in
  let '(besti, bestj, bestsize) := extend_left alo blo besti bestj bestsize in
  (besti, bestj,
   extend_right (ahi - (besti + bestsize)) ahi bhi besti bestj bestsize).

(** The sum of the sizes of the blocks [get_matching_blocks] collects from
    the range [(alo, ahi, blo, bhi)] and the ranges it queues from it.  Each
    queued range is strictly shorter in [a]; [fuel] bounds the nesting. *)
Fixpoint matched (fuel : nat) (alo ahi blo bhi : nat) : nat :=
  match fuel with
  | O => 0
  | S fuel' =>
      let '(i, j, k) := find_longest_match alo ahi blo bhi in
      if k =? 0 then 0
      else
        (if (alo <? i) && (blo <? j) then matched fuel' alo i blo j else 0)
        + k
        + (if (i + k <? ahi) && (j + k <? bhi)
           then matched fuel' (i + k) ahi (j + k) bhi else 0)
  end.

Definition matches : nat :=
  matched (S (List.length a)) 0 (List.length a) 0 (List.length b).

(** [_calculate_ratio(matches, len(a) + len(b))] *)
Definition ratio : Q :=
  let length := List.length a + List.length b in
  if length =? 0 then 1%Q
  else (Z.of_nat (2 * matches) # Pos.of_nat length)%Q.

End Matcher.

End Difflib.

(* ================================================================== *)
(** ** Entity matcher *)
(* ================================================================== *)

(** Truth value of a [str]: non-empty. *)
Definition nonempty (s : text) : bool :=
  match s with [] => false | _ :: _ => true end.

(** [x > y] on ratios. *)
Definition Qgtb (x y : Q) : bool := negb (Qle_bool x y).

(** The default [min_ratio], 0.55. *)
Definition default_min_ratio : Q := (55 # 100)%Q.

Section EntityMatcher.

(** A Series is the list of its (index label, value) pairs, in order;
    [L] is the type of the index labels. *)
Variable L : Type.

Definition series := list (L * cell).

(** [["" if pd.isna(v) else normalize_name(v) for v in series.tolist()]],
    each kept with [series.index[i]]. *)
Definition candidates (s : series) : list (L * text) :=
  map (fun r => (fst r, if isna (snd r) then [] else normalize_name (snd r))) s.

Fixpoint exact_loop (n_target : text) (rows : list (L * text)) : option L :=
  match rows with
  | [] => None
  | (idx, cand) :: rest =>
      if nonempty cand && text_eqb cand n_target then Some idx
      else exact_loop n_target rest
  end.

Fixpoint substring_loop (n_target : text) (rows : list (L * text)) : option L :=
  match rows with
  | [] => None
  | (idx, cand) :: rest =>
      if negb (nonempty cand) then substring_loop n_target rest
      else if nonempty n_target && contains n_target cand then Some idx
      else if contains cand n_target && negb (text_eqb cand []) then Some idx
      else substring_loop n_target rest
  end.

Fixpoint fuzzy_loop (n_target : text) (rows : list (L * text))
    (best_ratio : Q) (best_idx : option L) : Q * option L :=
  match rows with
  | [] => (best_ratio, best_idx)
  | (idx, cand) :: rest =>
      if negb (nonempty cand) then fuzzy_loop n_target rest best_ratio best_idx
      else
        let ratio := Difflib.ratio n_target cand in
        if Qgtb ratio best_ratio
        then fuzzy_loop n_target rest ratio (Some idx)
        else fuzzy_loop n_target rest best_ratio best_idx
  end.

Definition find_best_match_index (s : series) (plant_name : cell)
    (min_ratio : Q) : option L :=
  match s with
  | [] => None
  | _ :: _ =>
      let n_target := normalize_name plant_name in
      let cands := candidates s in
      match exact_loop n_target cands with
      | Some idx => Some idx
      | None =>
          match substring_loop n_target cands with
          | Some idx => Some idx
          | None =>
              let '(best_ratio, best_idx) := fuzzy_loop n_target cands 0%Q None in
              if Qle_bool min_ratio best_ratio then best_idx else None
          end
      end
  end.

End EntityMatcher.

(** The Series of a freshly loaded column: labels 0, 1, 2, ... *)
Definition range_series (vs : list cell) : series nat :=
  combine (seq 0 (List.length vs)) vs.

(* ================================================================== *)
(** ** Column detectors *)
(* ================================================================== *)

Definition today_actual_rule (cname : text) : bool :=
  contains (T "TODAY") cname && contains (T "ACTUAL") cname
  && negb (contains (T "APRIL") cname) && negb (contains (T "TILL") cname).

Definition actual_rule (cname : text) : bool :=
  contains (T "ACTUAL") cname
  || (contains (T "DAILY") cname && contains (T "GEN") cname).

Definition coal_rule (cname : text) : bool :=
  contains (T "CONSUM") cname || contains (T "COAL") cname.

(** The first loop of [detect_generation_col]. *)
Fixpoint today_actual_loop (columns : list text) : option text :=
  match columns with
  | [] => None
  | c :: rest =>
      let cname := upper c in
      if today_actual_rule cname then Some c else today_actual_loop rest
  end.

(** Its second loop. *)
Fixpoint actual_loop (columns : list text) : option text :=
  match columns with
  | [] => None
  | c :: rest =>
      let cname := upper c in
      if actual_rule cname then Some c else actual_loop rest
  end.

Definition detect_generation_col (columns : list text) : option text :=
  match today_actual_loop columns with
  | Some c => Some c
  | None => actual_loop columns
  end.

Fixpoint detect_coal_col (columns : list text) : option text :=
  match columns with
  | [] => None
  | c :: rest =>
      let cname := upper c in
      if coal_rule cname then Some c else detect_coal_col rest
  end.

(* ================================================================== *)
(** ** Regular expressions of the date extractor *)
(* ================================================================== *)

Module Re.

(** The patterns used are sequences of items of three kinds; matching
    backtracks as [re] does: a repetition gives back one character at a
    time, alternatives are tried in the order written. *)
Inductive item : Type :=
| Rep (cls : ascii -> bool) (lo : nat) (hi : option nat)
    (** greedy [cls{lo,hi}]; [hi = None] is unbounded *)
| Alt (alts : list (list (ascii -> bool)))
    (** [(x1|x2|...)], each [xi] a sequence of one-character classes *)
| Boundary.
    (** [\b] *)

Definition pattern := list item.

Definition lit (c : ascii) : ascii -> bool := Ascii.eqb c.

Definition one (cls : ascii -> bool) : item := Rep cls 1 (Some 1).

Fixpoint run_length (cls : ascii -> bool) (s : text) : nat :=
  match s with
  | c :: s' => if cls c then S (run_length cls s') else 0
  | [] => 0
  end.

Fixpoint classes_match (cs : list (ascii -> bool)) (s : text) : bool :=
  match cs, s with
  | [], _ => true
  | _ :: _, [] => false
  | p :: cs', c :: s' => p c && classes_match cs' s'
  end.

Definition is_word_at (c : option ascii) : bool :=
  match c with Some c => is_word c | None => false end.

(** The character before the position reached after reading [read]. *)
Definition last_of (prev : option ascii) (read : text) : option ascii :=
  match rev read with c :: _ => Some c | [] => prev end.

Definition at_boundary (prev : option ascii) (s : text) : bool :=
  xorb (is_word_at prev) (is_word_at (hd_error s)).

(** [match_items its prev s]: match [its] at the start of [s], [prev]
    being the character before it; the result lists the number of
    characters each item took. *)
Fixpoint match_items (its : pattern) (prev : option ascii) (s : text)
    : option (list nat) :=
  match its with
  | [] => Some []
  | it :: its' =>
      match it with
      | Boundary =>
          if at_boundary prev s
          then option_map (cons 0) (match_items its' prev s)
          else None
      | Rep cls lo hi =>
          let run := run_length cls s in
          let top := match hi with Some h => Nat.min h run | None => run end in
          (fix give_back (n : nat) : option (list nat) :=
             let here :=
               if lo <=? n
               then option_map (cons n)
                      (match_items its' (last_of prev (firstn n s)) (skipn n s))
               else None in
             match here with
             | Some r => Some r
             | None => match n with O => None | S n' => give_back n' end
             end) top
      | Alt alts =>
          (fix next_alt (l : list (list (ascii -> bool))) : option (list nat) :=
             match l with
             | [] => None
             | alt :: l' =>
                 let n := List.length alt in
                 let here :=
                   if classes_match alt s
                   then option_map (cons n)
                          (match_items its' (last_of prev (firstn n s)) (skipn n s))
                   else None in
                 match here with
                 | Some r => Some r
                 | None => next_alt l'
                 end
             end) alts
      end
  end.

(** A match: where it starts and what each item took. *)
Record found : Type := { start : nat; taken : list nat }.

(** [re.search]: the leftmost position at which the pattern matches. *)
Fixpoint search_from (its : pattern) (prev : option ascii) (s : text)
    (pos : nat) : option found :=
  match match_items its prev s with
  | Some segs => Some {| start := pos; taken := segs |}
  | None =>
      match s with
      | [] => None
      | c :: s' => search_from its (Some c) s' (S pos)
      end
  end.

Definition search (its : pattern) (s : text) : option found :=
  search_from its None s 0.

Definition total (segs : list nat) : nat := fold_right Nat.add 0 segs.

(** The text of the whole match, [m.group(0)]. *)
Definition whole (s : text) (m : found) : text :=
  firstn (total (taken m)) (skipn (start m) s).

(** The text taken by item number [k]. *)
Definition part (s : text) (m : found) (k : nat) : text :=
  firstn (nth k (taken m) 0)
         (skipn (start m + total (firstn k (taken m))) s).

End Re.

(** [int(s)] for a run of decimal digits, white space around it ignored. *)
Definition int_of_digits (s : text) : Z :=
  fold_left
    (fun acc c => if is_digit c then (10 * acc + Z.of_nat (code c - 48))%Z else acc)
    s 0%Z.

(* ================================================================== *)
(** ** Exceptions *)
(* ================================================================== *)

Inductive exn : Type := ValueError | IndexError | IOError.

(** The outcome of a call: a value, or an exception on its way up. *)
Inductive result (A : Type) : Type :=
| Ok (a : A)
| Raise (e : exn).

Arguments Ok {A} a.
Arguments Raise {A} e.

Definition bind {A B : Type} (c : result A) (k : A -> result B) : result B :=
  match c with
  | Ok a => k a
  | Raise e => Raise e
  end.

Notation "x <- c ;; k" := (bind c (fun x => k))
  (at level 61, c at next level, right associativity).

(** [try: c  except: handler] *)
Definition try_except {A : Type} (c : result A) (handler : result A) : result A :=
  match c with
  | Ok a => Ok a
  | Raise _ => handler
  end.

(** [sys.get_int_max_str_digits()], as the interpreter starts. *)
Definition int_max_str_digits : nat := 4300.

(** [int(s)] for a run of decimal digits: [ValueError] when the run has
    more digits than the interpreter converts. *)
Definition py_int (s : text) : result Z :=
  if int_max_str_digits <? List.length s then Raise ValueError
  else Ok (int_of_digits s).

(* ================================================================== *)
(** ** Dates *)
(* ================================================================== *)

Record date : Type := mkdate { year : Z; month : Z; day : Z }.

Definition date_eqb (d1 d2 : date) : bool :=
  ((year d1 =? year d2) && (month d1 =? month d2) && (day d1 =? day d2))%Z.

Definition is_leap (y : Z) : bool :=
  ((y mod 4 =? 0) && (negb (y mod 100 =? 0) || (y mod 400 =? 0)))%Z.

Definition days_in_month (y m : Z) : Z :=
  (if m =? 2 then (if is_leap y then 29 else 28)
   else if (m =? 4) || (m =? 6) || (m =? 9) || (m =? 11) then 30
   else 31)%Z.

(** [date(y, m, d)]: [ValueError] outside the calendar. *)
Definition make_date (y m d : Z) : result date :=
  if ((1 <=? y) && (y <=? 9999) && (1 <=? m) && (m <=? 12)
      && (1 <=? d) && (d <=? days_in_month y m))%Z
  then Ok (mkdate y m d)
  else Raise ValueError.

Definition month_names : list text :=
  [T "january"; T "february"; T "march"; T "april"; T "may"; T "june";
   T "july"; T "august"; T "september"; T "october"; T "november";
   T "december"].

(** [month_map.get(name.lower(), 1)] and, with another default, the
    position of a month name in a locale table. *)
Fixpoint month_index (names : list text) (name : text) (i : Z) (default : Z) : Z :=
  match names with
  | [] => default
  | m :: rest => if text_eqb m name then i else month_index rest name (i + 1)%Z default
  end.

Definition month_map_get (name : text) (default : Z) : Z :=
  month_index month_names name 1%Z default.

(** *** datetime.strptime for the formats used *)

Inductive directive : Type :=
| Dd | Dm | DY | Dy | Db | DB   (** [%d %m %Y %y %b %B] *)
| Lit (c : ascii)               (** a literal character *)
| Ws.                           (** white space in the format: [\s+] *)

Definition format := list directive.

Definition ci (c : ascii) : ascii -> bool := fun x => Ascii.eqb (lower_char x) c.

Definition ci_word (w : text) : list (ascii -> bool) := map ci w.

Definition rng (lo hi : string) : ascii -> bool :=
  fun c =>
    match T lo, T hi with
    | [l], [h] => between (code l) (code h) c
    | _, _ => false
    end.

(** The month names in the order the format regex lists them: longest
    first, the calendar order kept among names of one length. *)
Definition months_by_length : list text :=
  [T "september"; T "february"; T "november"; T "december"; T "january";
   T "october"; T "august"; T "march"; T "april"; T "june"; T "july"; T "may"].

Definition directive_item (d : directive) : Re.item :=
  match d with
  | Dd => Re.Alt [[Re.lit "3"; rng "0" "1"]; [rng "1" "2"; is_digit];
                  [Re.lit "0"; rng "1" "9"]; [rng "1" "9"];
                  [Re.lit " "; rng "1" "9"]]
  | Dm => Re.Alt [[Re.lit "1"; rng "0" "2"]; [Re.lit "0"; rng "1" "9"];
                  [rng "1" "9"]]
  | DY => Re.Alt [[is_digit; is_digit; is_digit; is_digit]]
  | Dy => Re.Alt [[is_digit; is_digit]]
  | Db => Re.Alt (map (fun m => ci_word (firstn 3 m)) month_names)
  | DB => Re.Alt (map ci_word months_by_length)
  | Lit c => Re.one (ci (lower_char c))
  | Ws => Re.Rep is_space 1 None
  end.

(** The fields a parse fills in; [strptime] starts from 1900-01-01. *)
Definition set_field (d : directive) (group : text) (ymd : Z * Z * Z) : Z * Z * Z :=
  let '(y, m, dd) := ymd in
  match d with
  | Dd => (y, m, int_of_digits group)
  | Dm => (y, int_of_digits group, dd)
  | DY => (int_of_digits group, m, dd)
  | Dy => let v := int_of_digits group in
          ((if v <=? 68 then v + 2000 else v + 1900)%Z, m, dd)
  | Db => (y, month_index (map (firstn 3) month_names) (lower group) 1%Z 1%Z, dd)
  | DB => (y, month_index month_names (lower group) 1%Z 1%Z, dd)
  | Lit _ | Ws => ymd
  end.

Fixpoint set_fields (fmt : format) (segs : list nat) (s : text)
    (ymd : Z * Z * Z) : Z * Z * Z :=
  match fmt, segs with
  | d :: fmt', n :: segs' =>
      set_fields fmt' segs' (skipn n s) (set_field d (firstn n s) ymd)
  | _, _ => ymd
  end.

(** [datetime.strptime(s, fmt).date()]: the format's regex must match at
    the start of [s] and leave nothing unread, and the fields must name a
    day of the calendar; [ValueError] otherwise. *)
Definition strptime (s : text) (fmt : format) : result date :=
  match Re.match_items (map directive_item fmt) None s with
  | None => Raise ValueError
  | Some segs =>
      if Re.total segs =? List.length s then
        let '(y, m, d) := set_fields fmt segs s (1900, 1, 1)%Z in
        make_date y m d
      else Raise ValueError
  end.

Definition fmt_dmY_slash : format := [Dd; Lit "/"; Dm; Lit "/"; DY].
Definition fmt_dmY_dash : format := [Dd; Lit "-"; Dm; Lit "-"; DY].
Definition fmt_dmy_slash : format := [Dd; Lit "/"; Dm; Lit "/"; Dy].
Definition fmt_dmy_dash : format := [Dd; Lit "-"; Dm; Lit "-"; Dy].
Definition fmt_Ymd : format := [DY; Lit "-"; Dm; Lit "-"; Dd].
Definition fmt_dbY : format := [Dd; Ws; Db; Ws; DY].
Definition fmt_dBY : format := [Dd; Ws; DB; Ws; DY].
Definition fmt_BdY : format := [DB; Ws; Dd; Ws; DY].

Definition date_formats : list format :=
  [fmt_dmY_slash; fmt_dmY_dash; fmt_dmy_slash; fmt_dmy_dash; fmt_Ymd;
   fmt_dbY; fmt_dBY; fmt_BdY].

(** [d.strftime("%d/%m/%Y")], as the C library under the interpreter
    writes it: the day and the month in two digits, the year in decimal
    without padding (so three digits for the year 999). *)
Definition digit_char (n : Z) : ascii := ascii_of_nat (48 + Z.to_nat (n mod 10)).

Definition two_digits (n : Z) : text := [digit_char (n / 10); digit_char n].

Definition decimal (n : Z) : text := T (NilEmpty.string_of_int (Z.to_int n)).

Definition strftime_dmY (d : date) : text :=
  two_digits (day d) ++ T "/" ++ two_digits (month d) ++ T "/" ++ decimal (year d).

(* ================================================================== *)
(** ** Date extractor *)
(* ================================================================== *)

(** What [parse_date_string_to_date] and the two extractors return: a
    [date], an [int] (a day of the month), or [None]. *)
Inductive parsed : Type :=
| PDate (d : date)
| PInt (n : Z)
| PNone.

Definition slash_or_dash (c : ascii) : bool := Ascii.eqb c "/" || Ascii.eqb c "-".

(** [(\d{1,2}[/-]\d{1,2}[/-]\d{2,4})] *)
Definition pat_dmy : Re.pattern :=
  [Re.Rep is_digit 1 (Some 2); Re.one slash_or_dash; Re.Rep is_digit 1 (Some 2);
   Re.one slash_or_dash; Re.Rep is_digit 2 (Some 4)].

(** [(\d{4}-\d{2}-\d{2})] *)
Definition pat_iso : Re.pattern :=
  [Re.Rep is_digit 4 (Some 4); Re.one (Re.lit "-"); Re.Rep is_digit 2 (Some 2);
   Re.one (Re.lit "-"); Re.Rep is_digit 2 (Some 2)].

(** [(\d{1,2}\s+[A-Za-z]{3,9}\s+\d{4})] *)
Definition pat_d_month_y : Re.pattern :=
  [Re.Rep is_digit 1 (Some 2); Re.Rep is_space 1 None; Re.Rep is_alpha 3 (Some 9);
   Re.Rep is_space 1 None; Re.Rep is_digit 4 (Some 4)].

(** [([A-Za-z]{3,9}\s+\d{1,2},?\s+\d{4})] *)
Definition pat_month_d_y : Re.pattern :=
  [Re.Rep is_alpha 3 (Some 9); Re.Rep is_space 1 None; Re.Rep is_digit 1 (Some 2);
   Re.Rep (Re.lit ",") 0 (Some 1); Re.Rep is_space 1 None;
   Re.Rep is_digit 4 (Some 4)].

Definition date_patterns : list Re.pattern :=
  [pat_dmy; pat_iso; pat_d_month_y; pat_month_d_y].

(** [DAY\s*(\d+)]; the group is item number 4. *)
Definition pat_day : Re.pattern :=
  [Re.one (Re.lit "D"); Re.one (Re.lit "A"); Re.one (Re.lit "Y");
   Re.Rep is_space 0 None; Re.Rep is_digit 1 None].

(** [\b(\d{1,2})\b] *)
Definition pat_number : Re.pattern :=
  [Re.Boundary; Re.Rep is_digit 1 (Some 2); Re.Boundary].

(** [for fmt in (...): try: return strptime(candidate, fmt).date()
    except: pass] *)
Fixpoint first_format (candidate : text) (fmts : list format) : option date :=
  match fmts with
  | [] => None
  | fmt :: rest =>
      match strptime candidate fmt with
      | Ok d => Some d
      | Raise _ => first_format candidate rest
      end
  end.

(** The body run for a pattern that matched: the eight formats, then
    ["%d %B %Y"] once more. *)
Definition try_formats (candidate : text) : option date :=
  match first_format candidate date_formats with
  | Some d => Some d
  | None =>
      match strptime candidate fmt_dBY with
      | Ok d => Some d
      | Raise _ => None
      end
  end.

Fixpoint patterns_loop (pats : list Re.pattern) (s : text) : option date :=
  match pats with
  | [] => None
  | pat :: rest =>
      match Re.search pat s with
      | Some m =>
          match try_formats (Re.whole s m) with
          | Some d => Some d
          | None => patterns_loop rest s
          end
      | None => patterns_loop rest s
      end
  end.

(** [m = re.search(r"DAY\s*(\d+)", s)] and, when there is a match,
    [int(m.group(1))], which no [try] encloses. *)
Definition day_token (s : text) : result (option Z) :=
  match Re.search pat_day s with
  | Some m => n <- py_int (Re.part s m 4) ;; Ok (Some n)
  | None => Ok None
  end.

Definition parse_date_string_to_date (s : text) : result parsed :=
  if negb (nonempty s) then Ok PNone
  else
    let s := strip s in
    let s := replace (T ".") [] (strip_chars (T "() ") s) in
    match patterns_loop date_patterns s with
    | Some d => Ok (PDate d)
    | None =>
        m <- day_token (upper s) ;;
        match m with
        | Some n => Ok (PInt n)
        | None => Ok PNone
        end
    end.

(** *** Files and sheets *)

(** A loaded sheet: the column names and the rows.  A sheet that has rows
    has a first column; each row is its cell in column A and the others. *)
Record frame : Type := { columns : list text; rows : list (cell * list cell) }.

(** An uploaded file: its display name and what [pd.read_excel] gives for
    the [header] and [nrows] asked. *)
Record file : Type := {
  name : text;
  read_excel : option nat -> option nat -> result frame
}.

(** [top.iloc[r, 0]] *)
Definition iloc0 (top : frame) (r : nat) : result cell :=
  match nth_error (rows top) r with
  | Some (c, _) => Ok c
  | None => Raise IndexError
  end.

Fixpoint rfind_from (c : ascii) (s : text) (i : nat) (last : option nat)
    : option nat :=
  match s with
  | [] => last
  | x :: s' => rfind_from c s' (S i) (if Ascii.eqb x c then Some i else last)
  end.

(** [s.rfind(c)]; [None] for -1. *)
Definition rfind (c : ascii) (s : text) : option nat := rfind_from c s 0 None.

(** [os.path.basename(p)] *)
Definition basename (p : text) : text :=
  match rfind "/" p with
  | Some i => skipn (S i) p
  | None => p
  end.

(** [os.path.splitext(p)[0]]: cut at the last dot, unless only dots come
    before it in the file name. *)
Definition splitext_root (p : text) : text :=
  match rfind "." p with
  | None => p
  | Some dot =>
      let filenameIndex := match rfind "/" p with Some i => S i | None => 0 end in
      if (filenameIndex <=? dot)
         && existsb (fun x => negb (Ascii.eqb x "."))
                    (firstn (dot - filenameIndex) (skipn filenameIndex p))
      then firstn dot p
      else p
  end.

(** [" ".join(parts)] *)
Fixpoint join_space (parts : list text) : text :=
  match parts with
  | [] => []
  | [p] => p
  | p :: rest => p ++ space :: join_space rest
  end.

(** [[top.iloc[r, 0] for r in rs]] *)
Fixpoint iloc0_each (top : frame) (rs : list nat) : result (list cell) :=
  match rs with
  | [] => Ok []
  | r :: rs' =>
      c <- iloc0 top r ;;
      cs <- iloc0_each top rs' ;;
      Ok (c :: cs)
  end.

(** The loop over the candidate cells: the first cell that parses to a
    date or to a day number decides; an exception of the parse ends the
    loop and goes up. *)
Fixpoint cells_loop (cells : list cell) : result (option parsed) :=
  match cells with
  | [] => Ok None
  | c :: rest =>
      parsed <- parse_date_string_to_date (str_of c) ;;
      match parsed with
      | PDate d => Ok (Some (PDate d))
      | PInt n => Ok (Some (PInt n))
      | PNone => cells_loop rest
      end
  end.

(** The part of the two extractors that follows the cells: the display
    name, parsed as a date, searched for a DAY token, and last for a
    standalone number to combine with the fallback month and year. *)
Definition date_from_name (f : file) (fallback_month : text) (fallback_year : Z)
    : result parsed :=
  let fname := splitext_root (basename (name f)) in
  parsed <- parse_date_string_to_date fname ;;
  match parsed with
  | PDate d => Ok (PDate d)
  | PInt n => Ok (PInt n)
  | PNone =>
      m <- day_token (upper fname) ;;
      match m with
      | Some n => Ok (PInt n)
      | None =>
          match Re.search pat_number fname with
          | Some m2 =>
              (* one or two digits: [int] converts them *)
              let day := int_of_digits (Re.part fname m2 1) in
              try_except
                (d <- make_date fallback_year
                        (month_map_get (lower fallback_month) 1%Z) day ;;
                 Ok (PDate d))
                (Ok PNone)
          | None => Ok PNone
          end
      end
  end.

(** The two extractors differ in the privileged row only: [A2] (row 1) for
    generation files, [A3] (row 2) for coal files. *)
Definition get_date_from (privileged : nat) (f : file) (fallback_month : text)
    (fallback_year : Z) : result parsed :=
  match read_excel f None (Some 10) with
  | Raise _ => Ok PNone
  | Ok top =>
      let shape0 := List.length (rows top) in
      first <- (if privileged <? shape0
                then (c <- iloc0 top privileged ;; Ok [c])
                else Ok []) ;;
      others <- iloc0_each top (seq 0 (Nat.min 10 shape0)) ;;
      let candidate_cells := first ++ others in
      let combined :=
        join_space (map str_of (filter (fun x => negb (isna x)) candidate_cells)) in
      parsed <- parse_date_string_to_date combined ;;
      match parsed with
      | PDate d => Ok (PDate d)
      | _ =>
          found <- cells_loop candidate_cells ;;
          match found with
          | Some p => Ok p
          | None => date_from_name f fallback_month fallback_year
          end
      end
  end.

Definition get_date_from_generation_file := get_date_from 1.

Definition get_date_from_coal_file := get_date_from 2.

(** [format_date_label]: the label and the date to sort by. *)
Definition format_date_label (d : parsed) (fallback_month : text)
    (fallback_year : Z) : option text * option date :=
  match d with
  | PDate d => (Some (strftime_dmY d), Some d)
  | PInt n =>
      match make_date fallback_year (month_map_get (lower fallback_month) 1%Z) n with
      | Ok dt => (Some (strftime_dmY dt), Some dt)
      | Raise _ => (Some (T "DAY " ++ T (NilEmpty.string_of_int (Z.to_int n))), None)
      end
  | PNone => (None, None)
  end.

(* ================================================================== *)
(** ** Registry *)
(* ================================================================== *)

Definition P (plant state region : string) : text * (text * text) :=
  (T plant, (T state, T region)).

(** [plant_info]: canonical plant name, then (state, grid region), in the
    order of the source. *)
Definition plant_info : list (text * (text * text)) :=
  [
   P "PANIPAT TPS" "Haryana" "NORTHERN";
   P "RAJIV GANDHI TPS" "Haryana" "NORTHERN";
   P "YAMUNA NAGAR TPS" "Haryana" "NORTHERN";
   P "MAHATMA GANDHI TPS" "Haryana" "NORTHERN";
   P "INDIRA GANDHI STPP" "Haryana" "NORTHERN";
   P "GH TPS (LEH.MOH.)" "Punjab" "NORTHERN";
   P "GOINDWAL SAHIB TPP" "Punjab" "NORTHERN";
   P "ROPAR TPS" "Punjab" "NORTHERN";
   P "RAJPURA TPP" "Punjab" "NORTHERN";
   P "TALWANDI SABO TPP" "Punjab" "NORTHERN";
   P "CHHABRA-II TPP" "Rajasthan" "NORTHERN";
   P "CHHABRA-I PH-1 TPP" "Rajasthan" "NORTHERN";
   P "CHHABRA-I PH-2 TPP" "Rajasthan" "NORTHERN";
   P "KALISINDH TPS" "Rajasthan" "NORTHERN";
   P "KOTA TPS" "Rajasthan" "NORTHERN";
   P "SURATGARH STPS" "Rajasthan" "NORTHERN";
   P "SURATGARH TPS" "Rajasthan" "NORTHERN";
   P "GIRAL TPS" "Rajasthan" "NORTHERN";
   P "ADANI POWER LIMITED KAWAI TPP" "Rajasthan" "NORTHERN";
   P "JALIPA KAPURDI TPP" "Rajasthan" "NORTHERN";
   P "SHREE CEMENT LTD TPS" "Rajasthan" "NORTHERN";
   P "ANPARA TPS" "Uttar Pradesh" "NORTHERN";
   P "HARDUAGANJ TPS" "Uttar Pradesh" "NORTHERN";
   P "JAWAHARPUR STPP" "Uttar Pradesh" "NORTHERN";
   P "OBRA TPS" "Uttar Pradesh" "NORTHERN";
   P "PARICHHA TPS" "Uttar Pradesh" "NORTHERN";
   P "ANPARA C TPS" "Uttar Pradesh" "NORTHERN";
   P "BARKHERA TPS" "Uttar Pradesh" "NORTHERN";
   P "KHAMBARKHERA TPS" "Uttar Pradesh" "NORTHERN";
   P "KUNDARKI TPS" "Uttar Pradesh" "NORTHERN";
   P "MAQSOODPUR TPS" "Uttar Pradesh" "NORTHERN";
   P "PRAYAGRAJ TPP" "Uttar Pradesh" "NORTHERN";
   P "ROSA TPP Ph-I" "Uttar Pradesh" "NORTHERN";
   P "UTRAULA TPS" "Uttar Pradesh" "NORTHERN";
   P "DADRI (NCTPP)" "Uttar Pradesh" "NORTHERN";
   P "GHATAMPUR TPP" "Uttar Pradesh" "NORTHERN";
   P "KHURJA TPP" "Uttar Pradesh" "NORTHERN";
   P "MEJA STPP" "Uttar Pradesh" "NORTHERN";
   P "RIHAND STPS" "Uttar Pradesh" "NORTHERN";
   P "SINGRAULI STPS" "Uttar Pradesh" "NORTHERN";
   P "TANDA TPS" "Uttar Pradesh" "NORTHERN";
   P "UNCHAHAR TPS" "Uttar Pradesh" "NORTHERN";
   P "DSPM TPS" "Chhatisgarh" "WESTERN";
   P "KORBA-WEST TPS" "Chhatisgarh" "WESTERN";
   P "MARWA TPS" "Chhatisgarh" "WESTERN";
   P "ADANI POWER LIMITED RAIGARH TPP" "Chhatisgarh" "WESTERN";
   P "ADANI POWER LIMITED RAIPUR TPP" "Chhatisgarh" "WESTERN";
   P "AKALTARA TPS" "Chhatisgarh" "WESTERN";
   P "BALCO TPS" "Chhatisgarh" "WESTERN";
   P "BANDAKHAR TPP" "Chhatisgarh" "WESTERN";
   P "BARADARHA TPS" "Chhatisgarh" "WESTERN";
   P "BINJKOTE TPP" "Chhatisgarh" "WESTERN";
   P "CHAKABURA TPP" "Chhatisgarh" "WESTERN";
   P "KASAIPALLI TPP" "Chhatisgarh" "WESTERN";
   P "KATGHORA TPP" "Chhatisgarh" "WESTERN";
   P "NAWAPARA TPP" "Chhatisgarh" "WESTERN";
   P "OP JINDAL TPS" "Chhatisgarh" "WESTERN";
   P "PATHADI TPP" "Chhatisgarh" "WESTERN";
   P "RATIJA TPS" "Chhatisgarh" "WESTERN";
   P "SALORA TPP" "Chhatisgarh" "WESTERN";
   P "SINGHITARAI TPP" "Chhatisgarh" "WESTERN";
   P "SVPL TPP" "Chhatisgarh" "WESTERN";
   P "SWASTIK KORBA TPP" "Chhatisgarh" "WESTERN";
   P "TAMNAR TPP" "Chhatisgarh" "WESTERN";
   P "UCHPINDA TPP" "Chhatisgarh" "WESTERN";
   P "BHILAI TPS" "Chhatisgarh" "WESTERN";
   P "KORBA STPS" "Chhatisgarh" "WESTERN";
   P "LARA TPP" "Chhatisgarh" "WESTERN";
   P "SIPAT STPS" "Chhatisgarh" "WESTERN";
   P "AKRIMOTA LIG TPS" "Gujarat" "WESTERN";
   P "BHAVNAGAR CFBC TPP" "Gujarat" "WESTERN";
   P "GANDHI NAGAR TPS" "Gujarat" "WESTERN";
   P "UKAI TPS" "Gujarat" "WESTERN";
   P "WANAKBORI TPS" "Gujarat" "WESTERN";
   P "SIKKA REP. TPS" "Gujarat" "WESTERN";
   P "KUTCH LIG. TPS" "Gujarat" "WESTERN";
   P "ADANI POWER LIMITED MUNDRA TPP - III" "Gujarat" "WESTERN";
   P "ADANI POWER LIMITED MUNDRA TPP - I & II" "Gujarat" "WESTERN";
   P "MUNDRA UMTPP" "Gujarat" "WESTERN";
   P "SABARMATI (D-F STATIONS)" "Gujarat" "WESTERN";
   P "SALAYA TPP" "Gujarat" "WESTERN";
   P "SURAT LIG. TPS" "Gujarat" "WESTERN";
   P "AMARKANTAK EXT TPS" "Madhya Pradesh" "WESTERN";
   P "SANJAY GANDHI TPS" "Madhya Pradesh" "WESTERN";
   P "SATPURA TPS" "Madhya Pradesh" "WESTERN";
   P "SHREE SINGAJI TPP" "Madhya Pradesh" "WESTERN";
   P "ANUPPUR TPP" "Madhya Pradesh" "WESTERN";
   P "BINA TPS" "Madhya Pradesh" "WESTERN";
   P "MAHAN TPP" "Madhya Pradesh" "WESTERN";
   P "NIGRI TPP" "Madhya Pradesh" "WESTERN";
   P "NIWARI TPP" "Madhya Pradesh" "WESTERN";
   P "SASAN UMTPP" "Madhya Pradesh" "WESTERN";
   P "GADARWARA TPP" "Madhya Pradesh" "WESTERN";
   P "KHARGONE STPP" "Madhya Pradesh" "WESTERN";
   P "SEIONI TPP" "Madhya Pradesh" "WESTERN";
   P "VINDHYACHAL STPS" "Madhya Pradesh" "WESTERN";
   P "BHUSAWAL TPS" "Maharashtra" "WESTERN";
   P "CHANDRAPUR(MAHARASHTRA) STPS" "Maharashtra" "WESTERN";
   P "KHAPARKHEDA TPS" "Maharashtra" "WESTERN";
   P "KORADI TPS" "Maharashtra" "WESTERN";
   P "NASIK TPS" "Maharashtra" "WESTERN";
   P "PARAS TPS" "Maharashtra" "WESTERN";
   P "PARLI TPS" "Maharashtra" "WESTERN";
   P "ADANI POWER LIMITED TIRODA TPP" "Maharashtra" "WESTERN";
   P "AMRAVATI TPS" "Maharashtra" "WESTERN";
   P "BELA TPS" "Maharashtra" "WESTERN";
   P "BUTIBORI TPP" "Maharashtra" "WESTERN";
   P "DAHANU TPS" "Maharashtra" "WESTERN";
   P "DHARIWAL TPP" "Maharashtra" "WESTERN";
   P "GEPL TPP Ph-I" "Maharashtra" "WESTERN";
   P "GMR WARORA TPS" "Maharashtra" "WESTERN";
   P "JSW RATNAGIRI TPP" "Maharashtra" "WESTERN";
   P "LANCO VIDARBHA TPP" "Maharashtra" "WESTERN";
   P "MIHAN TPS" "Maharashtra" "WESTERN";
   P "NASIK (P) TPS" "Maharashtra" "WESTERN";
   P "SHIRPUR TPP" "Maharashtra" "WESTERN";
   P "TROMBAY TPS" "Maharashtra" "WESTERN";
   P "WARDHA WARORA TPP" "Maharashtra" "WESTERN";
   P "MAUDA TPS" "Maharashtra" "WESTERN";
   P "SOLAPUR STPS" "Maharashtra" "WESTERN";
   P "SGPL TPP" "Andhra Pradesh" "SOUTHERN";
   P "PAINAMPURAM TPP" "Andhra Pradesh" "SOUTHERN";
   P "Dr. N.TATA RAO TPS" "Andhra Pradesh" "SOUTHERN";
   P "RAYALASEEMA TPS" "Andhra Pradesh" "SOUTHERN";
   P "DAMODARAM SANJEEVAIAH TPS" "Andhra Pradesh" "SOUTHERN";
   P "SIMHAPURI TPS" "Andhra Pradesh" "SOUTHERN";
   P "THAMMINAPATNAM TPS" "Andhra Pradesh" "SOUTHERN";
   P "VIZAG TPP" "Andhra Pradesh" "SOUTHERN";
   P "BELLARY TPS" "Karnataka" "SOUTHERN";
   P "RAICHUR TPS" "Karnataka" "SOUTHERN";
   P "YERMARUS TPP" "Karnataka" "SOUTHERN";
   P "ADANI POWER LIMITED UDUPI TPP" "Karnataka" "SOUTHERN";
   P "TORANGALLU TPS(SBU-I)" "Karnataka" "SOUTHERN";
   P "TORANGALLU TPS(SBU-II)" "Karnataka" "SOUTHERN";
   P "KUDGI STPP" "Karnataka" "SOUTHERN";
   P "METTUR TPS" "Tamil Nadu" "SOUTHERN";
   P "METTUR TPS - II" "Tamil Nadu" "SOUTHERN";
   P "NORTH CHENNAI TPS" "Tamil Nadu" "SOUTHERN";
   P "TUTICORIN TPS" "Tamil Nadu" "SOUTHERN";
   P "NTPL TUTICORIN TPP" "Tamil Nadu" "SOUTHERN";
   P "UDANGUDI TPP" "Tamil Nadu" "SOUTHERN";
   P "ITPCL TPP" "Tamil Nadu" "SOUTHERN";
   P "MUTHIARA TPP" "Tamil Nadu" "SOUTHERN";
   P "NEYVELI TPS(Z)" "Tamil Nadu" "SOUTHERN";
   P "TUTICORIN (P) TPP" "Tamil Nadu" "SOUTHERN";
   P "TUTICORIN TPP ST-IV" "Tamil Nadu" "SOUTHERN";
   P "NEYVELI (EXT) TPS" "Tamil Nadu" "SOUTHERN";
   P "NEYVELI NEW TPP" "Tamil Nadu" "SOUTHERN";
   P "NEYVELI TPS-II" "Tamil Nadu" "SOUTHERN";
   P "NEYVELI TPS-II EXP" "Tamil Nadu" "SOUTHERN";
   P "VALLUR TPP" "Tamil Nadu" "SOUTHERN";
   P "SINGARENI TPP" "Telangana" "SOUTHERN";
   P "BHADRADRI TPP" "Telangana" "SOUTHERN";
   P "KAKATIYA TPS" "Telangana" "SOUTHERN";
   P "KOTHAGUDEM TPS (NEW)" "Telangana" "SOUTHERN";
   P "KOTHAGUDEM TPS (STAGE-7)" "Telangana" "SOUTHERN";
   P "RAMAGUNDEM-B TPS" "Telangana" "SOUTHERN";
   P "YADADRI TPS" "Telangana" "SOUTHERN";
   P "RAMAGUNDEM STPS" "Telangana" "SOUTHERN";
   P "TELANGANA STPP PH-1" "Telangana" "SOUTHERN";
   P "BARAUNI TPS" "Bihar" "EASTERN";
   P "BARH STPS" "Bihar" "EASTERN";
   P "BUXAR TPP" "Bihar" "EASTERN";
   P "KAHALGAON TPS" "Bihar" "EASTERN";
   P "MUZAFFARPUR TPS" "Bihar" "EASTERN";
   P "NABINAGAR STPP" "Bihar" "EASTERN";
   P "NABINAGAR TPP" "Bihar" "EASTERN";
   P "TENUGHAT TPS" "Jharkhand" "EASTERN";
   P "JOJOBERA TPS" "Jharkhand" "EASTERN";
   P "MAHADEV PRASAD STPP" "Jharkhand" "EASTERN";
   P "MAITHON RB TPP" "Jharkhand" "EASTERN";
   P "MAITRISHI USHA TPS" "Jharkhand" "EASTERN";
   P "BOKARO TPS A EXP" "Jharkhand" "EASTERN";
   P "CHANDRAPURA(DVC) TPS" "Jharkhand" "EASTERN";
   P "KODARMA TPP" "Jharkhand" "EASTERN";
   P "NORTH KARANPURA TPP" "Jharkhand" "EASTERN";
   P "PATRATU STPP" "Jharkhand" "EASTERN";
   P "IB VALLEY TPS" "Odisha" "EASTERN";
   P "DERANG TPP" "Odisha" "EASTERN";
   P "KAMALANGA TPS" "Odisha" "EASTERN";
   P "LANCO BABANDH TPP" "Odisha" "EASTERN";
   P "UTKAL TPP (IND BARATH)" "Odisha" "EASTERN";
   P "VEDANTA TPP" "Odisha" "EASTERN";
   P "DARLIPALI STPS" "Odisha" "EASTERN";
   P "TALCHER STPS" "Odisha" "EASTERN";
   P "D.P.L. TPS" "West Bengal" "EASTERN";
   P "BAKRESWAR TPS" "West Bengal" "EASTERN";
   P "BANDEL TPS" "West Bengal" "EASTERN";
   P "KOLAGHAT TPS" "West Bengal" "EASTERN";
   P "SAGARDIGHI TPS" "West Bengal" "EASTERN";
   P "SANTALDIH TPS" "West Bengal" "EASTERN";
   P "SAGARDIGHI TPP ST-III" "West Bengal" "EASTERN";
   P "BUDGE BUDGE TPS" "West Bengal" "EASTERN";
   P "DISHERGARH TPP" "West Bengal" "EASTERN";
   P "HIRANMAYE TPP" "West Bengal" "EASTERN";
   P "SOUTHERN REPL. TPS" "West Bengal" "EASTERN";
   P "TITAGARH TPS" "West Bengal" "EASTERN";
   P "DURGAPUR STEEL TPS" "West Bengal" "EASTERN";
   P "FARAKKA STPS" "West Bengal" "EASTERN";
   P "MEJIA TPS" "West Bengal" "EASTERN";
   P "RAGHUNATHPUR TPP" "West Bengal" "EASTERN";
   P "BONGAIGAON TPP" "Assam" "NORTH EASTERN"
  ].

(** [d.get(k, default)] *)
Fixpoint dict_get {V : Type} (d : list (text * V)) (k : text) (default : V) : V :=
  match d with
  | [] => default
  | (k', v) :: rest => if text_eqb k' k then v else dict_get rest k default
  end.

(** [set(plant_info.keys())] *)
Definition allowed_plants : list text := map fst plant_info.

(** [x in s], and [Series.isin] on one value. *)
Definition isin (x : text) (s : list text) : bool := existsb (text_eqb x) s.

(* ================================================================== *)
(** ** Extraction pipeline *)
(* ================================================================== *)

(** A read of a workbook, as asked of [pd.read_excel]. *)
Inductive read_call : Type :=
| ReadExcel (fname : text) (header : option nat) (nrows : option nat).

(** [read_excel_auto(file, header=h, nrows=n)]: the outcome and the read
    it performs. *)
Definition read_excel_auto (f : file) (header nrows : option nat)
    : result frame * list read_call :=
  (read_excel f header nrows, [ReadExcel (name f) header nrows]).

(** The load of a generation file in the generation loop:
    [try: read_excel_auto(gen_file, header=3)
     except Exception: read_excel_auto(gen_file, header=0)],
    with the reads performed, in order. *)
Definition load_generation_frame (f : file) : result frame * list read_call :=
  match read_excel_auto f (Some 3) None with
  | (Ok df, reads) => (Ok df, reads)
  | (Raise _, reads) =>
      let (r, reads') := read_excel_auto f (Some 0) None in
      (r, reads ++ reads')
  end.

(** A row appended to [gen_data] or [coal_data]. *)
Record data_row : Type := {
  Date_Label : text;
  Date_dt : option date;
  row_state : text;
  row_plant : text;
  row_region : text;
  row_value : text
}.

(** A row of a result table. *)
Record table_row : Type := {
  Date : text;
  State_Name : text;
  Thermal_Plant : text;
  Region : text;
  Metric : text
}.

(** A row of [merged]; the coal column holds a value of the coal table or
    is missing. *)
Record merged_row : Type := {
  m_Date : text;
  m_State_Name : text;
  m_Thermal_Plant : text;
  m_Region : text;
  m_Generation : text;
  m_Coal : cell
}.

(** Lexicographic order of two strings, by code point. *)
Fixpoint text_leb (a b : text) : bool :=
  match a, b with
  | [], _ => true
  | _ :: _, [] => false
  | x :: a', y :: b' =>
      if code x <? code y then true
      else if code y <? code x then false
      else text_leb a' b'
  end.

Definition date_ltb (d1 d2 : date) : bool :=
  ((year d1 <? year d2)
   || ((year d1 =? year d2)
       && ((month d1 <? month d2)
           || ((month d1 =? month d2) && (day d1 <? day d2)))))%Z.

(** The order of [sort_values(by=["Date_dt", "Thermal Plant"],
    na_position="last")]. *)
Definition row_leb (r1 r2 : data_row) : bool :=
  match Date_dt r1, Date_dt r2 with
  | Some d1, Some d2 =>
      if date_ltb d1 d2 then true
      else if date_ltb d2 d1 then false
      else text_leb (row_plant r1) (row_plant r2)
  | Some _, None => true
  | None, Some _ => false
  | None, None => text_leb (row_plant r1) (row_plant r2)
  end.

(** A stable sort: each row goes after the rows not greater than it. *)
Fixpoint insert_row (r : data_row) (l : list data_row) : list data_row :=
  match l with
  | [] => [r]
  | y :: l' => if row_leb y r then y :: insert_row r l' else r :: l
  end.

Definition sort_values (l : list data_row) : list data_row :=
  fold_left (fun acc r => insert_row r acc) l [].

(** The sorted table with its [Date] column:
    [Date_dt.strftime("%d/%m/%Y") if pd.notna(Date_dt) else str(Date_Label)]. *)
Definition result_table (data : list data_row) : list table_row :=
  match data with
  | [] => []
  | _ :: _ =>
      map (fun r =>
             {| Date := match Date_dt r with
                        | Some d => strftime_dmY d
                        | None => Date_Label r
                        end;
                State_Name := row_state r;
                Thermal_Plant := row_plant r;
                Region := row_region r;
                Metric := row_value r |})
          (sort_values data)
  end.

(** [df[df["Thermal Plant"].isin(allowed_plants)]] *)
Definition registry_filter (df : list table_row) : list table_row :=
  match df with
  | [] => []
  | _ :: _ => filter (fun r => isin (Thermal_Plant r) allowed_plants) df
  end.

Definition same_key (g c : table_row) : bool :=
  text_eqb (Date g) (Date c) && text_eqb (Thermal_Plant g) (Thermal_Plant c).

Definition with_coal (g : table_row) (coal : cell) : merged_row :=
  {| m_Date := Date g; m_State_Name := State_Name g;
     m_Thermal_Plant := Thermal_Plant g; m_Region := Region g;
     m_Generation := Metric g; m_Coal := coal |}.

(** [pd.merge(gen, coal[["Date", "Thermal Plant", coal column]],
    on=["Date", "Thermal Plant"], how="left")]: the rows of [gen] in order,
    each once per coal row of its key, in the order of [coal], or once with
    a missing coal value when no coal row has its key. *)
Definition merge_left (gen coal : list table_row) : list merged_row :=
  flat_map
    (fun g =>
       match filter (same_key g) coal with
       | [] => [with_coal g NaN]
       | hits => map (fun c => with_coal g (Str (Metric c))) hits
       end)
    gen.

Definition merged (gen coal : list table_row) : list merged_row :=
  match gen with
  | [] => []
  | _ :: _ => merge_left gen coal
  end.

(** A row of the sheet [merged.to_excel(..., index=False)] writes: a
    missing value is written as [na_rep], the empty string. *)
Record sheet_row : Type := {
  x_Date : text;
  x_State_Name : text;
  x_Thermal_Plant : text;
  x_Region : text;
  x_Generation : text;
  x_Coal : text
}.

Definition na_rep : text := [].

Definition to_excel (m : list merged_row) : list sheet_row :=
  map (fun r =>
         {| x_Date := m_Date r; x_State_Name := m_State_Name r;
            x_Thermal_Plant := m_Thermal_Plant r; x_Region := m_Region r;
            x_Generation := m_Generation r;
            x_Coal := match m_Coal r with NaN => na_rep | Str s => s end |})
      m.

(** What a run shows and writes. *)
Record outputs : Type := {
  table1 : list table_row;
  table2 : list table_row;
  merged_table : list merged_row;
  export : list sheet_row
}.

(** Everything after the two loops. *)
Definition present (gen_data coal_data : list data_row) : outputs :=
  let gen_result_df := registry_filter (result_table gen_data) in
  let coal_result_df := registry_filter (result_table coal_data) in
  let m := merged gen_result_df coal_result_df in
  {| table1 := gen_result_df; table2 := coal_result_df;
     merged_table := m; export := to_excel m |}.

(** [for x in xs: out.extend(body(x))], stopping at an exception. *)
Fixpoint for_each {A B : Type} (body : A -> result (list B)) (xs : list A)
    : result (list B) :=
  match xs with
  | [] => Ok []
  | x :: xs' =>
      here <- body x ;;
      later <- for_each body xs' ;;
      Ok (here ++ later)
  end.

Section Pipeline.

(** The fallback month and year chosen, and the two steps that read a
    metric out of a sheet (lines 629-641 and 664-701 of the source: the
    match of the plant against the label column, the choice of the metric
    column, [format_num] of the cell found). *)
Variable month_name : text.
Variable year_val : Z.
Variable generation_value : frame -> text -> result text.
Variable coal_value : file -> text -> result text.

Definition unknown : text * text := (T "Unknown", T "Unknown").

Definition label_or_name (label : option text) (f : file) : text :=
  match label with
  | Some l => l
  | None => splitext_root (basename (name f))
  end.

(** The body of the generation loop. *)
Definition generation_row (plant : text) (gen_file : file) : result data_row :=
  raw_date <- get_date_from_generation_file gen_file month_name year_val ;;
  let (date_label, date_obj) := format_date_label raw_date month_name year_val in
  let date_label := label_or_name date_label gen_file in
  gen_df <- fst (load_generation_frame gen_file) ;;
  todays_actual_val <- generation_value gen_df plant ;;
  let (state, region) := dict_get plant_info plant unknown in
  Ok {| Date_Label := date_label; Date_dt := date_obj; row_state := state;
        row_plant := plant; row_region := region;
        row_value := todays_actual_val |}.

(** The body of the coal loop. *)
Definition coal_row (plant : text) (coal_file : file) : result data_row :=
  raw_date <- get_date_from_coal_file coal_file month_name year_val ;;
  let (date_label, date_obj) := format_date_label raw_date month_name year_val in
  let date_label := label_or_name date_label coal_file in
  coal_val <- coal_value coal_file plant ;;
  let (state, region) := dict_get plant_info plant unknown in
  Ok {| Date_Label := date_label; Date_dt := date_obj; row_state := state;
        row_plant := plant; row_region := region; row_value := coal_val |}.

Definition rows_of (body : text -> file -> result data_row)
    (plants : list text) (files : list file) : result (list data_row) :=
  for_each
    (fun plant => for_each (fun f => r <- body plant f ;; Ok [r]) files)
    plants.

(** The run started by "Generate Final Dataset", for the plants selected
    and the files uploaded (sorted by name). *)
Definition generate_final_dataset (selected_gen_plants selected_coal_plants : list text)
    (generation_files_sorted coal_files_sorted : list file) : result outputs :=
  gen_data <- rows_of generation_row selected_gen_plants generation_files_sorted ;;
  coal_data <- rows_of coal_row selected_coal_plants coal_files_sorted ;;
  Ok (present gen_data coal_data).

End Pipeline.

(* ================================================================== *)
(** ** Header row of a coal file *)
(* ================================================================== *)

(** ["Thermal" in c or "Station" in c], letter case as written. *)
Definition names_plants (c : text) : bool :=
  contains (T "Thermal") c || contains (T "Station") c.

(** The loop of [detect_coal_header] over the header rows still to try:
    a read that raises is passed over, a read whose column names do not
    name the plants is passed over, and 0 is returned at the end. *)
Fixpoint coal_header_loop (f : file) (hdrs : list nat) : nat :=
  match hdrs with
  | [] => 0
  | hdr :: rest =>
      match read_excel f (Some hdr) (Some 10) with
      | Ok df =>
          if existsb names_plants (columns df) then hdr
          else coal_header_loop f rest
      | Raise _ => coal_header_loop f rest
      end
  end.

Definition detect_coal_header (f : file) : nat := coal_header_loop f (seq 0 10).

(* ================================================================== *)
(** ** Menu and selections *)
(* ================================================================== *)

(** [sorted] on a list of strings. *)
Fixpoint insert_text (x : text) (l : list text) : list text :=
  match l with
  | [] => [x]
  | y :: l' => if text_leb y x then y :: insert_text x l' else x :: l
  end.

Definition sorted (l : list text) : list text :=
  fold_left (fun acc x => insert_text x acc) l [].

(** [combined_plants]: [sorted(list(set(plant_info.keys())))], the value
    stored in the session state and the default [initial_menu] alike. *)
Definition combined_plants : list text := sorted allowed_plants.

(** [menu = ["All"] + combined_plants] *)
Definition menu : list text := T "All" :: combined_plants.

(** The plants a loop runs over, for the value of a multiselect:
    [combined_plants.copy() if "All" in sel else sel.copy()]. *)
Definition interpret_all (sel : list text) : list text :=
  if isin (T "All") sel then combined_plants else sel.

(** [set(a) != set(b)], negated. *)
Definition set_eqb (a b : list text) : bool :=
  forallb (fun x => isin x b) a && forallb (fun x => isin x a) b.

(** [_on_change_gen] and [_on_change_coal], on the selection stored:
    [if "All" in sel and set(sel) != set(menu_local): sel = menu_local.copy()]. *)
Definition on_change (sel : list text) : list text :=
  if isin (T "All") sel && negb (set_eqb sel menu) then menu else sel.

(* ================================================================== *)
(** ** Uploads *)
(* ================================================================== *)

(** [sorted(files, key=lambda x: x.name) if files else []]: a stable sort
    by name. *)
Fixpoint insert_file (f : file) (l : list file) : list file :=
  match l with
  | [] => [f]
  | g :: l' => if text_leb (name g) (name f) then g :: insert_file f l' else f :: l
  end.

Definition sorted_by_name (files : list file) : list file :=
  fold_left (fun acc f => insert_file f acc) files [].

(** The run on the files as uploaded. *)
Definition run_on_uploads (month_name : text) (year_val : Z)
    (generation_value : frame -> text -> result text)
    (coal_value : file -> text -> result text)
    (selected_gen_plants selected_coal_plants : list text)
    (generation_files coal_files : list file) : result outputs :=
  generate_final_dataset month_name year_val generation_value coal_value
    selected_gen_plants selected_coal_plants
    (sorted_by_name generation_files) (sorted_by_name coal_files).

(* ================================================================== *)
(** * Properties *)
(* ================================================================== *)

(** ** Sample evaluations *)

Example normalize_panipat :
  normalize_name (Str (T "Panipat TPS")) = T "panipat tps".
Proof. reflexivity. Qed.

Example normalize_mettur :
  normalize_name (Str (T "Mettur TPS - II")) = normalize_name (Str (T "Mettur TPS II")).
Proof. reflexivity. Qed.

Example normalize_parens :
  normalize_name (Str (T "GH TPS (LEH.MOH.)")) = T "gh tps".
Proof. reflexivity. Qed.

Example normalize_amp :
  normalize_name (Str (T "a&b (x(y) z) power station")) = T "a and b z power stn".
Proof. reflexivity. Qed.

Example ratio_abcd_bcde :
  Difflib.ratio (T "abcd") (T "bcde") = (6 # 8)%Q.
Proof. reflexivity. Qed.

Example ratio_tide_diet :
  Difflib.ratio (T "tide") (T "diet") = (2 # 8)%Q /\
  Difflib.ratio (T "diet") (T "tide") = (4 # 8)%Q.
Proof. split; reflexivity. Qed.

Example ratio_panipat :
  Difflib.ratio (T "panipat tps") (T "panipat power stn") = (18 # 28)%Q.
Proof. reflexivity. Qed.

Example match_exact_precedence :
  find_best_match_index
    (range_series [Str (T "Panipat TPS"); Str (T "Panipat Power Station")])
    (Str (T "PANIPAT TPS")) default_min_ratio = Some 0.
Proof. reflexivity. Qed.

Example match_substring_before_exact_later_row :
  find_best_match_index
    (range_series [Str (T "Panipat TPS Unit 1"); Str (T "Panipat TPS")])
    (Str (T "PANIPAT TPS")) default_min_ratio = Some 1.
Proof. reflexivity. Qed.

Example match_fuzzy_anpara :
  find_best_match_index
    (range_series [Str (T "Total"); Str (T "Anpara C TPS")])
    (Str (T "ANPARA TPS")) default_min_ratio = Some 1.
Proof. reflexivity. Qed.

Example match_none_below_threshold :
  find_best_match_index
    (range_series [Str (T "Total"); Str (T "Grand total")])
    (Str (T "ANPARA TPS")) default_min_ratio = None.
Proof. reflexivity. Qed.

Example detect_generation_col_prefers_today :
  detect_generation_col
    [T "Station"; T "Actual till date"; T "Today's Actual (MU)"; T "Daily Gen"]
  = Some (T "Today's Actual (MU)").
Proof. reflexivity. Qed.

Example detect_generation_col_falls_back :
  detect_generation_col [T "Station"; T "April Today Actual"; T "Daily Gen (MU)"]
  = Some (T "April Today Actual").
Proof. reflexivity. Qed.

Example parse_day_month_year :
  parse_date_string_to_date (T "Date: 05/06/2024") = Ok (PDate (mkdate 2024 6 5)).
Proof. reflexivity. Qed.

Example parse_day_token :
  parse_date_string_to_date (T "DAY 14") = Ok (PInt 14).
Proof. reflexivity. Qed.

Example parse_timestamp_cell :
  parse_date_string_to_date (T "2024-06-05 00:00:00") = Ok (PDate (mkdate 2005 6 24)).
Proof. reflexivity. Qed.

Example standalone_number_needs_word_boundaries :
  Re.search pat_number (T "Gen_07") = None
  /\ option_map (Re.whole (T "Gen 07")) (Re.search pat_number (T "Gen 07"))
     = Some (T "07").
Proof. split; reflexivity. Qed.

(* ================================================================== *)
(** ** Text: comparison and containment *)
(* ================================================================== *)

(** [sub] occurs in [s]. *)
Definition occurs (sub s : text) : Prop :=
  exists pre post, s = pre ++ sub ++ post.

Lemma text_eqb_eq (a b : text) : text_eqb a b = true <-> a = b.
Proof.
  unfold text_eqb. destruct (list_eq_dec ascii_dec a b); split; intros; auto; discriminate.
Qed.

Lemma text_eqb_neq (a b : text) : text_eqb a b = false <-> a <> b.
Proof.
  unfold text_eqb. destruct (list_eq_dec ascii_dec a b); split; intros; auto;
    try discriminate; contradiction.
Qed.

Lemma text_eqb_refl (a : text) : text_eqb a a = true.
Proof. apply text_eqb_eq. reflexivity. Qed.

Lemma nonempty_true (s : text) : nonempty s = true <-> s <> [].
Proof. destruct s; simpl; split; intros; congruence. Qed.

Lemma nonempty_false (s : text) : nonempty s = false <-> s = [].
Proof. destruct s; simpl; split; intros; congruence. Qed.

Lemma prefixb_spec (p s : text) : prefixb p s = true <-> exists t, s = p ++ t.
Proof.
  revert s. induction p as [|a p IH]; intros s; simpl.
  - split; eauto.
  - destruct s as [|b s].
    + split; [discriminate | intros [t Ht]; discriminate].
    + rewrite andb_true_iff, Ascii.eqb_eq, IH. split.
      * intros [-> [t ->]]. eauto.
      * intros [t Ht]. injection Ht as -> ->. eauto.
Qed.

Lemma contains_spec (sub s : text) : contains sub s = true <-> occurs sub s.
Proof.
  unfold occurs. induction s as [|c s IH].
  - simpl. rewrite orb_false_r, prefixb_spec. split.
    + intros [t Ht]. exists [], t. exact Ht.
    + intros [pre [post H]]. destruct pre; [eauto | discriminate].
  - cbn [contains]. rewrite orb_true_iff, prefixb_spec, IH. split.
    + intros [[t Ht] | [pre [post H]]].
      * exists [], t. exact Ht.
      * exists (c :: pre), post. simpl. congruence.
    + intros [pre [post H]]. destruct pre as [|x pre].
      * left. eauto.
      * right. injection H as _ H. eauto.
Qed.

Lemma contains_false (sub s : text) : contains sub s = false <-> ~ occurs sub s.
Proof.
  rewrite <- contains_spec. destruct (contains sub s); split; intros; congruence.
Qed.

(* ================================================================== *)
(** ** Column detector: first match wins, in two passes *)
(* ================================================================== *)

(** [c] is the first element of [l] with property [P]. *)
Definition first_with {A : Type} (P : A -> Prop) (l : list A) (c : A) : Prop :=
  exists before after,
    l = before ++ c :: after /\ P c /\ forall x, In x before -> ~ P x.

Lemma find_first_with {A : Type} (p : A -> bool) (l : list A) (c : A) :
  find p l = Some c <-> first_with (fun x => p x = true) l c.
Proof.
  unfold first_with. induction l as [|y l IH]; simpl.
  - split; [discriminate|]. intros [b [a [H _]]]. destruct b; discriminate.
  - destruct (p y) eqn:Hy.
    + split.
      * intros [= ->]. exists [], l. simpl. intuition.
      * intros [b [a [H [Hc Hb]]]]. destruct b as [|z b].
        -- simpl in H. congruence.
        -- simpl in H. injection H as <- _. exfalso. apply (Hb y); simpl; auto.
    + rewrite IH. split.
      * intros [b [a [-> [Hc Hb]]]]. exists (y :: b), a. simpl.
        repeat split; auto. intros x [<- | Hx]; [congruence | auto].
      * intros [b [a [H [Hc Hb]]]]. destruct b as [|z b].
        -- simpl in H. injection H as -> _. congruence.
        -- simpl in H. injection H as _ ->. exists b, a.
           repeat split; auto. intros x Hx. apply Hb. simpl. auto.
Qed.

Lemma find_none_iff {A : Type} (p : A -> bool) (l : list A) :
  find p l = None <-> forall x, In x l -> p x = false.
Proof.
  split; [apply find_none|]. induction l as [|y l IH]; simpl; intros H; auto.
  rewrite (H y) by auto. apply IH. intros; apply H; auto.
Qed.

Lemma today_actual_loop_find (columns : list text) :
  today_actual_loop columns = find (fun c => today_actual_rule (upper c)) columns.
Proof.
  induction columns as [|c l IH]; [reflexivity|].
  cbn [today_actual_loop find]. rewrite IH. reflexivity.
Qed.

Lemma actual_loop_find (columns : list text) :
  actual_loop columns = find (fun c => actual_rule (upper c)) columns.
Proof.
  induction columns as [|c l IH]; [reflexivity|].
  cbn [actual_loop find]. rewrite IH. reflexivity.
Qed.

(** The two rules, stated on the upper-cased column name. *)
Definition TodayActual (c : text) : Prop :=
  occurs (T "TODAY") (upper c) /\ occurs (T "ACTUAL") (upper c)
  /\ ~ occurs (T "APRIL") (upper c) /\ ~ occurs (T "TILL") (upper c).

Definition ActualOrDailyGen (c : text) : Prop :=
  occurs (T "ACTUAL") (upper c)
  \/ (occurs (T "DAILY") (upper c) /\ occurs (T "GEN") (upper c)).

Lemma today_actual_rule_spec (c : text) :
  today_actual_rule (upper c) = true <-> TodayActual c.
Proof.
  unfold today_actual_rule, TodayActual.
  rewrite !andb_true_iff, !negb_true_iff, !contains_spec, !contains_false.
  tauto.
Qed.

Lemma actual_rule_spec (c : text) :
  actual_rule (upper c) = true <-> ActualOrDailyGen c.
Proof.
  unfold actual_rule, ActualOrDailyGen.
  rewrite orb_true_iff, andb_true_iff, !contains_spec. tauto.
Qed.

Lemma first_with_ext {A : Type} (P Q : A -> Prop) (l : list A) (c : A) :
  (forall x, P x <-> Q x) -> first_with P l c <-> first_with Q l c.
Proof.
  intros H. unfold first_with. split; intros [b [a [E [Hc Hb]]]]; exists b, a;
    repeat split; auto; try (apply H; auto); intros x Hx Hq; apply (Hb x Hx), H, Hq.
Qed.

(** C8.  [detect_generation_col] returns the first column whose upper-cased
    name contains TODAY and ACTUAL but neither APRIL nor TILL; when there is
    none, the first column whose upper-cased name contains ACTUAL, or both
    DAILY and GEN; and [None] exactly when no column meets either rule. *)
Theorem detect_generation_col_two_passes (columns : list text) :
  (forall c,
      detect_generation_col columns = Some c <->
      first_with TodayActual columns c
      \/ ((forall x, In x columns -> ~ TodayActual x)
          /\ first_with ActualOrDailyGen columns c))
  /\ (detect_generation_col columns = None <->
      forall x, In x columns -> ~ TodayActual x /\ ~ ActualOrDailyGen x).
Proof.
  unfold detect_generation_col.
  rewrite today_actual_loop_find, actual_loop_find.
  destruct (find (fun c => today_actual_rule (upper c)) columns) as [c0|] eqn:E1.
  - pose proof E1 as F1. apply find_first_with in F1.
    apply (first_with_ext _ TodayActual) in F1; [|apply today_actual_rule_spec].
    split.
    + intros c. split.
      * intros [= <-]. left. exact F1.
      * intros [H | [Hnone _]].
        -- apply (first_with_ext _ (fun x => today_actual_rule (upper x) = true)) in H;
             [|intros x; symmetry; apply today_actual_rule_spec].
           apply find_first_with in H. congruence.
        -- exfalso. destruct F1 as [b [a [-> [Hc _]]]].
           apply (Hnone c0); [apply in_elt | exact Hc].
    + split; [discriminate|]. intros H. exfalso.
      destruct F1 as [b [a [-> [Hc _]]]].
      destruct (H c0 (in_elt _ _ _)) as [Hn _]. exact (Hn Hc).
  - pose proof (proj1 (find_none_iff _ _) E1) as N1.
    assert (Hno : forall x, In x columns -> ~ TodayActual x).
    { intros x Hx Ht. apply today_actual_rule_spec in Ht. rewrite N1 in Ht by auto.
      discriminate. }
    split.
    + intros c. rewrite find_first_with.
      rewrite (first_with_ext _ ActualOrDailyGen) by apply actual_rule_spec.
      split.
      * intros H. right. auto.
      * intros [[b [a [-> [Hc _]]]] | [_ H]]; auto.
        exfalso. apply (Hno c); [apply in_elt | exact Hc].
    + rewrite find_none_iff. split.
      * intros H x Hx. split; auto. intros Ha. apply actual_rule_spec in Ha.
        rewrite H in Ha by auto. discriminate.
      * intros H x Hx. destruct (actual_rule (upper x)) eqn:E; auto.
        apply actual_rule_spec in E. destruct (H x Hx). contradiction.
Qed.

(* ================================================================== *)
(** ** difflib: the nesting bound is enough *)
(* ================================================================== *)

Section MatchedFuel.

Variables a b : text.

Lemma new_j2len_bound (ai : ascii) (blo bhi : nat) (bs : text) (j n : nat)
    (prev : list nat) :
  Forall (fun k => k <= n) prev ->
  Forall (fun k => k <= S n) (Difflib.new_j2len b ai blo bhi bs j prev).
Proof.
  revert j prev. induction bs as [|bj bs IH]; intros j prev H; [constructor|].
  cbn [Difflib.new_j2len]. constructor.
  - destruct (_ && _ && _ && _); [|lia].
    destruct H as [|p prev Hp Hprev]; cbn [hd]; lia.
  - apply IH. destruct H; [constructor | assumption].
Qed.

(** A triple [(besti, bestj, bestsize)] lying in [a[alo:hi]]. *)
Definition within (alo hi : nat) (best : nat * nat * nat) : Prop :=
  let '(i, _, k) := best in alo <= i /\ i + k <= hi.

Lemma update_best_within (alo i : nat) (row : list nat) (j : nat)
    (best : nat * nat * nat) :
  alo <= i ->
  Forall (fun k => k <= i + 1 - alo) row ->
  within alo (S i) best ->
  within alo (S i) (Difflib.update_best i row j best).
Proof.
  intros Hi H. revert j best. induction H as [|k row Hk Hrow IH]; intros j best Hb.
  - exact Hb.
  - cbn [Difflib.update_best]. destruct best as [[bi bj] bk].
    apply IH. destruct (bk <? k) eqn:E; [|exact Hb].
    apply Nat.ltb_lt in E. cbn [within]. lia.
Qed.

Lemma scan_rows_within (alo blo bhi : nat) (rest : text) (i ahi : nat)
    (j2len : list nat) (best : nat * nat * nat) :
  alo <= i -> i <= ahi ->
  Forall (fun k => k <= i - alo) j2len ->
  within alo i best ->
  within alo ahi (Difflib.scan_rows b blo bhi rest i ahi j2len best).
Proof.
  revert i j2len best. induction rest as [|ai rest IH]; intros i j2len best Hi Hhi Hj Hb.
  - cbn [Difflib.scan_rows]. destruct best as [[bi bj] bk]. cbn [within] in *. lia.
  - cbn [Difflib.scan_rows]. destruct (i <? ahi) eqn:E.
    + apply Nat.ltb_lt in E.
      assert (Hrow : Forall (fun k => k <= S (i - alo))
                       (Difflib.new_j2len b ai blo bhi b 0 (0 :: j2len))).
      { apply new_j2len_bound. constructor; [lia | exact Hj]. }
      apply IH; [lia | lia | |].
      * replace (S i - alo) with (S (i - alo)) by lia. exact Hrow.
      * apply update_best_within; [exact Hi | |].
        -- replace (i + 1 - alo) with (S (i - alo)) by lia. exact Hrow.
        -- destruct best as [[bi bj] bk]. cbn [within] in *. lia.
    + destruct best as [[bi bj] bk]. cbn [within] in *. lia.
Qed.

Lemma extend_left_within (alo blo besti bestj bestsize hi : nat) :
  within alo hi (besti, bestj, bestsize) ->
  within alo hi (Difflib.extend_left a b alo blo besti bestj bestsize).
Proof.
  revert bestj bestsize. induction besti as [|i' IH]; intros bestj bestsize H.
  - exact H.
  - cbn [Difflib.extend_left].
    destruct ((alo <? S i') && (blo <? bestj)
              && Ascii.eqb (Difflib.elt a i') (Difflib.elt b (bestj - 1))) eqn:E;
      [|exact H].
    apply andb_true_iff in E. destruct E as [E _].
    apply andb_true_iff in E. destruct E as [E _]. apply Nat.ltb_lt in E.
    apply IH. cbn [within] in *. lia.
Qed.

Lemma extend_right_within (room ahi bhi besti bestj bestsize : nat) :
  besti + bestsize <= ahi ->
  besti + Difflib.extend_right a b room ahi bhi besti bestj bestsize <= ahi.
Proof.
  revert bestsize. induction room as [|room IH]; intros bestsize H.
  - exact H.
  - cbn [Difflib.extend_right].
    destruct ((besti + bestsize <? ahi) && (bestj + bestsize <? bhi)
              && Ascii.eqb (Difflib.elt a (besti + bestsize))
                           (Difflib.elt b (bestj + bestsize))) eqn:E; [|exact H].
    apply andb_true_iff in E. destruct E as [E _].
    apply andb_true_iff in E. destruct E as [E _]. apply Nat.ltb_lt in E.
    apply IH. lia.
Qed.

(** The block [find_longest_match] returns lies in the range of [a] it
    was asked to search. *)
Lemma find_longest_match_within (alo ahi blo bhi : nat) :
  alo <= ahi ->
  within alo ahi (Difflib.find_longest_match a b alo ahi blo bhi).
Proof.
  intros H. unfold Difflib.find_longest_match.
  pose proof (@scan_rows_within alo blo bhi (skipn alo a) alo ahi [] (alo, blo, 0)
                (le_n _) H (Forall_nil _)) as S1.
  destruct (Difflib.scan_rows b blo bhi (skipn alo a) alo ahi [] (alo, blo, 0))
    as [[i1 j1] k1].
  assert (W1 : within alo ahi (i1, j1, k1)) by (apply S1; cbn; lia).
  pose proof (@extend_left_within alo blo i1 j1 k1 ahi W1) as S2.
  destruct (Difflib.extend_left a b alo blo i1 j1 k1) as [[i2 j2] k2].
  cbn [within] in *. split; [lia|].
  apply extend_right_within. lia.
Qed.

(** Every range queued is shorter in [a] than the one it comes from, so
    the count does not depend on the bound once the bound exceeds the
    length of the range: [matched] never stops for want of it. *)
Lemma matched_fuel (f1 f2 alo ahi blo bhi : nat) :
  alo <= ahi -> ahi - alo < f1 -> ahi - alo < f2 ->
  Difflib.matched a b f1 alo ahi blo bhi = Difflib.matched a b f2 alo ahi blo bhi.
Proof.
  revert f2 alo ahi blo bhi.
  induction f1 as [|f1 IH]; intros f2 alo ahi blo bhi H H1 H2; [lia|].
  destruct f2 as [|f2]; [lia|]. cbn [Difflib.matched].
  pose proof (find_longest_match_within blo bhi H) as W.
  destruct (Difflib.find_longest_match a b alo ahi blo bhi) as [[i j] k].
  cbn [within] in W. destruct (k =? 0) eqn:Ek; [reflexivity|].
  apply Nat.eqb_neq in Ek.
  f_equal; [f_equal|].
  - destruct ((alo <? i) && (blo <? j)); [|reflexivity]. apply IH; lia.
  - destruct ((i + k <? ahi) && (j + k <? bhi)); [|reflexivity]. apply IH; lia.
Qed.

Lemma matches_any_fuel (fuel : nat) :
  List.length a < fuel ->
  Difflib.matched a b fuel 0 (List.length a) 0 (List.length b) = Difflib.matches a b.
Proof.
  intros H. unfold Difflib.matches. apply matched_fuel; lia.
Qed.

End MatchedFuel.

(* ================================================================== *)
(** ** Entity matcher: the three tiers *)
(* ================================================================== *)

Lemma Qgtb_true (x y : Q) : Qgtb x y = true <-> (y < x)%Q.
Proof.
  unfold Qgtb. rewrite negb_true_iff. split.
  - intros H. apply Qnot_le_lt. intros Hle. apply Qle_bool_iff in Hle. congruence.
  - intros H. destruct (Qle_bool x y) eqn:E; auto.
    apply Qle_bool_iff in E. exfalso. exact (Qlt_not_le _ _ H E).
Qed.

Lemma Qgtb_false (x y : Q) : Qgtb x y = false <-> (x <= y)%Q.
Proof.
  unfold Qgtb. rewrite negb_false_iff. apply Qle_bool_iff.
Qed.

Lemma Qle_bool_false (x y : Q) : Qle_bool x y = false <-> (y < x)%Q.
Proof.
  rewrite <- Qgtb_true. unfold Qgtb. rewrite negb_true_iff. reflexivity.
Qed.

Section Tiers.

Variable L : Type.

(** The row labelled [idx] is the first row of [rows] whose candidate has
    property [P]. *)
Definition first_row (P : text -> Prop) (rows : list (L * text)) (idx : L) : Prop :=
  exists pre c post,
    rows = pre ++ (idx, c) :: post /\ P c /\ forall l x, In (l, x) pre -> ~ P x.

Definition no_row (P : text -> Prop) (rows : list (L * text)) : Prop :=
  forall l x, In (l, x) rows -> ~ P x.

(** The tests the first two loops make on a candidate. *)
Definition exact_hit (t c : text) : Prop := c <> [] /\ c = t.

Definition substring_hit (t c : text) : Prop :=
  c <> [] /\ ((t <> [] /\ occurs t c) \/ occurs c t).

(** The row labelled [idx], with candidate [c], is the first of the rows
    with the highest ratio among the non-empty candidates. *)
Definition best_row (t : text) (rows : list (L * text)) (idx : L) (c : text) : Prop :=
  exists pre post,
    rows = pre ++ (idx, c) :: post /\ c <> []
    /\ (forall l x, In (l, x) pre -> x <> [] ->
          (Difflib.ratio t x < Difflib.ratio t c)%Q)
    /\ (forall l x, In (l, x) post -> x <> [] ->
          (Difflib.ratio t x <= Difflib.ratio t c)%Q).

(** A loop that returns the label of the first row passing [test]. *)
Fixpoint scan (test : text -> bool) (rows : list (L * text)) : option L :=
  match rows with
  | [] => None
  | (idx, c) :: rest => if test c then Some idx else scan test rest
  end.

Definition exact_test (t c : text) : bool := nonempty c && text_eqb c t.

Definition substring_test (t c : text) : bool :=
  nonempty c && ((nonempty t && contains t c) || contains c t).

Lemma exact_loop_scan (t : text) (rows : list (L * text)) :
  exact_loop t rows = scan (exact_test t) rows.
Proof.
  induction rows as [|[idx c] rest IH]; [reflexivity|].
  cbn [exact_loop scan]. rewrite IH. reflexivity.
Qed.

Lemma substring_loop_scan (t : text) (rows : list (L * text)) :
  substring_loop t rows = scan (substring_test t) rows.
Proof.
  induction rows as [|[idx c] rest IH]; [reflexivity|].
  cbn [substring_loop scan]. rewrite IH. unfold substring_test.
  destruct c as [|a c]; [reflexivity|].
  cbn [nonempty negb andb].
  destruct (nonempty t && contains t (a :: c)); [reflexivity|].
  cbn [orb].
  replace (text_eqb (a :: c) []) with false
    by (symmetry; apply text_eqb_neq; discriminate).
  cbn [negb]. rewrite andb_true_r. reflexivity.
Qed.

Lemma exact_test_spec (t c : text) : exact_test t c = true <-> exact_hit t c.
Proof.
  unfold exact_test, exact_hit.
  rewrite andb_true_iff, nonempty_true, text_eqb_eq. tauto.
Qed.

Lemma substring_test_spec (t c : text) :
  substring_test t c = true <-> substring_hit t c.
Proof.
  unfold substring_test, substring_hit.
  rewrite andb_true_iff, orb_true_iff, andb_true_iff, !nonempty_true, !contains_spec.
  tauto.
Qed.

Lemma scan_first (test : text -> bool) (P : text -> Prop) (rows : list (L * text)) (idx : L) :
  (forall c, test c = true <-> P c) ->
  first_row P rows idx -> scan test rows = Some idx.
Proof.
  intros HP [pre [c [post [-> [Hc Hpre]]]]].
  induction pre as [|[l x] pre IH]; cbn [app scan].
  - apply HP in Hc. rewrite Hc. reflexivity.
  - destruct (test x) eqn:E.
    + exfalso. apply (Hpre l x); [left; reflexivity | apply HP, E].
    + apply IH. intros l' x' Hin. apply (Hpre l' x'). right. exact Hin.
Qed.

Lemma scan_none (test : text -> bool) (P : text -> Prop) (rows : list (L * text)) :
  (forall c, test c = true <-> P c) ->
  no_row P rows -> scan test rows = None.
Proof.
  intros HP Hno. induction rows as [|[l x] rows IH]; [reflexivity|].
  cbn [scan]. destruct (test x) eqn:E.
  - exfalso. apply (Hno l x); [left; reflexivity | apply HP, E].
  - apply IH. intros l' x' Hin. apply (Hno l' x'). right. exact Hin.
Qed.

(** *** The fuzzy loop *)

Variable t : text.

Lemma fuzzy_loop_keep (rows : list (L * text)) (br : Q) (bi : option L) :
  (forall l x, In (l, x) rows -> x <> [] -> (Difflib.ratio t x <= br)%Q) ->
  fuzzy_loop t rows br bi = (br, bi).
Proof.
  induction rows as [|[l x] rows IH]; intros H; [reflexivity|].
  cbn [fuzzy_loop]. destruct x as [|a x].
  - cbn [nonempty negb]. apply IH. intros l' x' Hin. apply (H l' x'). right. exact Hin.
  - cbn [nonempty negb].
    assert (E : Qgtb (Difflib.ratio t (a :: x)) br = false).
    { apply Qgtb_false. apply (H l); [left; reflexivity | discriminate]. }
    rewrite E. apply IH. intros l' x' Hin. apply (H l' x'). right. exact Hin.
Qed.

Lemma fuzzy_loop_first_max (pre : list (L * text)) (idx : L) (c : text)
    (post : list (L * text)) (br : Q) (bi : option L) :
  c <> [] ->
  (br < Difflib.ratio t c)%Q ->
  (forall l x, In (l, x) pre -> x <> [] ->
     (Difflib.ratio t x < Difflib.ratio t c)%Q) ->
  (forall l x, In (l, x) post -> x <> [] ->
     (Difflib.ratio t x <= Difflib.ratio t c)%Q) ->
  fuzzy_loop t (pre ++ (idx, c) :: post) br bi = (Difflib.ratio t c, Some idx).
Proof.
  intros Hc Hbr Hpre Hpost. revert br bi Hbr.
  induction pre as [|[l x] pre IH]; intros br bi Hbr; cbn [app fuzzy_loop].
  - destruct c as [|a c]; [congruence|]. cbn [nonempty negb].
    apply Qgtb_true in Hbr. rewrite Hbr. apply fuzzy_loop_keep. exact Hpost.
  - assert (Hpre' : forall l' x', In (l', x') pre -> x' <> [] ->
                (Difflib.ratio t x' < Difflib.ratio t c)%Q).
    { intros l' x' Hin. apply (Hpre l' x'). right. exact Hin. }
    destruct x as [|a x]; cbn [nonempty negb].
    + apply IH; assumption.
    + destruct (Qgtb (Difflib.ratio t (a :: x)) br).
      * apply IH; [assumption|]. apply (Hpre l); [left; reflexivity | discriminate].
      * apply IH; assumption.
Qed.

Lemma fuzzy_loop_below (rows : list (L * text)) (br : Q) (bi : option L) (m : Q) :
  (br < m)%Q ->
  (forall l x, In (l, x) rows -> x <> [] -> (Difflib.ratio t x < m)%Q) ->
  (fst (fuzzy_loop t rows br bi) < m)%Q.
Proof.
  revert br bi. induction rows as [|[l x] rows IH]; intros br bi Hbr H; [exact Hbr|].
  assert (H' : forall l' x', In (l', x') rows -> x' <> [] ->
              (Difflib.ratio t x' < m)%Q).
  { intros l' x' Hin. apply (H l' x'). right. exact Hin. }
  cbn [fuzzy_loop]. destruct x as [|a x]; cbn [nonempty negb].
  - apply IH; assumption.
  - destruct (Qgtb (Difflib.ratio t (a :: x)) br).
    + apply IH; [|assumption]. apply (H l); [left; reflexivity | discriminate].
    + apply IH; assumption.
Qed.

End Tiers.

Section MatcherResults.

Variable L : Type.

Lemma find_reaches_fuzzy (s : series L) (plant_name : cell) (m : Q) :
  no_row (exact_hit (normalize_name plant_name)) (candidates s) ->
  no_row (substring_hit (normalize_name plant_name)) (candidates s) ->
  find_best_match_index s plant_name m =
  (let '(best_ratio, best_idx) :=
     fuzzy_loop (normalize_name plant_name) (candidates s) 0%Q None in
   if Qle_bool m best_ratio then best_idx else None).
Proof.
  intros He Hs. unfold find_best_match_index.
  destruct s as [|r s].
  - cbn. destruct (Qle_bool m 0); reflexivity.
  - rewrite exact_loop_scan, (@scan_none _ _ _ _ (@exact_test_spec _) He).
    rewrite substring_loop_scan, (@scan_none _ _ _ _ (@substring_test_spec _) Hs).
    reflexivity.
Qed.

Lemma find_exact (s : series L) (plant_name : cell) (m : Q) (idx : L) :
  first_row (exact_hit (normalize_name plant_name)) (candidates s) idx ->
  find_best_match_index s plant_name m = Some idx.
Proof.
  intros H. unfold find_best_match_index. destruct s as [|r s].
  - destruct H as [pre [c [post [E _]]]]. destruct pre; discriminate.
  - rewrite exact_loop_scan, (@scan_first _ _ _ _ _ (@exact_test_spec _) H). reflexivity.
Qed.

Lemma find_substring (s : series L) (plant_name : cell) (m : Q) (idx : L) :
  no_row (exact_hit (normalize_name plant_name)) (candidates s) ->
  first_row (substring_hit (normalize_name plant_name)) (candidates s) idx ->
  find_best_match_index s plant_name m = Some idx.
Proof.
  intros He H. unfold find_best_match_index. destruct s as [|r s].
  - destruct H as [pre [c [post [E _]]]]. destruct pre; discriminate.
  - rewrite exact_loop_scan, (@scan_none _ _ _ _ (@exact_test_spec _) He).
    rewrite substring_loop_scan, (@scan_first _ _ _ _ _ (@substring_test_spec _) H).
    reflexivity.
Qed.

Lemma find_fuzzy_best (s : series L) (plant_name : cell) (idx : L) (c : text) :
  no_row (exact_hit (normalize_name plant_name)) (candidates s) ->
  no_row (substring_hit (normalize_name plant_name)) (candidates s) ->
  best_row (normalize_name plant_name) (candidates s) idx c ->
  (default_min_ratio <= Difflib.ratio (normalize_name plant_name) c)%Q ->
  find_best_match_index s plant_name default_min_ratio = Some idx.
Proof.
  intros He Hs [pre [post [E [Hc [Hpre Hpost]]]]] Hm.
  rewrite find_reaches_fuzzy by assumption. rewrite E.
  rewrite (@fuzzy_loop_first_max L _ pre idx c post 0%Q None Hc); try assumption.
  - apply Qle_bool_iff in Hm. rewrite Hm. reflexivity.
  - eapply Qlt_le_trans; [|exact Hm]. reflexivity.
Qed.

Lemma find_fuzzy_none (s : series L) (plant_name : cell) :
  no_row (exact_hit (normalize_name plant_name)) (candidates s) ->
  no_row (substring_hit (normalize_name plant_name)) (candidates s) ->
  (forall l x, In (l, x) (candidates s) -> x <> [] ->
     (Difflib.ratio (normalize_name plant_name) x < default_min_ratio)%Q) ->
  find_best_match_index s plant_name default_min_ratio = None.
Proof.
  intros He Hs Hlow. rewrite find_reaches_fuzzy by assumption.
  pose proof (@fuzzy_loop_below L (normalize_name plant_name) (candidates s)
                0%Q None default_min_ratio) as B.
  destruct (fuzzy_loop (normalize_name plant_name) (candidates s) 0%Q None)
    as [b i].
  cbn [fst] in B. apply Qle_bool_false in B; [|reflexivity|exact Hlow].
  rewrite B. reflexivity.
Qed.

(** C1 (amended).  [find_best_match_index] applies three tiers in order.
    Exact: the first row whose normalized label is non-empty and equals the
    normalized target.  Substring: failing that, the first row whose
    normalized label is non-empty and either contains the non-empty
    normalized target or is contained in it.  Fuzzy: failing that, the first
    of the rows with the highest ratio among the non-empty normalized labels,
    returned when that ratio is at least 0.55; no match when it is below, or
    when no label is non-empty. *)
Theorem find_best_match_index_tiers (s : series L) (plant_name : cell) :
  let t := normalize_name plant_name in
  let rows := candidates s in
  let result := find_best_match_index s plant_name default_min_ratio in
  (forall idx, first_row (exact_hit t) rows idx -> result = Some idx)
  /\ (no_row (exact_hit t) rows ->
      forall idx, first_row (substring_hit t) rows idx -> result = Some idx)
  /\ (no_row (exact_hit t) rows -> no_row (substring_hit t) rows ->
      forall idx c, best_row t rows idx c ->
        ((default_min_ratio <= Difflib.ratio t c)%Q -> result = Some idx)
        /\ ((Difflib.ratio t c < default_min_ratio)%Q -> result = None))
  /\ (no_row (exact_hit t) rows -> no_row (substring_hit t) rows ->
      (forall l x, In (l, x) rows -> x = []) -> result = None).
Proof.
  cbv zeta. repeat split.
  - intros idx H. apply find_exact. exact H.
  - intros He idx H. apply find_substring; assumption.
  - intros Hm. eapply find_fuzzy_best; eassumption.
  - intros Hm. apply find_fuzzy_none; try assumption.
    destruct H1 as [pre [post [E [Hc [Hpre Hpost]]]]].
    intros l x Hin Hx. rewrite E in Hin. apply in_app_or in Hin.
    destruct Hin as [Hin | [Heq | Hin]].
    + eapply Qlt_trans; [apply (Hpre l x Hin Hx) | exact Hm].
    + injection Heq as _ <-. exact Hm.
    + eapply Qle_lt_trans; [apply (Hpost l x Hin Hx) | exact Hm].
  - intros He Hs Hall. apply find_fuzzy_none; try assumption.
    intros l x Hin Hx. exfalso. apply Hx. apply (Hall l x Hin).
Qed.

(** C9.  In the fuzzy tier ties go to the earliest row: when no row matches
    exactly or by substring and two rows attain the same ratio, at least
    0.55 and not exceeded by any row, the label returned is that of the
    lowest row attaining it. *)
Theorem fuzzy_tie_goes_to_earliest (s : series L) (plant_name : cell)
    (pre mid post : list (L * text)) (i j : L) (ci cj : text) :
  let t := normalize_name plant_name in
  candidates s = pre ++ (i, ci) :: mid ++ (j, cj) :: post ->
  no_row (exact_hit t) (candidates s) ->
  no_row (substring_hit t) (candidates s) ->
  ci <> [] -> cj <> [] ->
  (Difflib.ratio t ci == Difflib.ratio t cj)%Q ->
  (default_min_ratio <= Difflib.ratio t ci)%Q ->
  (forall l x, In (l, x) (pre ++ mid ++ post) -> x <> [] ->
     (Difflib.ratio t x <= Difflib.ratio t ci)%Q) ->
  (forall l x, In (l, x) pre -> x <> [] ->
     (Difflib.ratio t x < Difflib.ratio t ci)%Q) ->
  find_best_match_index s plant_name default_min_ratio = Some i.
Proof.
  intros t E He Hs Hci Hcj Heq Hm Hmax Hlow.
  apply (@find_fuzzy_best s plant_name i ci); try assumption.
  exists pre, (mid ++ (j, cj) :: post). repeat split; try assumption.
  intros l x Hin Hx. apply in_app_or in Hin. destruct Hin as [Hin | [Hj | Hin]].
  - apply (Hmax l x); [|exact Hx]. apply in_or_app. right. apply in_or_app. left. exact Hin.
  - injection Hj as _ <-. fold t. rewrite Heq. apply Qle_refl.
  - apply (Hmax l x); [|exact Hx]. apply in_or_app. right. apply in_or_app. right. exact Hin.
Qed.

Lemma ratio_empty_target (c : text) :
  c <> [] -> Difflib.ratio [] c = (0 # Pos.of_nat (List.length c))%Q.
Proof.
  destruct c as [|a c]; [congruence|]. intros _. reflexivity.
Qed.

(** C10.  A target that normalizes to the empty string matches no row,
    whatever the row labels are. *)
Theorem empty_target_no_match (s : series L) (plant_name : cell) :
  normalize_name plant_name = [] ->
  find_best_match_index s plant_name default_min_ratio = None.
Proof.
  intros Ht. apply find_fuzzy_none; rewrite Ht.
  - intros l x _ [Hx E]. congruence.
  - intros l x _ [Hx [[Hne _] | [pre [post E]]]]; [congruence|].
    symmetry in E. apply app_eq_nil in E. destruct E as [_ E].
    apply app_eq_nil in E. destruct E as [E _]. congruence.
  - intros l x _ Hx. rewrite ratio_empty_target by exact Hx. reflexivity.
Qed.

End MatcherResults.

(** *** Checks on given rows *)

Lemma no_row_check (L : Type) (test : text -> bool) (P : text -> Prop)
    (rows : list (L * text)) :
  (forall c, test c = true <-> P c) ->
  forallb (fun r => negb (test (snd r))) rows = true ->
  no_row P rows.
Proof.
  intros HP H l x Hin Hx. rewrite forallb_forall in H.
  specialize (H _ Hin). cbn [snd] in H. apply HP in Hx. rewrite Hx in H. discriminate.
Qed.

Lemma ratios_le_check (L : Type) (t c : text) (rows : list (L * text)) :
  forallb (fun r => Qle_bool (Difflib.ratio t (snd r)) (Difflib.ratio t c)) rows = true ->
  forall l x, In (l, x) rows -> x <> [] ->
    (Difflib.ratio t x <= Difflib.ratio t c)%Q.
Proof.
  intros H l x Hin _. rewrite forallb_forall in H.
  apply Qle_bool_iff. exact (H _ Hin).
Qed.

Lemma ratios_lt_check (L : Type) (t c : text) (rows : list (L * text)) :
  forallb (fun r => Qgtb (Difflib.ratio t c) (Difflib.ratio t (snd r))) rows = true ->
  forall l x, In (l, x) rows -> x <> [] ->
    (Difflib.ratio t x < Difflib.ratio t c)%Q.
Proof.
  intros H l x Hin _. rewrite forallb_forall in H.
  apply Qgtb_true. exact (H _ Hin).
Qed.

(** The tiers as the specification words them: no demand that the label,
    or the target, be non-empty. *)
Definition claimed_exact_hit (t c : text) : Prop := c = t.

Definition claimed_substring_hit (t c : text) : Prop :=
  occurs t c \/ (c <> [] /\ occurs c t).

(** C1, as the specification states it, fails: the target ["(Unit 1)"] normalizes to the
    empty string, which equals no label here and is a substring of the label
    of row 0, yet the function reports no match. *)
Lemma find_best_match_index_empty_target_counterexample :
  let s := range_series [Str (T "Panipat TPS")] in
  let t := normalize_name (Str (T "(Unit 1)")) in
  no_row (claimed_exact_hit t) (candidates s)
  /\ first_row (claimed_substring_hit t) (candidates s) 0
  /\ find_best_match_index s (Str (T "(Unit 1)")) default_min_ratio = None.
Proof.
  cbv zeta. split; [|split].
  - intros l x [H | []] E. injection H as _ <-. discriminate E.
  - exists [], (T "panipat tps"), []. split; [reflexivity|]. split.
    + left. exists [], (T "panipat tps"). reflexivity.
    + intros l x [].
  - reflexivity.
Qed.

(** For a target whose normalized form is non-empty the tiers as worded
    and the tests of the code agree; every registry name is such a
    target. *)
Lemma claimed_tiers_agree (t c : text) :
  t <> [] ->
  (claimed_exact_hit t c <-> exact_hit t c)
  /\ (claimed_substring_hit t c <-> substring_hit t c).
Proof.
  intros Ht. unfold claimed_exact_hit, exact_hit, claimed_substring_hit, substring_hit.
  split.
  - split; [intros ->; auto | tauto].
  - split.
    + intros [Ho | [Hc Ho]]; [|tauto]. split; [|auto].
      destruct Ho as [pre [post ->]]. destruct t; [congruence|].
      destruct pre; discriminate.
    + tauto.
Qed.

Lemma registry_names_normalize_nonempty :
  forallb (fun k => nonempty (normalize_name (Str k))) allowed_plants = true.
Proof. vm_compute. reflexivity. Qed.

(** The three tiers at work on given rows. *)
Lemma find_best_match_index_tiers_witness :
  find_best_match_index
    (range_series [Str (T "Panipat TPS Unit 1"); Str (T "Panipat TPS")])
    (Str (T "PANIPAT TPS")) default_min_ratio = Some 1
  /\ find_best_match_index
       (range_series [NaN; Str (T "Total"); Str (T "Anpara TPS (UPRVUNL) Unit 7")])
       (Str (T "ANPARA TPS")) default_min_ratio = Some 2
  /\ find_best_match_index
       (range_series [Str (T "Total"); Str (T "Anpara C TPS"); Str (T "Anpara D TPS")])
       (Str (T "ANPARA TPS")) default_min_ratio = Some 1
  /\ find_best_match_index
       (range_series [Str (T "Total"); Str (T "Grand total")])
       (Str (T "ANPARA TPS")) default_min_ratio = None.
Proof.
  split; [|split; [|split]].
  - apply (proj1 (find_best_match_index_tiers
                    (range_series [Str (T "Panipat TPS Unit 1"); Str (T "Panipat TPS")])
                    (Str (T "PANIPAT TPS")))).
    exists [(0, T "panipat tps unit 1")], (T "panipat tps"), [].
    split; [reflexivity|]. split; [split; [discriminate | reflexivity]|].
    intros l x [H | []] [_ E]. injection H as _ <-. discriminate E.
  - apply (proj1 (proj2 (find_best_match_index_tiers
                    (range_series [NaN; Str (T "Total");
                                   Str (T "Anpara TPS (UPRVUNL) Unit 7")])
                    (Str (T "ANPARA TPS"))))).
    + apply (@no_row_check _ _ _ _ (@exact_test_spec _)). reflexivity.
    + exists [(0, []); (1, T "total")], (T "anpara tps unit 7"), [].
      split; [reflexivity|]. split.
      * apply substring_test_spec. reflexivity.
      * apply (@no_row_check _ _ _ _ (@substring_test_spec _)). reflexivity.
  - refine (proj1 (proj1 (proj2 (proj2 (find_best_match_index_tiers
                    (range_series [Str (T "Total"); Str (T "Anpara C TPS");
                                   Str (T "Anpara D TPS")])
                    (Str (T "ANPARA TPS"))))) _ _ 1 (T "anpara c tps") _) _).
    + apply (@no_row_check _ _ _ _ (@exact_test_spec _)). reflexivity.
    + apply (@no_row_check _ _ _ _ (@substring_test_spec _)). reflexivity.
    + exists [(0, T "total")], [(2, T "anpara d tps")].
      split; [reflexivity|]. split; [discriminate|]. split.
      * apply ratios_lt_check. vm_compute. reflexivity.
      * apply ratios_le_check. vm_compute. reflexivity.
    + apply Qle_bool_iff. vm_compute. reflexivity.
  - refine (proj2 (proj1 (proj2 (proj2 (find_best_match_index_tiers
                    (range_series [Str (T "Total"); Str (T "Grand total")])
                    (Str (T "ANPARA TPS"))))) _ _ 1 (T "grand total") _) _).
    + apply (@no_row_check _ _ _ _ (@exact_test_spec _)). reflexivity.
    + apply (@no_row_check _ _ _ _ (@substring_test_spec _)). reflexivity.
    + exists [(0, T "total")], [].
      split; [reflexivity|]. split; [discriminate|]. split.
      * apply ratios_lt_check. vm_compute. reflexivity.
      * intros l x [].
    + apply Qgtb_true. vm_compute. reflexivity.
Defined.

Lemma fuzzy_tie_goes_to_earliest_witness :
  find_best_match_index
    (range_series [Str (T "Total"); Str (T "Korba East TPS"); Str (T "Korba West TPS")])
    (Str (T "KORBA TPS")) default_min_ratio = Some 1.
Proof.
  apply (@fuzzy_tie_goes_to_earliest nat
           (range_series [Str (T "Total"); Str (T "Korba East TPS");
                          Str (T "Korba West TPS")])
           (Str (T "KORBA TPS"))
           [(0, T "total")] [] [] 1 2 (T "korba east tps") (T "korba west tps")).
  - reflexivity.
  - apply (@no_row_check _ _ _ _ (@exact_test_spec _)). reflexivity.
  - apply (@no_row_check _ _ _ _ (@substring_test_spec _)). reflexivity.
  - discriminate.
  - discriminate.
  - vm_compute. reflexivity.
  - apply Qle_bool_iff. vm_compute. reflexivity.
  - apply ratios_le_check. vm_compute. reflexivity.
  - apply ratios_lt_check. vm_compute. reflexivity.
Defined.

Lemma empty_target_no_match_witness :
  normalize_name (Str (T "(Unit 1)")) = []
  /\ find_best_match_index
       (range_series [Str (T "Panipat TPS"); NaN; Str (T "---")])
       (Str (T "(Unit 1)")) default_min_ratio = None.
Proof.
  split; [reflexivity|].
  apply (@empty_target_no_match nat). reflexivity.
Defined.

(* ================================================================== *)
(** ** Date extractor: outcomes *)
(* ================================================================== *)

(** [top.iloc[r, 0]] where row [r] exists. *)
Definition cell_at (top : frame) (r : nat) : cell :=
  fst (nth r (rows top) (NaN, [])).

(** The candidate cells of a sheet: the privileged cell when its row
    exists, then column A of the first ten rows. *)
Definition candidate_cells (privileged : nat) (top : frame) : list cell :=
  (if privileged <? List.length (rows top) then [cell_at top privileged] else [])
  ++ map (cell_at top) (seq 0 (Nat.min 10 (List.length (rows top)))).

(** The candidate cells joined, as the extractor first searches them. *)
Definition combined_text (cells : list cell) : text :=
  join_space (map str_of (filter (fun x => negb (isna x)) cells)).

Lemma iloc0_in_range (top : frame) (r : nat) :
  r < List.length (rows top) -> iloc0 top r = Ok (cell_at top r).
Proof.
  intros H. unfold iloc0, cell_at.
  destruct (nth_error (rows top) r) as [[c rest]|] eqn:E.
  - rewrite (nth_error_nth _ _ _ E). reflexivity.
  - apply nth_error_None in E. lia.
Qed.

Lemma iloc0_each_in_range (top : frame) (rs : list nat) :
  (forall r, In r rs -> r < List.length (rows top)) ->
  iloc0_each top rs = Ok (map (cell_at top) rs).
Proof.
  induction rs as [|r rs IH]; intros H; [reflexivity|].
  cbn [iloc0_each map]. rewrite iloc0_in_range by (apply H; left; reflexivity).
  cbn [bind]. rewrite IH by (intros; apply H; right; assumption). reflexivity.
Qed.

(** Once the sheet is read, no access to it fails: the guard on
    [top.shape[0]] keeps every row index in range. *)
Lemma get_date_from_read (privileged : nat) (f : file) (top : frame)
    (fallback_month : text) (fallback_year : Z) :
  read_excel f None (Some 10) = Ok top ->
  get_date_from privileged f fallback_month fallback_year =
  (parsed <- parse_date_string_to_date
               (combined_text (candidate_cells privileged top)) ;;
   match parsed with
   | PDate d => Ok (PDate d)
   | _ =>
       found <- cells_loop (candidate_cells privileged top) ;;
       match found with
       | Some p => Ok p
       | None => date_from_name f fallback_month fallback_year
       end
   end).
Proof.
  intros E. unfold get_date_from, candidate_cells, combined_text. rewrite E.
  rewrite iloc0_each_in_range.
  2:{ intros r Hr. apply in_seq in Hr. lia. }
  destruct (privileged <? List.length (rows top)) eqn:Hp.
  - apply Nat.ltb_lt in Hp. rewrite iloc0_in_range by exact Hp. reflexivity.
  - reflexivity.
Qed.

Lemma get_date_from_unreadable (privileged : nat) (f : file) (e : exn)
    (fallback_month : text) (fallback_year : Z) :
  read_excel f None (Some 10) = Raise e ->
  get_date_from privileged f fallback_month fallback_year = Ok PNone.
Proof.
  intros E. unfold get_date_from. rewrite E. reflexivity.
Qed.

(** A workbook no read of which succeeds, though its name holds a date. *)
Definition unreadable_file : file :=
  {| name := T "Coal 05-06-2024.xlsx"; read_excel := fun _ _ => Raise IOError |}.

Example unreadable_file_no_date :
  get_date_from_generation_file unreadable_file (T "June") 2024 = Ok PNone
  /\ get_date_from_coal_file unreadable_file (T "June") 2024 = Ok PNone.
Proof.
  split; apply (@get_date_from_unreadable _ unreadable_file IOError); reflexivity.
Qed.

(** *** A DAY token of many digits *)

(** The word DAY, a space, and the digit 1 written [k] times. *)
Definition day_ones (k : nat) : text := T "DAY " ++ repeat "1"%char k.

Lemma rstrip_cons (c : ascii) (s : text) :
  rstrip s <> [] -> rstrip (c :: s) = c :: rstrip s.
Proof.
  intros H. cbn [rstrip]. destruct (rstrip s); [contradiction | reflexivity].
Qed.

Lemma rstrip_chars_cons (chars : text) (c : ascii) (s : text) :
  rstrip_chars chars s <> [] ->
  rstrip_chars chars (c :: s) = c :: rstrip_chars chars s.
Proof.
  intros H. cbn [rstrip_chars]. destruct (rstrip_chars chars s); [contradiction | reflexivity].
Qed.

Lemma rstrip_after (pre s : text) :
  rstrip s = s -> s <> [] -> rstrip (pre ++ s) = pre ++ s.
Proof.
  intros E N. induction pre as [|c pre IH]; [exact E|].
  cbn [app]. rewrite rstrip_cons; rewrite IH; [reflexivity|].
  destruct pre; [exact N | discriminate].
Qed.

Lemma rstrip_chars_after (chars pre s : text) :
  rstrip_chars chars s = s -> s <> [] -> rstrip_chars chars (pre ++ s) = pre ++ s.
Proof.
  intros E N. induction pre as [|c pre IH]; [exact E|].
  cbn [app]. rewrite rstrip_chars_cons; rewrite IH; [reflexivity|].
  destruct pre; [exact N | discriminate].
Qed.

Lemma rstrip_ones (k : nat) :
  rstrip (repeat "1"%char (S k)) = repeat "1"%char (S k).
Proof.
  induction k as [|k IH]; [reflexivity|].
  apply (rstrip_after ["1"%char] IH). discriminate.
Qed.

Lemma rstrip_chars_ones (k : nat) :
  rstrip_chars (T "() ") (repeat "1"%char (S k)) = repeat "1"%char (S k).
Proof.
  induction k as [|k IH]; [reflexivity|].
  apply (rstrip_chars_after (T "() ") ["1"%char] IH). discriminate.
Qed.

Lemma strip_day_ones (k : nat) : strip (day_ones (S k)) = day_ones (S k).
Proof.
  unfold strip, day_ones.
  change (lstrip (T "DAY " ++ repeat "1"%char (S k)))
    with (T "DAY " ++ repeat "1"%char (S k)).
  apply rstrip_after; [apply rstrip_ones | discriminate].
Qed.

Lemma strip_chars_day_ones (k : nat) :
  strip_chars (T "() ") (day_ones (S k)) = day_ones (S k).
Proof.
  unfold strip_chars, day_ones.
  change (lstrip_chars (T "() ") (T "DAY " ++ repeat "1"%char (S k)))
    with (T "DAY " ++ repeat "1"%char (S k)).
  apply rstrip_chars_after; [apply rstrip_chars_ones | discriminate].
Qed.

Lemma remove_dots_ones (k : nat) :
  replace (T ".") [] (day_ones k) = day_ones k.
Proof.
  unfold replace, day_ones.
  assert (R : replace_from (T ".") [] (repeat "1"%char k) 0 = repeat "1"%char k).
  { induction k as [|k IH]; [reflexivity|].
    cbn [repeat replace_from]. change (prefixb (T ".") ("1"%char :: repeat "1"%char k))
      with false. cbv iota. rewrite IH. reflexivity. }
  change (T "DAY " ++ repeat "1"%char k)
    with ("D"%char :: "A"%char :: "Y"%char :: " "%char :: repeat "1"%char k).
  cbn [replace_from].
  change (prefixb (T ".") ("D"%char :: "A"%char :: "Y"%char :: " "%char :: repeat "1"%char k))
    with false.
  change (prefixb (T ".") ("A"%char :: "Y"%char :: " "%char :: repeat "1"%char k))
    with false.
  change (prefixb (T ".") ("Y"%char :: " "%char :: repeat "1"%char k)) with false.
  change (prefixb (T ".") (" "%char :: repeat "1"%char k)) with false.
  cbv iota. rewrite R. reflexivity.
Qed.

Lemma upper_day_ones (k : nat) : upper (day_ones k) = day_ones k.
Proof.
  unfold upper, day_ones. rewrite map_app, map_repeat. reflexivity.
Qed.

(** No date pattern matches at a position of a run of the digit 1. *)
Lemma no_date_at_ones (pat : Re.pattern) (prev : option ascii) (k : nat) :
  In pat date_patterns -> Re.match_items pat prev (repeat "1"%char k) = None.
Proof.
  intros H.
  do 5 (destruct k as [|k];
        [cbn in H; repeat (destruct H as [<- | H]; [vm_compute; reflexivity|]);
         destruct H|]).
  cbn in H. repeat (destruct H as [<- | H]; [vm_compute; reflexivity|]). destruct H.
Qed.

Lemma no_date_in_ones (pat : Re.pattern) (prev : option ascii) (k pos : nat) :
  In pat date_patterns -> Re.search_from pat prev (repeat "1"%char k) pos = None.
Proof.
  intros H. revert prev pos. induction k as [|k IH]; intros prev pos.
  - pose proof (no_date_at_ones prev 0 H) as E. cbn [repeat] in *.
    cbn [Re.search_from]. rewrite E. reflexivity.
  - pose proof (no_date_at_ones prev (S k) H) as E. cbn [repeat] in *.
    cbn [Re.search_from]. rewrite E. apply IH.
Qed.

Lemma search_from_step (pat : Re.pattern) (prev : option ascii) (c : ascii) (s : text)
    (pos : nat) :
  Re.match_items pat prev (c :: s) = None ->
  Re.search_from pat prev (c :: s) pos = Re.search_from pat (Some c) s (S pos).
Proof.
  intros H. cbn [Re.search_from]. rewrite H. reflexivity.
Qed.

Lemma no_date_in_day_ones (pat : Re.pattern) (k : nat) :
  In pat date_patterns -> Re.search pat (day_ones (5 + k)) = None.
Proof.
  intros H. unfold Re.search, day_ones.
  change (T "DAY " ++ repeat "1"%char (5 + k))
    with ("D"%char :: "A"%char :: "Y"%char :: " "%char :: repeat "1"%char (5 + k)).
  rewrite !search_from_step.
  - apply no_date_in_ones. exact H.
  - cbn in H. repeat (destruct H as [<- | H]; [vm_compute; reflexivity|]). destruct H.
  - cbn in H. repeat (destruct H as [<- | H]; [vm_compute; reflexivity|]). destruct H.
  - cbn in H. repeat (destruct H as [<- | H]; [vm_compute; reflexivity|]). destruct H.
  - cbn in H. repeat (destruct H as [<- | H]; [vm_compute; reflexivity|]). destruct H.
Qed.

Lemma patterns_loop_day_ones (k : nat) :
  patterns_loop date_patterns (day_ones (5 + k)) = None.
Proof.
  assert (G : forall pats, (forall pat, In pat pats -> In pat date_patterns) ->
                patterns_loop pats (day_ones (5 + k)) = None).
  { induction pats as [|pat pats IH]; intros Hin; [reflexivity|].
    cbn [patterns_loop]. rewrite no_date_in_day_ones by (apply Hin; left; reflexivity).
    apply IH. intros p Hp. apply Hin. right. exact Hp. }
  apply G. auto.
Qed.

Lemma run_length_ones (k : nat) : Re.run_length is_digit (repeat "1"%char k) = k.
Proof.
  induction k as [|k IH]; [reflexivity|].
  cbn [repeat Re.run_length]. change (is_digit "1"%char) with true. cbv iota.
  rewrite IH. reflexivity.
Qed.

Lemma day_match (digits : text) :
  Re.match_items pat_day None
    ("D"%char :: "A"%char :: "Y"%char :: " "%char :: "1"%char :: digits)
  = Some [1; 1; 1; 1; S (Re.run_length is_digit digits)].
Proof.
  vm_compute. reflexivity.
Qed.

Lemma day_token_day_ones (k : nat) :
  day_token (day_ones (S k))
  = (n <- py_int (repeat "1"%char (S k)) ;; Ok (Some n)).
Proof.
  unfold day_token, Re.search, day_ones.
  change (T "DAY " ++ repeat "1"%char (S k))
    with ("D"%char :: "A"%char :: "Y"%char :: " "%char :: "1"%char :: repeat "1"%char k).
  cbn [Re.search_from]. rewrite day_match, run_length_ones.
  unfold Re.part. cbn [Re.start Re.taken nth firstn Re.total fold_right Nat.add skipn].
  rewrite firstn_all2 by (rewrite repeat_length; lia). reflexivity.
Qed.

(** What the parser makes of DAY and a run of five digits or more: the
    value of [int] on the run. *)
Lemma parse_day_ones (k : nat) :
  parse_date_string_to_date (day_ones (5 + k))
  = (n <- py_int (repeat "1"%char (5 + k)) ;; Ok (PInt n)).
Proof.
  unfold parse_date_string_to_date.
  change (negb (nonempty (day_ones (5 + k)))) with false. cbv iota zeta.
  change (5 + k) with (S (4 + k)).
  rewrite strip_day_ones, strip_chars_day_ones, remove_dots_ones, upper_day_ones.
  change (S (4 + k)) with (5 + k) at 1. rewrite patterns_loop_day_ones.
  rewrite day_token_day_ones.
  destruct (py_int (repeat "1"%char (S (4 + k)))); reflexivity.
Qed.

Lemma parse_long_day_ones (k : nat) :
  int_max_str_digits < k ->
  parse_date_string_to_date (day_ones k) = Raise ValueError.
Proof.
  intros H.
  assert (L : 5 <= k).
  { assert (5 <= int_max_str_digits) by (apply Nat.leb_le; vm_compute; reflexivity). lia. }
  replace k with (5 + (k - 5)) by lia. rewrite parse_day_ones.
  unfold py_int. rewrite repeat_length.
  replace (5 + (k - 5)) with k by lia. apply Nat.ltb_lt in H. rewrite H. reflexivity.
Qed.

Lemma parse_short_day_ones (k : nat) :
  5 <= k -> k <= int_max_str_digits ->
  parse_date_string_to_date (day_ones k)
  = Ok (PInt (int_of_digits (repeat "1"%char k))).
Proof.
  intros L H. replace k with (5 + (k - 5)) by lia. rewrite parse_day_ones.
  unfold py_int. rewrite repeat_length.
  replace (5 + (k - 5)) with k by lia. apply Nat.ltb_ge in H. rewrite H. reflexivity.
Qed.

(** A workbook with an ordinary name whose sheet has one row, its cell A1
    holding the word DAY and a number of 4301 digits. *)
Definition long_day_sheet : frame :=
  {| columns := [T "0"; T "1"]; rows := [(Str (day_ones 4301), [NaN])] |}.

Definition long_day_file : file :=
  {| name := T "Gen 07.xlsx"; read_excel := fun _ _ => Ok long_day_sheet |}.

Lemma long_day_file_raises (privileged : nat) :
  get_date_from (S privileged) long_day_file (T "June") 2024 = Raise ValueError.
Proof.
  rewrite (@get_date_from_read (S privileged) long_day_file long_day_sheet _ _ eq_refl).
  change (combined_text (candidate_cells (S privileged) long_day_sheet))
    with (day_ones 4301).
  rewrite parse_long_day_ones; [reflexivity|].
  apply Nat.ltb_lt. vm_compute. reflexivity.
Qed.

(** C7.  Date extraction does raise: on a readable workbook whose cell A1
    holds a DAY token of 4301 digits, both extractors leave with the
    [ValueError] of [int], which no [try] encloses, and the run that
    called them ends with it; with one digit less the parser gives a day
    number. *)
Theorem long_day_token_raises :
  get_date_from_generation_file long_day_file (T "June") 2024 = Raise ValueError
  /\ get_date_from_coal_file long_day_file (T "June") 2024 = Raise ValueError
  /\ generate_final_dataset (T "June") 2024 (fun _ _ => Ok []) (fun _ _ => Ok [])
       [T "PANIPAT TPS"] [] [long_day_file] [] = Raise ValueError
  /\ parse_date_string_to_date (day_ones 4300)
     = Ok (PInt (int_of_digits (repeat "1"%char 4300))).
Proof.
  split; [exact (long_day_file_raises 0)|].
  split; [exact (long_day_file_raises 1)|]. split.
  - unfold generate_final_dataset, rows_of. cbn [for_each]. unfold generation_row.
    rewrite (long_day_file_raises 0 : get_date_from_generation_file _ _ _ = _).
    reflexivity.
  - apply parse_short_day_ones.
    + apply Nat.leb_le. vm_compute. reflexivity.
    + apply Nat.leb_le. vm_compute. reflexivity.
Qed.

(** *** The day number in the display name *)

(** Neither the cells joined nor any cell alone holds a date or a DAY
    token. *)
Definition no_date_in (cells : list cell) : Prop :=
  parse_date_string_to_date (combined_text cells) = Ok PNone
  /\ forall c, In c cells -> parse_date_string_to_date (str_of c) = Ok PNone.

Lemma cells_loop_none (cells : list cell) :
  (forall c, In c cells -> parse_date_string_to_date (str_of c) = Ok PNone) ->
  cells_loop cells = Ok None.
Proof.
  induction cells as [|c cells IH]; intros H; [reflexivity|].
  cbn [cells_loop]. rewrite (H c) by (left; reflexivity). cbn [bind].
  apply IH. intros; apply H; right; assumption.
Qed.

Lemma get_date_from_name_only (privileged : nat) (f : file) (top : frame)
    (fallback_month : text) (fallback_year : Z) :
  read_excel f None (Some 10) = Ok top ->
  no_date_in (candidate_cells privileged top) ->
  get_date_from privileged f fallback_month fallback_year =
  date_from_name f fallback_month fallback_year.
Proof.
  intros E [Hc Hcells]. rewrite (get_date_from_read _ _ _ _ E), Hc. cbn [bind].
  rewrite (cells_loop_none _ Hcells). reflexivity.
Qed.

(** C5 (amended).  For a readable generation file with no date and no DAY
    token in its candidate cells, fallback month "June" and fallback year
    2024: the display name "Gen 07.xlsx" gives the date 2024-06-07, and the
    display name "Gen_07.xlsx" gives no date, the underscore being a word
    character so that 07 does not stand alone. *)
Theorem day_number_in_display_name (f : file) (top : frame) :
  read_excel f None (Some 10) = Ok top ->
  no_date_in (candidate_cells 1 top) ->
  (name f = T "Gen 07.xlsx" ->
     get_date_from_generation_file f (T "June") 2024 = Ok (PDate (mkdate 2024 6 7)))
  /\ (name f = T "Gen_07.xlsx" ->
     get_date_from_generation_file f (T "June") 2024 = Ok PNone).
Proof.
  intros E H. unfold get_date_from_generation_file.
  rewrite (get_date_from_name_only _ _ _ _ E H).
  split; intros Hn; unfold date_from_name; rewrite Hn; reflexivity.
Qed.

(** A generation sheet with a title and plant rows, and no date. *)
Definition undated_sheet : frame :=
  {| columns := [T "0"; T "1"];
     rows := [(Str (T "Daily Generation Report"), [NaN]);
              (NaN, [NaN]);
              (Str (T "Station"), [Str (T "Today's Actual")]);
              (Str (T "PANIPAT TPS"), [Str (T "12.5")])] |}.

Definition gen_underscore_07 : file :=
  {| name := T "Gen_07.xlsx"; read_excel := fun _ _ => Ok undated_sheet |}.

Definition gen_space_07 : file :=
  {| name := T "Gen 07.xlsx"; read_excel := fun _ _ => Ok undated_sheet |}.

Lemma undated_sheet_no_date : no_date_in (candidate_cells 1 undated_sheet).
Proof.
  split; [reflexivity|].
  intros c Hc. cbn in Hc.
  repeat (destruct Hc as [<- | Hc]; [reflexivity|]). destruct Hc.
Qed.

(** C5, as the specification states it, fails: the file named "Gen_07.xlsx", with no
    date in its cells, yields no date. *)
Lemma gen_07_counterexample :
  no_date_in (candidate_cells 1 undated_sheet)
  /\ get_date_from_generation_file gen_underscore_07 (T "June") 2024 = Ok PNone.
Proof.
  split; [exact undated_sheet_no_date | reflexivity].
Qed.

Lemma day_number_in_display_name_witness :
  get_date_from_generation_file gen_space_07 (T "June") 2024
    = Ok (PDate (mkdate 2024 6 7))
  /\ get_date_from_generation_file gen_underscore_07 (T "June") 2024 = Ok PNone.
Proof.
  split.
  - apply (proj1 (@day_number_in_display_name gen_space_07 undated_sheet
                    eq_refl undated_sheet_no_date)).
    reflexivity.
  - apply (proj2 (@day_number_in_display_name gen_underscore_07 undated_sheet
                    eq_refl undated_sheet_no_date)).
    reflexivity.
Defined.

(* ================================================================== *)
(** ** The load of a generation file *)
(* ================================================================== *)

(** C6 (amended).  The generation loop reads the file with header row 3;
    if that read raises, it reads once more with header row 0 (the first
    row taken as header) and the outcome of that read, value or exception,
    is the outcome of the load; otherwise no second read is made. *)
Theorem load_generation_frame_reads (f : file) :
  (forall df, read_excel f (Some 3) None = Ok df ->
     load_generation_frame f = (Ok df, [ReadExcel (name f) (Some 3) None]))
  /\ (forall e, read_excel f (Some 3) None = Raise e ->
        load_generation_frame f =
        (read_excel f (Some 0) None,
         [ReadExcel (name f) (Some 3) None; ReadExcel (name f) (Some 0) None])).
Proof.
  unfold load_generation_frame, read_excel_auto.
  split; intros x E; rewrite E; reflexivity.
Qed.

(** A workbook with fewer than four rows: the read with header row 3
    raises; the one with header row 0 takes "Station" and "Actual" as
    column names, the one without header keeps them as the first row. *)
Definition short_workbook : file :=
  {| name := T "Gen 07.xlsx";
     read_excel := fun header _ =>
       match header with
       | None =>
           Ok {| columns := [T "0"; T "1"];
                 rows := [(Str (T "Station"), [Str (T "Actual")]);
                          (Str (T "PANIPAT TPS"), [Str (T "12.5")])] |}
       | Some 0 =>
           Ok {| columns := [T "Station"; T "Actual"];
                 rows := [(Str (T "PANIPAT TPS"), [Str (T "12.5")])] |}
       | Some _ => Raise ValueError
       end |}.

(** C6, as the specification states it, fails: after the read with header row 3 has
    raised, the second read asks for header row 0, not for no header, and
    the frame loaded is the one with the first row as column names. *)
Lemma load_generation_frame_fallback_counterexample :
  read_excel short_workbook (Some 3) None = Raise ValueError
  /\ snd (load_generation_frame short_workbook) =
       [ReadExcel (T "Gen 07.xlsx") (Some 3) None;
        ReadExcel (T "Gen 07.xlsx") (Some 0) None]
  /\ fst (load_generation_frame short_workbook) =
       read_excel short_workbook (Some 0) None
  /\ (fst (load_generation_frame short_workbook) =
        read_excel short_workbook None None -> False).
Proof.
  repeat split. intros H. discriminate H.
Qed.

Lemma load_generation_frame_reads_witness :
  load_generation_frame short_workbook =
  (read_excel short_workbook (Some 0) None,
   [ReadExcel (T "Gen 07.xlsx") (Some 3) None;
    ReadExcel (T "Gen 07.xlsx") (Some 0) None]).
Proof.
  apply (proj2 (load_generation_frame_reads short_workbook) ValueError).
  reflexivity.
Defined.

(* ================================================================== *)
(** ** Registry filter and merge *)
(* ================================================================== *)

Lemma isin_spec (x : text) (s : list text) : isin x s = true <-> In x s.
Proof.
  unfold isin. rewrite existsb_exists. split.
  - intros [y [Hy E]]. apply text_eqb_eq in E. subst. exact Hy.
  - intros H. exists x. split; [exact H | apply text_eqb_refl].
Qed.

Lemma registry_filter_in (df : list table_row) (r : table_row) :
  In r (registry_filter df) <-> In r df /\ In (Thermal_Plant r) allowed_plants.
Proof.
  unfold registry_filter. destruct df as [|r0 df].
  - simpl. tauto.
  - rewrite filter_In, isin_spec. reflexivity.
Qed.

Lemma same_key_spec (g c : table_row) :
  same_key g c = true <-> Date g = Date c /\ Thermal_Plant g = Thermal_Plant c.
Proof.
  unfold same_key. rewrite andb_true_iff, !text_eqb_eq. reflexivity.
Qed.

(** The rows one generation row contributes to the merge. *)
Definition joined (coal : list table_row) (g : table_row) : list merged_row :=
  match filter (same_key g) coal with
  | [] => [with_coal g NaN]
  | hits => map (fun c => with_coal g (Str (Metric c))) hits
  end.

Lemma merged_flat_map (gen coal : list table_row) :
  merged gen coal = flat_map (joined coal) gen.
Proof.
  destruct gen; reflexivity.
Qed.

Lemma joined_in (coal : list table_row) (g : table_row) (m : merged_row) :
  In m (joined coal g) <->
  (exists c, In c coal /\ same_key g c = true /\ m = with_coal g (Str (Metric c)))
  \/ ((forall c, In c coal -> same_key g c = false) /\ m = with_coal g NaN).
Proof.
  unfold joined. destruct (filter (same_key g) coal) as [|h hits] eqn:E.
  - assert (Hnone : forall c, In c coal -> same_key g c = false).
    { intros c Hc. destruct (same_key g c) eqn:K; auto.
      assert (Hin : In c (filter (same_key g) coal)) by (apply filter_In; auto).
      rewrite E in Hin. destruct Hin. }
    split.
    + intros [<- | []]. right. auto.
    + intros [[c [Hc [K _]]] | [_ ->]]; [|left; reflexivity].
      rewrite (Hnone c Hc) in K. discriminate.
  - rewrite <- E. rewrite in_map_iff. split.
    + intros [c [<- Hc]]. apply filter_In in Hc. left. exists c. tauto.
    + intros [[c [Hc [K ->]]] | [Hnone _]].
      * exists c. split; [reflexivity | apply filter_In; auto].
      * exfalso. assert (Hin : In h (filter (same_key g) coal))
          by (rewrite E; left; reflexivity).
        apply filter_In in Hin. destruct Hin as [Hh K].
        rewrite (Hnone h Hh) in K. discriminate.
Qed.

Lemma merged_in (gen coal : list table_row) (m : merged_row) :
  In m (merged gen coal) <->
  exists g, In g gen /\
    ((exists c, In c coal /\ same_key g c = true /\ m = with_coal g (Str (Metric c)))
     \/ ((forall c, In c coal -> same_key g c = false) /\ m = with_coal g NaN)).
Proof.
  rewrite merged_flat_map, in_flat_map. split.
  - intros [g [Hg Hm]]. exists g. split; [exact Hg | apply joined_in, Hm].
  - intros [g [Hg Hm]]. exists g. split; [exact Hg | apply joined_in, Hm].
Qed.

Lemma merged_plant (gen coal : list table_row) (m : merged_row) :
  In m (merged gen coal) ->
  exists g, In g gen /\ m_Thermal_Plant m = Thermal_Plant g.
Proof.
  intros H. apply merged_in in H. destruct H as [g [Hg H]]. exists g. split; auto.
  destruct H as [[c [_ [_ ->]]] | [_ ->]]; reflexivity.
Qed.

(** What [present] shows and writes names registry plants only. *)
Lemma present_within_registry (gen_data coal_data : list data_row) :
  (forall r, In r (table1 (present gen_data coal_data)) ->
     In (Thermal_Plant r) (map fst plant_info))
  /\ (forall r, In r (table2 (present gen_data coal_data)) ->
     In (Thermal_Plant r) (map fst plant_info))
  /\ (forall r, In r (merged_table (present gen_data coal_data)) ->
     In (m_Thermal_Plant r) (map fst plant_info))
  /\ (forall r, In r (export (present gen_data coal_data)) ->
     In (x_Thermal_Plant r) (map fst plant_info)).
Proof.
  unfold present. cbn [table1 table2 merged_table export].
  assert (Hm : forall r,
             In r (merged (registry_filter (result_table gen_data))
                          (registry_filter (result_table coal_data))) ->
             In (m_Thermal_Plant r) (map fst plant_info)).
  { intros r Hr. apply merged_plant in Hr. destruct Hr as [g [Hg ->]].
    apply registry_filter_in in Hg. apply Hg. }
  repeat split.
  - intros r Hr. apply registry_filter_in in Hr. apply Hr.
  - intros r Hr. apply registry_filter_in in Hr. apply Hr.
  - exact Hm.
  - intros r Hr. unfold to_excel in Hr. apply in_map_iff in Hr.
    destruct Hr as [m [<- Hin]]. cbn [x_Thermal_Plant]. apply Hm, Hin.
Qed.

(** C2.  Whatever the files and the plants selected, every row of the two
    tables shown and of the merged export of a run names a plant that is a
    key of [plant_info]: a record built for any other plant is dropped by
    the filter. *)
Theorem outputs_name_registry_plants (month_name : text) (year_val : Z)
    (generation_value : frame -> text -> result text)
    (coal_value : file -> text -> result text)
    (selected_gen_plants selected_coal_plants : list text)
    (generation_files coal_files : list file) (out : outputs) :
  generate_final_dataset month_name year_val generation_value coal_value
    selected_gen_plants selected_coal_plants generation_files coal_files = Ok out ->
  (forall r, In r (table1 out) -> In (Thermal_Plant r) (map fst plant_info))
  /\ (forall r, In r (table2 out) -> In (Thermal_Plant r) (map fst plant_info))
  /\ (forall r, In r (export out) -> In (x_Thermal_Plant r) (map fst plant_info)).
Proof.
  unfold generate_final_dataset. intros H.
  destruct (rows_of _ selected_gen_plants generation_files) as [gen_data|]; [|discriminate].
  destruct (rows_of _ selected_coal_plants coal_files) as [coal_data|]; [|discriminate].
  cbn [bind] in H. injection H as <-.
  pose proof (present_within_registry gen_data coal_data) as P. tauto.
Qed.


(** *** A run on given files *)


Definition coal_07 : file :=
  {| name := T "Coal 07.xlsx";
     read_excel := fun _ _ =>
       Ok {| columns := [T "Name of Thermal Station"; T "Consumption"];
             rows := [(Str (T "PANIPAT TPS"), [Str (T "3.2")])] |} |}.

(** A run in which a plant outside the registry is asked for as well. *)
Definition sample_run : result outputs :=
  generate_final_dataset (T "June") 2024
    (fun _ _ => Ok (T "12.5000")) (fun _ _ => Ok (T "3.2000"))
    [T "PANIPAT TPS"; T "ACME CAPTIVE PLANT"] [T "ACME CAPTIVE PLANT"; T "PANIPAT TPS"]
    [gen_space_07] [coal_07].

Definition sample_out : outputs :=
  Eval vm_compute in
    match sample_run with
    | Ok out => out
    | Raise _ => {| table1 := []; table2 := []; merged_table := []; export := [] |}
    end.

Lemma outputs_name_registry_plants_witness :
  (map Thermal_Plant (table1 sample_out) = [T "PANIPAT TPS"]
   /\ map x_Thermal_Plant (export sample_out) = [T "PANIPAT TPS"])
  /\ ((forall r, In r (table1 sample_out) -> In (Thermal_Plant r) (map fst plant_info))
      /\ (forall r, In r (table2 sample_out) -> In (Thermal_Plant r) (map fst plant_info))
      /\ (forall r, In r (export sample_out) ->
            In (x_Thermal_Plant r) (map fst plant_info))).
Proof.
  split; [split; reflexivity|].
  apply (@outputs_name_registry_plants (T "June") 2024
           (fun _ _ => Ok (T "12.5000")) (fun _ _ => Ok (T "3.2000"))
           [T "PANIPAT TPS"; T "ACME CAPTIVE PLANT"]
           [T "ACME CAPTIVE PLANT"; T "PANIPAT TPS"]
           [gen_space_07] [coal_07] sample_out).
  vm_compute. reflexivity.
Defined.





(* ================================================================== *)
(** ** Name normalizer: normal forms *)
(* ================================================================== *)

(** Facts about single characters are settled by going through the 256 of
    them. *)
Ltac each_char c :=
  destruct c as [[] [] [] [] [] [] [] []]; vm_compute; try reflexivity;
  try discriminate; auto.

Definition alnum (c : ascii) : bool := is_alpha c || is_digit c.

Definition word_char (c : ascii) : bool := is_lower c || is_digit c.

(** [tidy cls s prev_space]: [s] is made of characters of class [cls] and
    single spaces, no space coming first when [prev_space] holds. *)
Fixpoint tidy (cls : ascii -> bool) (s : text) (prev_space : bool) : bool :=
  match s with
  | [] => true
  | c :: s' =>
      if cls c then tidy cls s' false
      else Ascii.eqb c space && negb prev_space && tidy cls s' true
  end.

(** [closed cls s prev_space]: moreover no space comes last. *)
Fixpoint closed (cls : ascii -> bool) (s : text) (prev_space : bool) : bool :=
  match s with
  | [] => negb prev_space
  | c :: s' =>
      if cls c then closed cls s' false
      else Ascii.eqb c space && negb prev_space && closed cls s' true
  end.

Lemma closed_cons (cls : ascii -> bool) (c : ascii) (s : text) (r : bool) :
  closed cls (c :: s) r =
  if cls c then closed cls s false
  else Ascii.eqb c space && negb r && closed cls s true.
Proof. reflexivity. Qed.

Lemma alnum_not_space (c : ascii) : alnum c = true -> is_space c = false.
Proof. each_char c. Qed.

Lemma word_char_not_space (c : ascii) : word_char c = true -> is_space c = false.
Proof. each_char c. Qed.

Lemma keep_char_cases (c : ascii) :
  keep_char c = true -> alnum c = true \/ is_space c = true.
Proof. each_char c. Qed.

Lemma alnum_lower (c : ascii) : alnum c = true -> word_char (lower_char c) = true.
Proof. each_char c. Qed.

Lemma word_char_lower (c : ascii) : word_char c = true -> lower_char c = c.
Proof. each_char c. Qed.

Lemma word_char_keep (c : ascii) : word_char c = true -> keep_char c = true.
Proof. each_char c. Qed.

Lemma space_is_space : is_space space = true.
Proof. reflexivity. Qed.

Lemma sub_punct_keep (s : text) : Forall (fun c => keep_char c = true) (sub_punct s).
Proof.
  induction s as [|c s IH]; constructor; auto.
  destruct (keep_char c) eqn:E; auto.
Qed.

Lemma sub_spaces_tidy (s : text) (r : bool) :
  Forall (fun c => keep_char c = true) s ->
  tidy alnum (sub_spaces_from s r) r = true.
Proof.
  intros H. revert r. induction H as [|c s Hc Hs IH]; intros r; [reflexivity|].
  cbn [sub_spaces_from]. destruct (is_space c) eqn:Esp.
  - destruct r.
    + apply IH.
    + cbn [tidy]. replace (alnum space) with false by reflexivity.
      rewrite IH. reflexivity.
  - cbn [tidy]. destruct (keep_char_cases c Hc) as [Ha | Hsp]; [|congruence].
    rewrite Ha. apply IH.
Qed.

Lemma tidy_weaken (cls : ascii -> bool) (s : text) :
  tidy cls s true = true -> tidy cls s false = true.
Proof.
  destruct s as [|c s]; [reflexivity|]. cbn [tidy].
  destruct (cls c); auto. rewrite andb_false_r. discriminate.
Qed.

Lemma lstrip_tidy (s : text) (r : bool) :
  tidy alnum s r = true -> tidy alnum (lstrip s) true = true.
Proof.
  revert r. induction s as [|c s IH]; intros r H; [reflexivity|].
  cbn [tidy] in H. cbn [lstrip]. destruct (alnum c) eqn:Ea.
  - rewrite (alnum_not_space c Ea). cbn [tidy]. rewrite Ea. exact H.
  - apply andb_true_iff in H. destruct H as [H Hs].
    apply andb_true_iff in H. destruct H as [Hc _].
    apply Ascii.eqb_eq in Hc. subst c. rewrite space_is_space. apply (IH true Hs).
Qed.

Lemma rstrip_closed (s : text) (r : bool) :
  tidy alnum s r = true -> rstrip s = [] \/ closed alnum (rstrip s) r = true.
Proof.
  revert r. induction s as [|c s IH]; intros r H; [left; reflexivity|].
  cbn [tidy] in H. cbn [rstrip]. destruct (alnum c) eqn:Ea.
  - right. destruct (IH false H) as [E | Hc].
    + rewrite E, (alnum_not_space c Ea), closed_cons, Ea. reflexivity.
    + destruct (rstrip s) as [|k kept] eqn:E.
      * rewrite (alnum_not_space c Ea), closed_cons, Ea. reflexivity.
      * rewrite closed_cons, Ea. exact Hc.
  - apply andb_true_iff in H. destruct H as [H Hs].
    apply andb_true_iff in H. destruct H as [Hc Hr].
    apply Ascii.eqb_eq in Hc. subst c.
    destruct (IH true Hs) as [E | Hcl].
    + left. rewrite E, space_is_space. reflexivity.
    + right. destruct (rstrip s) as [|k kept] eqn:E.
      * discriminate Hcl.
      * rewrite closed_cons, Ea, Hr, Hcl. reflexivity.
Qed.

Lemma lower_closed (s : text) (r : bool) :
  closed alnum s r = true -> closed word_char (lower s) r = true.
Proof.
  revert r. induction s as [|c s IH]; intros r H; [exact H|].
  rewrite closed_cons in H. cbn [lower map]. fold (lower s). rewrite closed_cons.
  destruct (alnum c) eqn:Ea.
  - rewrite (alnum_lower c Ea). apply IH, H.
  - apply andb_true_iff in H. destruct H as [H Hs].
    apply andb_true_iff in H. destruct H as [Hc Hr].
    apply Ascii.eqb_eq in Hc. subst c.
    replace (lower_char space) with space by reflexivity.
    replace (word_char space) with false by reflexivity.
    rewrite Hr, (IH true Hs). reflexivity.
Qed.

(** The shape of every normalized name: empty, or words of lower-case
    letters and digits separated by single spaces. *)
Definition normal_form (s : text) : Prop :=
  s = [] \/ closed word_char s true = true.

Lemma normalize_text_normal_form (s : text) : normal_form (normalize_text s).
Proof.
  unfold normalize_text, strip, sub_spaces.
  set (u := sub_punct _).
  assert (H : tidy alnum (sub_spaces_from u false) false = true)
    by (apply sub_spaces_tidy, sub_punct_keep).
  apply lstrip_tidy in H. apply rstrip_closed in H.
  destruct H as [E | H].
  - left. rewrite E. reflexivity.
  - right. apply lower_closed. exact H.
Qed.

(** *** Steps that leave a normal form as it is *)

Lemma closed_chars (s : text) (r : bool) :
  closed word_char s r = true ->
  Forall (fun c => word_char c = true \/ c = space) s.
Proof.
  revert r. induction s as [|c s IH]; intros r H; constructor.
  - rewrite closed_cons in H. destruct (word_char c); [left; reflexivity|].
    right. apply andb_true_iff in H. destruct H as [H _].
    apply andb_true_iff in H. destruct H as [H _]. apply Ascii.eqb_eq, H.
  - rewrite closed_cons in H. destruct (word_char c); [exact (IH _ H)|].
    apply andb_true_iff in H. destruct H as [_ H]. exact (IH _ H).
Qed.

Lemma replace_absent (old new s : text) :
  ~ occurs old s -> replace old new s = s.
Proof.
  intros H. apply contains_false in H. unfold replace.
  induction s as [|c s IH]; [reflexivity|].
  cbn [contains] in H. apply orb_false_iff in H. destruct H as [Hp Hc].
  cbn [replace_from]. rewrite Hp, (IH Hc). reflexivity.
Qed.

Lemma occurs_char (x : ascii) (s : text) : occurs [x] s -> In x s.
Proof.
  intros [pre [post ->]]. apply in_or_app. right. left. reflexivity.
Qed.

Lemma sub_parens_absent (s : text) : ~ In "("%char s -> sub_parens s = s.
Proof.
  unfold sub_parens. induction s as [|c s IH]; intros H; [reflexivity|].
  cbn [sub_parens_from]. destruct (Ascii.eqb c "(") eqn:E.
  - apply Ascii.eqb_eq in E. exfalso. apply H. left. auto.
  - rewrite IH; [reflexivity|]. intros Hin. apply H. right. exact Hin.
Qed.

Lemma sub_punct_kept (s : text) :
  Forall (fun c => keep_char c = true) s -> sub_punct s = s.
Proof.
  induction 1 as [|c s Hc Hs IH]; [reflexivity|].
  cbn [sub_punct map]. rewrite Hc. f_equal. exact IH.
Qed.

Lemma sub_spaces_closed (s : text) (r : bool) :
  closed word_char s r = true -> sub_spaces_from s r = s.
Proof.
  revert r. induction s as [|c s IH]; intros r H; [reflexivity|].
  rewrite closed_cons in H. cbn [sub_spaces_from]. destruct (word_char c) eqn:Ew.
  - rewrite (word_char_not_space c Ew), (IH _ H). reflexivity.
  - apply andb_true_iff in H. destruct H as [H Hs].
    apply andb_true_iff in H. destruct H as [Hc Hr].
    apply Ascii.eqb_eq in Hc. subst c. rewrite space_is_space.
    apply negb_true_iff in Hr. subst r. rewrite (IH _ Hs). reflexivity.
Qed.

Lemma closed_weaken (cls : ascii -> bool) (s : text) :
  closed cls s true = true -> closed cls s false = true.
Proof.
  destruct s as [|c s]; [discriminate|]. rewrite !closed_cons.
  destruct (cls c); auto. rewrite andb_false_r. discriminate.
Qed.

Lemma lstrip_closed (s : text) : closed word_char s true = true -> lstrip s = s.
Proof.
  destruct s as [|c s]; [reflexivity|]. rewrite closed_cons. cbn [lstrip].
  destruct (word_char c) eqn:Ew.
  - rewrite (word_char_not_space c Ew). reflexivity.
  - rewrite andb_false_r. discriminate.
Qed.

Lemma rstrip_closed_id (s : text) (r : bool) :
  closed word_char s r = true -> rstrip s = s.
Proof.
  revert r. induction s as [|c s IH]; intros r H; [reflexivity|].
  rewrite closed_cons in H. cbn [rstrip]. destruct (word_char c) eqn:Ew.
  - rewrite (IH _ H). destruct s; [|reflexivity].
    rewrite (word_char_not_space c Ew). reflexivity.
  - apply andb_true_iff in H. destruct H as [_ Hs].
    rewrite (IH _ Hs). destruct s; [discriminate Hs | reflexivity].
Qed.

Lemma lower_closed_id (s : text) :
  Forall (fun c => word_char c = true \/ c = space) s -> lower s = s.
Proof.
  induction 1 as [|c s Hc Hs IH]; [reflexivity|].
  cbn [lower map]. fold (lower s). rewrite IH. f_equal.
  destruct Hc as [Hc | ->]; [apply word_char_lower, Hc | reflexivity].
Qed.

Lemma normalize_text_on_normal_form (y : text) :
  normal_form y ->
  ~ occurs (T "stps") y -> ~ occurs (T "station") y ->
  ~ occurs (T "power limited") y ->
  normalize_text y = y.
Proof.
  intros [-> | Hcl] H1 H2 H3; [reflexivity|].
  pose proof (@closed_chars _ _ Hcl) as Hch.
  assert (Hno : forall x, word_char x = false -> x <> space -> ~ In x y).
  { intros x Hx Hsp Hin. rewrite Forall_forall in Hch.
    destruct (Hch x Hin) as [Hw | ->]; congruence. }
  unfold normalize_text.
  rewrite (@replace_absent (T "&") (T " and ") y).
  2:{ intros Ho. apply occurs_char in Ho. revert Ho. apply Hno; [reflexivity|discriminate]. }
  rewrite sub_parens_absent by (apply Hno; [reflexivity|discriminate]).
  rewrite (@replace_absent _ (T "tps") _ H1), (@replace_absent _ (T "stn") _ H2),
    (@replace_absent _ (T "power") _ H3).
  rewrite sub_punct_kept.
  2:{ eapply Forall_impl; [|exact Hch]. intros c [Hc | ->];
      [apply word_char_keep, Hc | reflexivity]. }
  unfold sub_spaces, strip. rewrite (@sub_spaces_closed _ _ (closed_weaken _ _ Hcl)).
  rewrite (@lstrip_closed _ Hcl), (@rstrip_closed_id _ _ Hcl).
  apply lower_closed_id, Hch.
Qed.

(** C4 (amended).  Normalizing a normalized name changes nothing, provided
    the normalized name contains none of the three lower-case abbreviation
    sources "stps", "station" and "power limited". *)
Theorem normalize_name_idempotent_without_abbreviations (x : cell) :
  ~ occurs (T "stps") (normalize_name x) ->
  ~ occurs (T "station") (normalize_name x) ->
  ~ occurs (T "power limited") (normalize_name x) ->
  normalize_name (Str (normalize_name x)) = normalize_name x.
Proof.
  intros H1 H2 H3.
  change (normalize_text (normalize_name x) = normalize_name x).
  apply normalize_text_on_normal_form; try assumption.
  destruct x as [|s]; [left; reflexivity | apply normalize_text_normal_form].
Qed.

(** C4, as the specification states it, fails: the registry name "SURATGARH STPS"
    normalizes to "suratgarh stps", which normalizes to "suratgarh tps". *)
Lemma normalize_name_not_idempotent_counterexample :
  normalize_name (Str (T "SURATGARH STPS")) = T "suratgarh stps"
  /\ normalize_name (Str (normalize_name (Str (T "SURATGARH STPS"))))
     = T "suratgarh tps"
  /\ In (T "SURATGARH STPS") (map fst plant_info).
Proof.
  split; [reflexivity|]. split; [reflexivity|].
  apply isin_spec. reflexivity.
Qed.

Lemma normalize_name_idempotent_witness :
  normalize_name (Str (normalize_name (Str (T "GH TPS (LEH.MOH.) & Co."))))
  = normalize_name (Str (T "GH TPS (LEH.MOH.) & Co.")).
Proof.
  apply normalize_name_idempotent_without_abbreviations;
    apply contains_false; reflexivity.
Defined.

(* ================================================================== *)
(** * Further properties *)
(* ================================================================== *)

(* ================================================================== *)
(** ** Entity matcher: what a match is *)
(* ================================================================== *)

Section MatchedRow.

Variable L : Type.

Lemma scan_some_in (test : text -> bool) (rows : list (L * text)) (idx : L) :
  scan test rows = Some idx -> exists c, In (idx, c) rows /\ test c = true.
Proof.
  induction rows as [|[l x] rows IH]; [discriminate|].
  cbn [scan]. destruct (test x) eqn:E.
  - intros [= ->]. exists x. split; [left; reflexivity | exact E].
  - intros H. destruct (IH H) as [c [Hin Hc]]. exists c. split; [right|]; assumption.
Qed.

Lemma fuzzy_loop_idx (t : text) (rows : list (L * text)) (br : Q) (bi : option L) :
  snd (fuzzy_loop t rows br bi) = bi
  \/ exists idx c, snd (fuzzy_loop t rows br bi) = Some idx
                   /\ In (idx, c) rows /\ c <> [].
Proof.
  revert br bi. induction rows as [|[l x] rows IH]; intros br bi; [left; reflexivity|].
  cbn [fuzzy_loop]. destruct x as [|a x]; cbn [nonempty negb].
  - destruct (IH br bi) as [H | [idx [c [H [Hin Hc]]]]]; [left; exact H|].
    right. exists idx, c. repeat split; auto. right. exact Hin.
  - destruct (Qgtb (Difflib.ratio t (a :: x)) br).
    + destruct (IH (Difflib.ratio t (a :: x)) (Some l)) as [H | [idx [c [H [Hin Hc]]]]].
      * right. exists l, (a :: x). repeat split; [exact H | left; reflexivity | discriminate].
      * right. exists idx, c. repeat split; auto. right. exact Hin.
    + destruct (IH br bi) as [H | [idx [c [H [Hin Hc]]]]]; [left; exact H|].
      right. exists idx, c. repeat split; auto. right. exact Hin.
Qed.

Lemma candidates_in (s : series L) (idx : L) (c : text) :
  In (idx, c) (candidates s) -> c <> [] ->
  exists v, In (idx, v) s /\ isna v = false /\ normalize_name v = c.
Proof.
  unfold candidates. intros Hin Hc. apply in_map_iff in Hin.
  destruct Hin as [[l v] [E Hin]]. cbn [fst snd] in E. injection E as -> E.
  exists v. destruct (isna v); [congruence|]. auto.
Qed.

Lemma find_some_candidate (s : series L) (plant_name : cell) (m : Q) (idx : L) :
  find_best_match_index s plant_name m = Some idx ->
  exists c, In (idx, c) (candidates s) /\ c <> [].
Proof.
  unfold find_best_match_index. destruct s as [|r s]; [discriminate|].
  rewrite exact_loop_scan, substring_loop_scan.
  destruct (scan (exact_test (normalize_name plant_name)) (candidates (r :: s)))
    as [i1|] eqn:E1.
  - intros [= ->]. apply scan_some_in in E1. destruct E1 as [c [Hin Ht]].
    exists c. split; [exact Hin|]. apply exact_test_spec in Ht. apply Ht.
  - destruct (scan (substring_test (normalize_name plant_name)) (candidates (r :: s)))
      as [i2|] eqn:E2.
    + intros [= ->]. apply scan_some_in in E2. destruct E2 as [c [Hin Ht]].
      exists c. split; [exact Hin|]. apply substring_test_spec in Ht. apply Ht.
    + pose proof (fuzzy_loop_idx (normalize_name plant_name) (candidates (r :: s))
                    0%Q None) as F.
      destruct (fuzzy_loop (normalize_name plant_name) (candidates (r :: s)) 0%Q None)
        as [b i]. cbn [snd] in F.
      destruct (Qle_bool m b); [|discriminate]. intros ->.
      destruct F as [F | [idx' [c [F [Hin Hc]]]]]; [discriminate|].
      injection F as ->. exists c. auto.
Qed.

(** X1.  Whatever the threshold, a match is the index label of a row of
    the series whose value is not missing and whose normalized label is
    not empty: the matcher never points outside the series nor at a blank
    row. *)
Theorem match_labels_a_named_row (s : series L) (plant_name : cell) (m : Q) (idx : L) :
  find_best_match_index s plant_name m = Some idx ->
  exists v, In (idx, v) s /\ isna v = false /\ normalize_name v <> [].
Proof.
  intros H. apply find_some_candidate in H. destruct H as [c [Hin Hc]].
  destruct (candidates_in _ _ Hin Hc) as [v [Hv [Hna E]]].
  exists v. repeat split; auto. congruence.
Qed.

(** X3.  Lowering the threshold neither loses nor changes a match. *)
Theorem lower_threshold_keeps_match (s : series L) (plant_name : cell)
    (m m' : Q) (idx : L) :
  (m' <= m)%Q ->
  find_best_match_index s plant_name m = Some idx ->
  find_best_match_index s plant_name m' = Some idx.
Proof.
  intros Hm. unfold find_best_match_index. destruct s as [|r s]; [discriminate|].
  destruct (exact_loop _ _); [auto|].
  destruct (substring_loop _ _); [auto|].
  destruct (fuzzy_loop _ _ _ _) as [b i].
  destruct (Qle_bool m b) eqn:E; [|discriminate].
  apply Qle_bool_iff in E.
  assert (E' : Qle_bool m' b = true) by (apply Qle_bool_iff; eapply Qle_trans; eassumption).
  rewrite E'. auto.
Qed.

End MatchedRow.

Lemma combine_seq_nth (A : Type) (vs : list A) (k i : nat) (v : A) :
  In (i, v) (combine (seq k (List.length vs)) vs) ->
  k <= i /\ nth_error vs (i - k) = Some v.
Proof.
  revert k. induction vs as [|x vs IH]; intros k H; [destruct H|].
  cbn [List.length seq combine] in H. destruct H as [H | H].
  - injection H as <- <-. rewrite Nat.sub_diag. split; [lia | reflexivity].
  - apply IH in H. destruct H as [Hk Hn]. split; [lia|].
    replace (i - k) with (S (i - S k)) by lia. exact Hn.
Qed.

(** X2.  On a freshly loaded column (labels 0, 1, 2, ...) a match is a
    row position of the column, and the cell there is not missing: the
    row the loops then read with [loc] exists. *)
Theorem match_is_a_row_position (vs : list cell) (plant_name : cell) (m : Q) (i : nat) :
  find_best_match_index (range_series vs) plant_name m = Some i ->
  i < List.length vs
  /\ exists v, nth_error vs i = Some v /\ isna v = false /\ normalize_name v <> [].
Proof.
  intros H. apply match_labels_a_named_row in H.
  destruct H as [v [Hin [Hna Hn]]]. unfold range_series in Hin.
  apply combine_seq_nth in Hin. destruct Hin as [_ Hnth].
  rewrite Nat.sub_0_r in Hnth. split.
  - apply nth_error_Some. congruence.
  - exists v. auto.
Qed.

Definition sample_labels : list cell :=
  [Str (T "Name of the Station"); NaN; Str (T "Panipat T.P.S."); Str (T "Total")].

Lemma match_labels_a_named_row_witness :
  exists v, In (2, v) (range_series sample_labels)
            /\ isna v = false /\ normalize_name v <> [].
Proof.
  apply (@match_labels_a_named_row nat (range_series sample_labels)
           (Str (T "PANIPAT TPS")) default_min_ratio 2).
  vm_compute. reflexivity.
Defined.

Lemma match_is_a_row_position_witness :
  2 < List.length sample_labels
  /\ exists v, nth_error sample_labels 2 = Some v
               /\ isna v = false /\ normalize_name v <> [].
Proof.
  apply (@match_is_a_row_position sample_labels (Str (T "PANIPAT TPS"))
           default_min_ratio 2).
  vm_compute. reflexivity.
Defined.

Lemma lower_threshold_keeps_match_witness :
  find_best_match_index (range_series sample_labels) (Str (T "PANIPAT TPS"))
    (1 # 4)%Q = Some 2.
Proof.
  apply (@lower_threshold_keeps_match nat (range_series sample_labels)
           (Str (T "PANIPAT TPS")) default_min_ratio (1 # 4)%Q 2).
  - apply Qle_bool_iff. vm_compute. reflexivity.
  - vm_compute. reflexivity.
Defined.

(* ================================================================== *)
(** ** Column detectors *)
(* ================================================================== *)

Definition CoalColumn (c : text) : Prop :=
  occurs (T "CONSUM") (upper c) \/ occurs (T "COAL") (upper c).

Lemma coal_rule_spec (c : text) : coal_rule (upper c) = true <-> CoalColumn c.
Proof.
  unfold coal_rule, CoalColumn. rewrite orb_true_iff, !contains_spec. tauto.
Qed.

Lemma detect_coal_col_find (columns : list text) :
  detect_coal_col columns = find (fun c => coal_rule (upper c)) columns.
Proof.
  induction columns as [|c l IH]; [reflexivity|].
  cbn [detect_coal_col find]. rewrite IH. reflexivity.
Qed.

(** X4.  [detect_coal_col] returns the first column whose upper-cased
    name contains CONSUM or COAL, and [None] exactly when no column does. *)
Theorem detect_coal_col_first_match (columns : list text) :
  (forall c, detect_coal_col columns = Some c <-> first_with CoalColumn columns c)
  /\ (detect_coal_col columns = None <-> forall x, In x columns -> ~ CoalColumn x).
Proof.
  rewrite detect_coal_col_find. split.
  - intros c. rewrite find_first_with.
    apply first_with_ext. apply coal_rule_spec.
  - rewrite find_none_iff. split.
    + intros H x Hx Hc. apply coal_rule_spec in Hc. rewrite (H x Hx) in Hc. discriminate.
    + intros H x Hx. destruct (coal_rule (upper x)) eqn:E; auto.
      apply coal_rule_spec in E. destruct (H x Hx E).
Qed.

(** X5.  The guard against APRIL and TILL only orders the preference of
    [detect_generation_col]: as soon as some column name contains ACTUAL,
    cumulative or not, a column is returned; it is one of the given
    columns and its name contains ACTUAL, or both DAILY and GEN. *)
Theorem detect_generation_col_finds_actual (columns : list text) (c : text) :
  In c columns -> occurs (T "ACTUAL") (upper c) ->
  exists c', detect_generation_col columns = Some c'
             /\ In c' columns /\ ActualOrDailyGen c'.
Proof.
  intros Hin Hc. unfold detect_generation_col.
  rewrite today_actual_loop_find, actual_loop_find.
  destruct (find (fun x => today_actual_rule (upper x)) columns) as [c1|] eqn:E1.
  - exists c1. split; [reflexivity|]. apply find_some in E1. destruct E1 as [H1 R1].
    split; [exact H1|]. apply today_actual_rule_spec in R1. left. apply R1.
  - destruct (find (fun x => actual_rule (upper x)) columns) as [c2|] eqn:E2.
    + exists c2. split; [reflexivity|]. apply find_some in E2. destruct E2 as [H2 R2].
      split; [exact H2 | apply actual_rule_spec, R2].
    + exfalso. pose proof (find_none _ _ E2 c Hin) as N. cbn beta in N.
      assert (A : actual_rule (upper c) = true) by (apply actual_rule_spec; left; exact Hc).
      congruence.
Qed.

Lemma detect_generation_col_finds_actual_witness :
  exists c', detect_generation_col [T "Station"; T "Actual till date (April)"] = Some c'
             /\ In c' [T "Station"; T "Actual till date (April)"]
             /\ ActualOrDailyGen c'.
Proof.
  apply (@detect_generation_col_finds_actual
           [T "Station"; T "Actual till date (April)"] (T "Actual till date (April)")).
  - right. left. reflexivity.
  - apply contains_spec. reflexivity.
Defined.

(* ================================================================== *)
(** ** Name normalizer: the shape of its result *)
(* ================================================================== *)

Lemma closed_no_trailing_space (cls : ascii -> bool) (front : text) (r : bool) :
  cls space = false -> closed cls (front ++ [space]) r = false.
Proof.
  intros Hs. revert r. induction front as [|c front IH]; intros r.
  - cbn [app]. rewrite closed_cons, Hs. destruct r; reflexivity.
  - cbn [app]. rewrite closed_cons. destruct (cls c); [apply IH|].
    rewrite IH, andb_false_r. reflexivity.
Qed.

Lemma closed_no_double_space (cls : ascii -> bool) (pre post : text) (r : bool) :
  cls space = false -> closed cls (pre ++ space :: space :: post) r = false.
Proof.
  intros Hs. revert r. induction pre as [|c pre IH]; intros r.
  - cbn [app]. rewrite !closed_cons, Hs. destruct r; reflexivity.
  - cbn [app]. rewrite closed_cons. destruct (cls c); [apply IH|].
    rewrite IH, andb_false_r. reflexivity.
Qed.

(** X6.  A normalized name is made of lower-case letters a-z, digits and
    spaces only; it neither starts nor ends with a space and has no two
    spaces in a row. *)
Theorem normalized_name_shape (x : cell) :
  Forall (fun c => is_lower c = true \/ is_digit c = true \/ c = space)
         (normalize_name x)
  /\ (forall rest, normalize_name x = space :: rest -> False)
  /\ (forall front, normalize_name x = front ++ [space] -> False)
  /\ (occurs [space; space] (normalize_name x) -> False).
Proof.
  assert (N : normal_form (normalize_name x)).
  { destruct x as [|s]; [left; reflexivity | apply normalize_text_normal_form]. }
  destruct N as [E | Hcl].
  - rewrite E. repeat split.
    + constructor.
    + discriminate.
    + intros front H. destruct front; discriminate.
    + intros [pre [post H]]. destruct pre; discriminate.
  - repeat split.
    + eapply Forall_impl; [|exact (closed_chars _ _ Hcl)].
      intros c [Hc | Hc]; [|auto]. unfold word_char in Hc.
      apply orb_true_iff in Hc. tauto.
    + intros rest E. rewrite E in Hcl. discriminate Hcl.
    + intros front E. rewrite E, closed_no_trailing_space in Hcl by reflexivity.
      discriminate.
    + intros [pre [post E]]. cbn [app] in E.
      rewrite E, closed_no_double_space in Hcl by reflexivity. discriminate.
Qed.

(* ================================================================== *)
(** ** Name normalizer: upper-case names are not abbreviated *)
(* ================================================================== *)

(** The normalizer without its three abbreviation steps. *)
Definition normalize_unabbreviated (s : text) : text :=
  lower (strip (sub_spaces (sub_punct
    (sub_parens (replace (T "&") (T " and ") s))))).

(** A character that is not a lower-case letter, or is one of a, n, d. *)
Definition upper_or_and (c : ascii) : Prop :=
  is_lower c = false \/ In c (T "and").

Lemma replace_from_chars (P : ascii -> Prop) (old new s : text) (k : nat) :
  Forall P s -> Forall P new -> Forall P (replace_from old new s k).
Proof.
  intros Hs Hn. revert k. induction Hs as [|c s Hc Hs IH]; intros k; [constructor|].
  cbn [replace_from]. destruct k as [|k]; [|apply IH].
  destruct (prefixb old (c :: s)).
  - apply Forall_app. split; [exact Hn | apply IH].
  - constructor; [exact Hc | apply IH].
Qed.

Lemma sub_parens_from_chars (P : ascii -> Prop) (s : text) (k : nat) :
  P space -> Forall P s -> Forall P (sub_parens_from s k).
Proof.
  intros Hsp Hs. revert k. induction Hs as [|c s Hc Hs IH]; intros k; [constructor|].
  cbn [sub_parens_from]. destruct k as [|k]; [|apply IH].
  destruct (Ascii.eqb c "(").
  - destruct (paren_close s); constructor; auto.
  - constructor; auto.
Qed.

Lemma occurs_chars (sub s : text) (c : ascii) :
  occurs sub s -> In c sub -> In c s.
Proof.
  intros [pre [post ->]] H. apply in_or_app. right. apply in_or_app. left. exact H.
Qed.

Lemma not_occurs_by_char (P : ascii -> Prop) (sub s : text) (c : ascii) :
  Forall P s -> In c sub -> ~ P c -> ~ occurs sub s.
Proof.
  intros Hs Hc Hn Ho. apply Hn. rewrite Forall_forall in Hs.
  apply Hs. exact (@occurs_chars sub s c Ho Hc).
Qed.

(** X7.  The three abbreviations are written in lower case and applied
    before lower-casing, so a name without lower-case letters is never
    abbreviated: its normalized form is the one the normalizer would give
    without the abbreviation steps. *)
Theorem upper_case_name_not_abbreviated (s : text) :
  Forall (fun c => is_lower c = false) s ->
  normalize_name (Str s) = normalize_unabbreviated s.
Proof.
  intros Hs. cbn [normalize_name]. unfold normalize_text, normalize_unabbreviated.
  set (u := sub_parens (replace (T "&") (T " and ") s)).
  assert (Hu : Forall upper_or_and u).
  { unfold u, sub_parens, replace. apply sub_parens_from_chars.
    - left. reflexivity.
    - apply replace_from_chars.
      + eapply Forall_impl; [|exact Hs]. intros c Hc. left. exact Hc.
      + repeat constructor; try (left; reflexivity);
          right; cbn; tauto. }
  assert (Hno : forall lit c, In c lit -> ~ upper_or_and c -> ~ occurs lit u).
  { intros lit c Hc Hn. exact (@not_occurs_by_char upper_or_and lit u c Hu Hc Hn). }
  rewrite (@replace_absent (T "stps") (T "tps") u).
  2:{ apply (Hno _ "s"%char); [left; reflexivity|].
      intros [H | H]; [discriminate H | cbn in H; intuition discriminate]. }
  rewrite (@replace_absent (T "station") (T "stn") u).
  2:{ apply (Hno _ "s"%char); [left; reflexivity|].
      intros [H | H]; [discriminate H | cbn in H; intuition discriminate]. }
  rewrite (@replace_absent (T "power limited") (T "power") u).
  2:{ apply (Hno _ "p"%char); [left; reflexivity|].
      intros [H | H]; [discriminate H | cbn in H; intuition discriminate]. }
  reflexivity.
Qed.

Lemma upper_case_name_not_abbreviated_witness :
  normalize_name (Str (T "SURATGARH STPS (POWER STATION) & CO."))
  = normalize_unabbreviated (T "SURATGARH STPS (POWER STATION) & CO.").
Proof.
  apply upper_case_name_not_abbreviated.
  apply Forall_forall. intros c Hc. cbn in Hc.
  repeat (destruct Hc as [<- | Hc]; [reflexivity|]). destruct Hc.
Defined.

Example upper_case_stps_kept :
  normalize_name (Str (T "SURATGARH STPS")) = T "suratgarh stps"
  /\ normalize_name (Str (T "Suratgarh stps")) = T "suratgarh tps".
Proof. split; reflexivity. Qed.

(* ================================================================== *)
(** ** Dates: what the extractor can return *)
(* ================================================================== *)

(** A day of the calendar, as [date(y, m, d)] accepts it. *)
Definition is_calendar_date (d : date) : bool :=
  ((1 <=? year d) && (year d <=? 9999) && (1 <=? month d) && (month d <=? 12)
   && (1 <=? day d) && (day d <=? days_in_month (year d) (month d)))%Z.

(** A well-formed result: a day of the calendar, a day number that is not
    negative, or nothing. *)
Definition well_formed (p : parsed) : Prop :=
  match p with
  | PDate d => is_calendar_date d = true
  | PInt n => (0 <= n)%Z
  | PNone => True
  end.

Lemma make_date_calendar (y m d : Z) (x : date) :
  make_date y m d = Ok x -> is_calendar_date x = true.
Proof.
  unfold make_date. destruct (_ && _)%bool eqn:E; [|discriminate].
  intros [= <-]. exact E.
Qed.

Lemma strptime_calendar (s : text) (fmt : format) (x : date) :
  strptime s fmt = Ok x -> is_calendar_date x = true.
Proof.
  unfold strptime. destruct (Re.match_items _ _ _) as [segs|]; [|discriminate].
  destruct (_ =? _); [|discriminate].
  destruct (set_fields _ _ _ _) as [[y m] d]. apply make_date_calendar.
Qed.

Lemma first_format_calendar (candidate : text) (fmts : list format) (x : date) :
  first_format candidate fmts = Some x -> is_calendar_date x = true.
Proof.
  induction fmts as [|fmt fmts IH]; [discriminate|].
  cbn [first_format]. destruct (strptime candidate fmt) as [d|e] eqn:E; [|exact IH].
  intros [= <-]. exact (strptime_calendar _ _ E).
Qed.

Lemma try_formats_calendar (candidate : text) (x : date) :
  try_formats candidate = Some x -> is_calendar_date x = true.
Proof.
  unfold try_formats.
  destruct (first_format candidate date_formats) as [d|] eqn:E.
  - intros [= <-]. exact (first_format_calendar _ _ E).
  - destruct (strptime candidate fmt_dBY) as [d|e] eqn:E2; [|discriminate].
    intros [= <-]. exact (strptime_calendar _ _ E2).
Qed.

Lemma patterns_loop_calendar (pats : list Re.pattern) (s : text) (x : date) :
  patterns_loop pats s = Some x -> is_calendar_date x = true.
Proof.
  induction pats as [|pat pats IH]; [discriminate|].
  cbn [patterns_loop]. destruct (Re.search pat s) as [m|]; [|exact IH].
  destruct (try_formats (Re.whole s m)) as [d|] eqn:E; [|exact IH].
  intros [= <-]. exact (try_formats_calendar _ E).
Qed.

Lemma int_of_digits_nonneg (s : text) : (0 <= int_of_digits s)%Z.
Proof.
  unfold int_of_digits.
  assert (G : forall acc, (0 <= acc)%Z ->
            (0 <= fold_left
                    (fun acc c =>
                       if is_digit c then (10 * acc + Z.of_nat (code c - 48))%Z else acc)
                    s acc)%Z).
  { induction s as [|c s IH]; intros acc Hacc; [exact Hacc|].
    cbn [fold_left]. apply IH. destruct (is_digit c); lia. }
  apply G. lia.
Qed.

Lemma py_int_within (s : text) :
  List.length s <= int_max_str_digits -> py_int s = Ok (int_of_digits s).
Proof.
  intros H. unfold py_int. apply Nat.ltb_ge in H. rewrite H. reflexivity.
Qed.

Lemma py_int_raise (s : text) (e : exn) :
  py_int s = Raise e -> e = ValueError /\ int_max_str_digits < List.length s.
Proof.
  unfold py_int. destruct (int_max_str_digits <? List.length s) eqn:H; [|discriminate].
  intros [= <-]. split; [reflexivity | apply Nat.ltb_lt, H].
Qed.

Lemma part_length (s : text) (m : Re.found) (k : nat) :
  List.length (Re.part s m k) <= List.length s.
Proof.
  unfold Re.part. rewrite length_firstn, length_skipn. lia.
Qed.

Lemma lstrip_length (s : text) : List.length (lstrip s) <= List.length s.
Proof.
  induction s as [|c s IH]; cbn [lstrip List.length]; [lia|].
  destruct (is_space c); cbn [List.length]; lia.
Qed.

Lemma rstrip_length (s : text) : List.length (rstrip s) <= List.length s.
Proof.
  induction s as [|c s IH]; cbn [rstrip List.length]; [lia|].
  destruct (rstrip s) as [|k kept]; [destruct (is_space c)|]; cbn [List.length] in *; lia.
Qed.

Lemma strip_length (s : text) : List.length (strip s) <= List.length s.
Proof.
  unfold strip. pose proof (rstrip_length (lstrip s)). pose proof (lstrip_length s). lia.
Qed.

Lemma strip_chars_length (chars s : text) :
  List.length (strip_chars chars s) <= List.length s.
Proof.
  unfold strip_chars.
  assert (L : List.length (lstrip_chars chars s) <= List.length s).
  { induction s as [|c s IH]; cbn [lstrip_chars List.length]; [lia|].
    destruct (among chars c); cbn [List.length]; lia. }
  assert (R : forall x, List.length (rstrip_chars chars x) <= List.length x).
  { induction x as [|c x IH]; cbn [rstrip_chars List.length]; [lia|].
    destruct (rstrip_chars chars x) as [|k kept]; [destruct (among chars c)|];
      cbn [List.length] in *; lia. }
  pose proof (R (lstrip_chars chars s)). lia.
Qed.

Lemma remove_length (old s : text) :
  List.length (replace old [] s) <= List.length s.
Proof.
  unfold replace. generalize 0 as skip. induction s as [|c s IH]; intros skip; [cbn; lia|].
  cbn [replace_from List.length]. destruct skip as [|k].
  - destruct (prefixb old (c :: s)); cbn [app List.length].
    + pose proof (IH (List.length old - 1)). lia.
    + pose proof (IH 0). lia.
  - pose proof (IH k). lia.
Qed.

Lemma upper_length (s : text) : List.length (upper s) = List.length s.
Proof.
  unfold upper. apply length_map.
Qed.

Lemma basename_length (p : text) : List.length (basename p) <= List.length p.
Proof.
  unfold basename. destruct (rfind "/" p); [rewrite length_skipn|]; lia.
Qed.

Lemma splitext_root_length (p : text) : List.length (splitext_root p) <= List.length p.
Proof.
  unfold splitext_root. destruct (rfind "." p); [|lia].
  destruct (_ && _); [rewrite length_firstn|]; lia.
Qed.

Lemma digit_limit_above_three : 3 < int_max_str_digits.
Proof.
  apply Nat.ltb_lt. vm_compute. reflexivity.
Qed.

Lemma join_space_length (parts : list text) (t : text) :
  In t parts -> List.length t <= List.length (join_space parts).
Proof.
  induction parts as [|p parts IH]; intros H; [destruct H|].
  cbn [join_space]. destruct parts as [|q parts].
  - destruct H as [<- | []]. lia.
  - rewrite length_app. cbn [List.length]. destruct H as [<- | H]; [lia|].
    pose proof (IH H). lia.
Qed.

Lemma cell_in_combined (cells : list cell) (c : cell) :
  In c cells -> int_max_str_digits < List.length (str_of c) ->
  int_max_str_digits < List.length (combined_text cells).
Proof.
  intros Hc Hl. destruct c as [|t].
  - cbn in Hl. pose proof digit_limit_above_three. lia.
  - assert (H : List.length (str_of (Str t)) <= List.length (combined_text cells)).
    { unfold combined_text. apply join_space_length. apply in_map.
      apply filter_In. split; [exact Hc | reflexivity]. }
    lia.
Qed.

(** What a call that parses a text of [n] characters may end in: a
    well-formed value, or the [ValueError] of [int], and this only when
    [n] is above the digit limit. *)
Definition outcome (n : nat) (r : result parsed) : Prop :=
  match r with
  | Ok p => well_formed p
  | Raise e => e = ValueError /\ int_max_str_digits < n
  end.

Lemma day_token_outcome (s : text) :
  match day_token s with
  | Ok (Some n) => (0 <= n)%Z
  | Ok None => True
  | Raise e => e = ValueError /\ int_max_str_digits < List.length s
  end.
Proof.
  unfold day_token. destruct (Re.search pat_day s) as [m|]; [|exact I].
  destruct (py_int (Re.part s m 4)) as [n|e] eqn:E; cbn [bind].
  - unfold py_int in E. destruct (_ <? _); [discriminate|].
    injection E as <-. apply int_of_digits_nonneg.
  - apply py_int_raise in E. destruct E as [-> E]. split; [reflexivity|].
    pose proof (part_length s m 4). lia.
Qed.

Lemma parse_outcome (s : text) :
  outcome (List.length s) (parse_date_string_to_date s).
Proof.
  unfold parse_date_string_to_date. destruct (negb (nonempty s)); [exact I|].
  cbv zeta. destruct (patterns_loop _ _) as [d|] eqn:E.
  - exact (patterns_loop_calendar _ _ E).
  - pose proof (day_token_outcome
                  (upper (replace (T ".") [] (strip_chars (T "() ") (strip s))))) as D.
    destruct (day_token _) as [[n|]|e]; cbn [bind outcome].
    + exact D.
    + exact I.
    + destruct D as [-> D]. split; [reflexivity|]. rewrite upper_length in D.
      pose proof (remove_length (T ".") (strip_chars (T "() ") (strip s))).
      pose proof (strip_chars_length (T "() ") (strip s)).
      pose proof (strip_length s). lia.
Qed.

(** X8.  Of a text no longer than the digit limit of [int],
    [parse_date_string_to_date] returns a day of the calendar, a day number
    that is not negative, or nothing; of any text, what it returns is so,
    and the one exception it can raise is the [ValueError] of [int], on a
    text above the limit; in the empty text it finds nothing. *)
Theorem parse_date_string_well_formed (s : text) :
  (List.length s <= int_max_str_digits ->
     exists p, parse_date_string_to_date s = Ok p /\ well_formed p)
  /\ (forall p, parse_date_string_to_date s = Ok p -> well_formed p)
  /\ (forall e, parse_date_string_to_date s = Raise e ->
        e = ValueError /\ int_max_str_digits < List.length s)
  /\ parse_date_string_to_date [] = Ok PNone.
Proof.
  pose proof (parse_outcome s) as O.
  split; [|split; [|split]]; [| | |reflexivity].
  - intros H. destruct (parse_date_string_to_date s) as [p|e].
    + exists p. split; [reflexivity | exact O].
    + destruct O as [_ O]. lia.
  - intros p E. rewrite E in O. exact O.
  - intros e E. rewrite E in O. exact O.
Qed.

Example parse_year_999 :
  parse_date_string_to_date (T "05/06/0999") = Ok (PDate (mkdate 999 6 5)).
Proof. vm_compute. reflexivity. Qed.

Lemma cells_loop_outcome (cells : list cell) :
  match cells_loop cells with
  | Ok (Some p) => well_formed p
  | Ok None => True
  | Raise e => e = ValueError
               /\ int_max_str_digits < List.length (combined_text cells)
  end.
Proof.
  assert (G : forall rest,
             (forall c, In c rest -> In c cells) ->
             match cells_loop rest with
             | Ok (Some p) => well_formed p
             | Ok None => True
             | Raise e => e = ValueError
                          /\ int_max_str_digits < List.length (combined_text cells)
             end).
  { induction rest as [|c rest IH]; intros Hin; [exact I|].
    cbn [cells_loop]. pose proof (parse_outcome (str_of c)) as O.
    destruct (parse_date_string_to_date (str_of c)) as [[d|n|]|e]; cbn [bind].
    - exact O.
    - exact O.
    - apply IH. intros x Hx. apply Hin. right. exact Hx.
    - destruct O as [-> O]. split; [reflexivity|].
      apply (@cell_in_combined cells c); [apply Hin; left; reflexivity | exact O]. }
  apply G. auto.
Qed.

Lemma date_from_name_outcome (f : file) (fallback_month : text) (fallback_year : Z) :
  outcome (List.length (name f)) (date_from_name f fallback_month fallback_year).
Proof.
  unfold date_from_name. cbv zeta.
  assert (L : List.length (splitext_root (basename (name f))) <= List.length (name f)).
  { pose proof (splitext_root_length (basename (name f))).
    pose proof (basename_length (name f)). lia. }
  pose proof (parse_outcome (splitext_root (basename (name f)))) as O.
  destruct (parse_date_string_to_date (splitext_root (basename (name f))))
    as [[d|n|]|e]; cbn [bind].
  - exact O.
  - exact O.
  - pose proof (day_token_outcome (upper (splitext_root (basename (name f))))) as D.
    destruct (day_token _) as [[n|]|e]; cbn [bind outcome].
    + exact D.
    + destruct (Re.search pat_number _) as [m2|]; [|exact I].
      destruct (make_date _ _ _) as [d|e] eqn:E2; cbn [bind try_except outcome].
      * exact (make_date_calendar _ _ _ E2).
      * exact I.
    + destruct D as [-> D]. split; [reflexivity|]. rewrite upper_length in D. lia.
  - destruct O as [-> O]. split; [reflexivity|]. cbn [outcome]. lia.
Qed.

(** The texts an extractor parses are within the digit limit of [int]:
    the display name and, when the workbook can be read, the candidate
    cells joined. *)
Definition short_texts (privileged : nat) (f : file) : Prop :=
  List.length (name f) <= int_max_str_digits
  /\ forall top, read_excel f None (Some 10) = Ok top ->
       List.length (combined_text (candidate_cells privileged top))
       <= int_max_str_digits.

Lemma get_date_from_outcome (privileged : nat) (f : file)
    (fallback_month : text) (fallback_year : Z) :
  match get_date_from privileged f fallback_month fallback_year with
  | Ok p => well_formed p
  | Raise e => e = ValueError /\ ~ short_texts privileged f
  end.
Proof.
  destruct (read_excel f None (Some 10)) as [top|e] eqn:E.
  - rewrite (get_date_from_read _ _ _ _ E).
    assert (N : int_max_str_digits
                < List.length (combined_text (candidate_cells privileged top)) ->
                ~ short_texts privileged f).
    { intros H [_ S]. pose proof (S top E). lia. }
    pose proof (parse_outcome (combined_text (candidate_cells privileged top))) as O.
    pose proof (cells_loop_outcome (candidate_cells privileged top)) as C.
    pose proof (date_from_name_outcome f fallback_month fallback_year) as D.
    assert (K : match (found <- cells_loop (candidate_cells privileged top) ;;
                       match found with
                       | Some p => Ok p
                       | None => date_from_name f fallback_month fallback_year
                       end) with
                | Ok p => well_formed p
                | Raise e => e = ValueError /\ ~ short_texts privileged f
                end).
    { destruct (cells_loop _) as [[p|]|e]; cbn [bind].
      - exact C.
      - destruct (date_from_name _ _ _) as [p|e]; [exact D|].
        destruct D as [-> D]. split; [reflexivity|]. intros [S _]. lia.
      - destruct C as [-> C]. split; [reflexivity | exact (N C)]. }
    destruct (parse_date_string_to_date _) as [[d|n|]|e]; cbn [bind].
    + exact O.
    + exact K.
    + exact K.
    + destruct O as [-> O]. split; [reflexivity | exact (N O)].
  - rewrite (get_date_from_unreadable _ _ _ _ E). exact I.
Qed.

(** X9.  For a workbook whose display name and candidate cells, joined,
    are within the digit limit of [int], each extractor returns, and what
    it returns is well-formed: a date, found in the sheet, in the display
    name or built from the fallback, is a day of the calendar (never, say,
    31 June), and a day number is not negative.  For any workbook, what an
    extractor returns is well-formed, the one exception it can raise is
    [ValueError], and a workbook that cannot be read gives no date. *)
Theorem extracted_date_well_formed (f : file) (fallback_month : text)
    (fallback_year : Z) :
  (short_texts 1 f ->
     exists p, get_date_from_generation_file f fallback_month fallback_year = Ok p
               /\ well_formed p)
  /\ (short_texts 2 f ->
        exists p, get_date_from_coal_file f fallback_month fallback_year = Ok p
                  /\ well_formed p)
  /\ (forall p, get_date_from_generation_file f fallback_month fallback_year = Ok p
                \/ get_date_from_coal_file f fallback_month fallback_year = Ok p ->
        well_formed p)
  /\ (forall e, get_date_from_generation_file f fallback_month fallback_year = Raise e
                \/ get_date_from_coal_file f fallback_month fallback_year = Raise e ->
        e = ValueError)
  /\ (forall e, read_excel f None (Some 10) = Raise e ->
        get_date_from_generation_file f fallback_month fallback_year = Ok PNone
        /\ get_date_from_coal_file f fallback_month fallback_year = Ok PNone).
Proof.
  unfold get_date_from_generation_file, get_date_from_coal_file.
  pose proof (get_date_from_outcome 1 f fallback_month fallback_year) as G.
  pose proof (get_date_from_outcome 2 f fallback_month fallback_year) as C.
  split; [|split; [|split; [|split]]].
  - intros S. destruct (get_date_from 1 f fallback_month fallback_year) as [p|e].
    + exists p. split; [reflexivity | exact G].
    + destruct G as [_ G]. contradiction.
  - intros S. destruct (get_date_from 2 f fallback_month fallback_year) as [p|e].
    + exists p. split; [reflexivity | exact C].
    + destruct C as [_ C]. contradiction.
  - intros p [E | E]; [rewrite E in G; exact G | rewrite E in C; exact C].
  - intros e [E | E]; [rewrite E in G; apply G | rewrite E in C; apply C].
  - intros e E. split; apply (get_date_from_unreadable _ _ _ _ E).
Qed.

Example short_texts_sample :
  short_texts 1 gen_space_07
  /\ get_date_from_generation_file gen_space_07 (T "June") 2024
     = Ok (PDate (mkdate 2024 6 7)).
Proof.
  split; [|reflexivity]. split.
  - apply Nat.leb_le. vm_compute. reflexivity.
  - intros top [= <-]. apply Nat.leb_le. vm_compute. reflexivity.
Qed.

(* ================================================================== *)
(** ** Dates: labels *)
(* ================================================================== *)



Example format_date_label_sample :
  format_date_label (PInt 31) (T "June") 2024 = (Some (T "DAY 31"), None)
  /\ format_date_label (PInt 30) (T "June") 2024
     = (Some (T "30/06/2024"), Some (mkdate 2024 6 30))
  /\ format_date_label (PDate (mkdate 999 6 5)) (T "June") 2024
     = (Some (T "05/06/999"), Some (mkdate 999 6 5)).
Proof. repeat split. Qed.

(* ================================================================== *)
(** ** Dates: the formatted date as a key *)
(* ================================================================== *)

Lemma digit_char_inj (a b : Z) :
  digit_char a = digit_char b -> (a mod 10 = b mod 10)%Z.
Proof.
  unfold digit_char. intros H.
  assert (Ha : (0 <= a mod 10 < 10)%Z) by (apply Z.mod_pos_bound; lia).
  assert (Hb : (0 <= b mod 10 < 10)%Z) by (apply Z.mod_pos_bound; lia).
  apply (f_equal nat_of_ascii) in H.
  rewrite !nat_ascii_embedding in H by lia. lia.
Qed.

Lemma two_digits_inj (a b : Z) :
  (0 <= a < 100)%Z -> (0 <= b < 100)%Z -> two_digits a = two_digits b -> a = b.
Proof.
  intros Ha Hb H. unfold two_digits in H. injection H as H1 H0.
  apply digit_char_inj in H1, H0.
  rewrite (Z.mod_small (a / 10)) in H1 by (split; [apply Z.div_pos | apply Z.div_lt_upper_bound]; lia).
  rewrite (Z.mod_small (b / 10)) in H1 by (split; [apply Z.div_pos | apply Z.div_lt_upper_bound]; lia).
  rewrite (Z.div_mod a 10), (Z.div_mod b 10) by lia. congruence.
Qed.

Lemma decimal_inj (a b : Z) : decimal a = decimal b -> a = b.
Proof.
  unfold decimal, T. intros H.
  apply (f_equal string_of_list_ascii) in H.
  rewrite !string_of_list_ascii_of_string in H.
  apply (f_equal NilEmpty.int_of_string) in H.
  rewrite !NilEmpty.isi in H. injection H as H.
  exact (DecimalZ.to_int_inj _ _ H).
Qed.

Lemma days_in_month_bound (y m : Z) : (days_in_month y m <= 31)%Z.
Proof.
  unfold days_in_month. destruct (m =? 2)%Z; [destruct (is_leap y); lia|].
  destruct (_ || _)%bool; lia.
Qed.

(** X11.  Two days of the calendar with years of four digits that are
    written alike as dd/mm/yyyy are the same day: the formatted date on
    which the two tables are merged stands for exactly one date. *)
Theorem formatted_date_determines_date (d1 d2 : date) :
  is_calendar_date d1 = true -> is_calendar_date d2 = true ->
  (1000 <= year d1)%Z -> (1000 <= year d2)%Z ->
  strftime_dmY d1 = strftime_dmY d2 -> d1 = d2.
Proof.
  unfold is_calendar_date. intros C1 C2 Y1 Y2 H.
  repeat (apply andb_true_iff in C1; destruct C1 as [C1 ?]).
  repeat (apply andb_true_iff in C2; destruct C2 as [C2 ?]).
  pose proof (days_in_month_bound (year d1) (month d1)).
  pose proof (days_in_month_bound (year d2) (month d2)).
  destruct d1 as [y1 m1 dd1], d2 as [y2 m2 dd2]. cbn [year month day] in *.
  unfold strftime_dmY in H. cbn [year month day] in H.
  assert (Hd : two_digits dd1 = two_digits dd2
               /\ two_digits m1 = two_digits m2
               /\ decimal y1 = decimal y2).
  { unfold two_digits in *.
    change (T "/") with ["/"%char] in H. cbn [app] in H.
    injection H as E1 E2 E3 E4 E5.
    rewrite E1, E2, E3, E4, E5. auto. }
  destruct Hd as [Hd [Hm Hy]].
  apply two_digits_inj in Hd; [|lia|lia].
  apply two_digits_inj in Hm; [|lia|lia].
  apply decimal_inj in Hy.
  congruence.
Qed.

Lemma formatted_date_determines_date_witness :
  mkdate 2024 6 7 = mkdate 2024 6 7.
Proof.
  apply formatted_date_determines_date; reflexivity || (cbn [year]; lia).
Defined.

(* ================================================================== *)
(** ** Dates: the fallback month *)
(* ================================================================== *)

Lemma month_index_range (names : list text) (name : text) (i default : Z) :
  (i <= month_index names name i default < i + Z.of_nat (List.length names))%Z
  \/ (month_index names name i default = default /\ ~ In name names).
Proof.
  revert i. induction names as [|m names IH]; intros i.
  - right. split; [reflexivity | intros []].
  - cbn [month_index List.length]. destruct (text_eqb m name) eqn:E.
    + left. lia.
    + destruct (IH (i + 1)%Z) as [H | [H Hn]].
      * left. lia.
      * right. split; [exact H|]. intros [H1 | H1]; [|contradiction].
        apply text_eqb_neq in E. contradiction.
Qed.

Lemma month_index_absent (names : list text) (name : text) (i default : Z) :
  ~ In name names -> month_index names name i default = default.
Proof.
  revert i. induction names as [|m names IH]; intros i H; [reflexivity|].
  cbn [month_index]. destruct (text_eqb m name) eqn:E.
  - exfalso. apply H. left. apply text_eqb_eq, E.
  - apply IH. intros Hin. apply H. right. exact Hin.
Qed.

(** X12.  The month number taken for a fallback month name, whatever its
    letter case, is always between 1 and 12: the position of the name among
    the twelve month names, and 1 (January) for any other text. *)
Theorem fallback_month_number (fallback_month : text) :
  (1 <= month_map_get (lower fallback_month) 1 <= 12)%Z
  /\ (In (lower fallback_month) month_names ->
        nth_error month_names
          (Z.to_nat (month_map_get (lower fallback_month) 1 - 1))
        = Some (lower fallback_month))
  /\ (~ In (lower fallback_month) month_names ->
        month_map_get (lower fallback_month) 1 = 1%Z).
Proof.
  unfold month_map_get. split; [|split].
  - destruct (month_index_range month_names (lower fallback_month) 1 1) as [H | [H _]].
    + cbn [List.length month_names] in H. lia.
    + rewrite H. lia.
  - generalize (lower fallback_month). intros name H. cbn in H.
    repeat (destruct H as [<- | H]; [reflexivity|]). destruct H.
  - apply month_index_absent.
Qed.

(* ================================================================== *)
(** ** The header row of a coal file *)
(* ================================================================== *)

(** Header row [hdr] fits: the sheet read with it (and ten rows) has a
    column whose name contains Thermal or Station. *)
Definition header_fits (f : file) (hdr : nat) : Prop :=
  exists df c,
    read_excel f (Some hdr) (Some 10) = Ok df /\ In c (columns df)
    /\ (occurs (T "Thermal") c \/ occurs (T "Station") c).

Definition header_fitsb (f : file) (hdr : nat) : bool :=
  match read_excel f (Some hdr) (Some 10) with
  | Ok df => existsb names_plants (columns df)
  | Raise _ => false
  end.

Lemma header_fitsb_spec (f : file) (hdr : nat) :
  header_fitsb f hdr = true <-> header_fits f hdr.
Proof.
  unfold header_fitsb, header_fits.
  destruct (read_excel f (Some hdr) (Some 10)) as [df|e].
  - rewrite existsb_exists. split.
    + intros [c [Hc Hn]]. exists df, c. split; [reflexivity|]. split; [exact Hc|].
      unfold names_plants in Hn. apply orb_true_iff in Hn.
      rewrite !contains_spec in Hn. exact Hn.
    + intros [df' [c [[= <-] [Hc Hn]]]]. exists c. split; [exact Hc|].
      unfold names_plants. apply orb_true_iff. rewrite !contains_spec. exact Hn.
  - split; [discriminate|]. intros [df [c [H _]]]. discriminate.
Qed.

Lemma coal_header_loop_find (f : file) (hdrs : list nat) :
  coal_header_loop f hdrs =
  match find (header_fitsb f) hdrs with Some h => h | None => 0 end.
Proof.
  induction hdrs as [|h hdrs IH]; [reflexivity|].
  cbn [coal_header_loop find]. unfold header_fitsb at 1.
  destruct (read_excel f (Some h) (Some 10)) as [df|e].
  - destruct (existsb names_plants (columns df)); [reflexivity | exact IH].
  - exact IH.
Qed.

Lemma find_seq_least (p : nat -> bool) (a n h : nat) :
  find p (seq a n) = Some h ->
  a <= h < a + n /\ p h = true /\ forall k, a <= k < h -> p k = false.
Proof.
  revert a. induction n as [|n IH]; intros a; [discriminate|].
  cbn [seq find]. destruct (p a) eqn:E.
  - intros [= <-]. repeat split; [lia | lia | exact E | intros k Hk; lia].
  - intros H. destruct (IH (S a) H) as [Hr [Hp Hk]].
    repeat split; [lia | lia | exact Hp |].
    intros k Hk'. destruct (Nat.eq_dec k a) as [-> | Hne]; [exact E|].
    apply Hk. lia.
Qed.

(** X13.  [detect_coal_header] returns a row number below 10: the first
    of the rows 0..9 that fits, and 0 when none fits; so a result other
    than 0 always names a row that fits, while 0 does not tell whether
    row 0 fits. *)
Theorem detect_coal_header_first_fit (f : file) :
  detect_coal_header f < 10
  /\ (forall h, h < 10 -> header_fits f h ->
        (forall k, k < h -> ~ header_fits f k) -> detect_coal_header f = h)
  /\ ((forall h, h < 10 -> ~ header_fits f h) -> detect_coal_header f = 0)
  /\ (detect_coal_header f <> 0 -> header_fits f (detect_coal_header f)).
Proof.
  unfold detect_coal_header. rewrite coal_header_loop_find.
  destruct (find (header_fitsb f) (seq 0 10)) as [h0|] eqn:E.
  - destruct (find_seq_least _ _ _ E) as [Hr [Hfit Hleast]].
    apply header_fitsb_spec in Hfit.
    split; [lia|]. split; [|split].
    + intros h Hh Hf Hmin.
      destruct (Nat.lt_trichotomy h0 h) as [Hlt | [Heq | Hgt]]; [|exact Heq|].
      * exfalso. exact (Hmin h0 Hlt Hfit).
      * exfalso. apply header_fitsb_spec in Hf.
        rewrite Hleast in Hf by lia. discriminate.
    + intros Hnone. exfalso. apply (Hnone h0); [lia | exact Hfit].
    + intros _. exact Hfit.
  - split; [lia|]. split; [|split].
    + intros h Hh Hf _. exfalso.
      assert (Hs : In h (seq 0 10)) by (apply in_seq; lia).
      pose proof (find_none _ _ E h Hs) as N. cbn beta in N.
      apply header_fitsb_spec in Hf. congruence.
    + reflexivity.
    + intros H. congruence.
Qed.

(** A coal workbook whose title takes two rows: read with header row 2
    its columns name the station. *)
Definition coal_titled : file :=
  {| name := T "Coal 07.xlsx";
     read_excel := fun header _ =>
       match header with
       | Some 2 =>
           Ok {| columns := [T "Name of Thermal Power Station"; T "Consumption"];
                 rows := [(Str (T "PANIPAT TPS"), [Str (T "3.2")])] |}
       | Some (S (S (S _))) => Raise ValueError
       | _ =>
           Ok {| columns := [T "Daily Coal Report"; T "Unnamed: 1"];
                 rows := [(NaN, [NaN])] |}
       end |}.

Lemma detect_coal_header_first_fit_witness : detect_coal_header coal_titled = 2.
Proof.
  apply (proj1 (proj2 (detect_coal_header_first_fit coal_titled)) 2).
  - lia.
  - apply header_fitsb_spec. reflexivity.
  - intros k Hk Hf. apply header_fitsb_spec in Hf.
    destruct k as [|[|k]]; [discriminate Hf | discriminate Hf | lia].
Defined.

(* ================================================================== *)
(** ** The two loops: one record for each plant and file *)
(* ================================================================== *)

Section Loops.

Variable month_name : text.
Variable year_val : Z.
Variable generation_value : frame -> text -> result text.
Variable coal_value : file -> text -> result text.

(** What a loop body puts in a record besides the metric: the plant asked
    for, its entry of the registry (or Unknown twice), and a label that is
    the date written dd/mm/yyyy when there is a date. *)
Definition record_of (plant : text) (r : data_row) : Prop :=
  row_plant r = plant
  /\ (row_state r, row_region r) = dict_get plant_info plant unknown
  /\ forall d, Date_dt r = Some d -> Date_Label r = strftime_dmY d.

Lemma format_date_label_dated (p : parsed) (m : text) (y : Z) (d : date) :
  snd (format_date_label p m y) = Some d ->
  fst (format_date_label p m y) = Some (strftime_dmY d).
Proof.
  destruct p as [d0 | n |]; cbn [format_date_label].
  - intros [= <-]. reflexivity.
  - destruct (make_date _ _ _); [intros [= <-]; reflexivity | discriminate].
  - discriminate.
Qed.

Lemma generation_row_record (plant : text) (f : file) (r : data_row) :
  generation_row month_name year_val generation_value plant f = Ok r ->
  record_of plant r.
Proof.
  unfold generation_row.
  destruct (get_date_from_generation_file f month_name year_val) as [p|]; [|discriminate].
  cbn [bind].
  pose proof (@format_date_label_dated p month_name year_val) as D.
  destruct (format_date_label p month_name year_val) as [label dt].
  destruct (fst (load_generation_frame f)) as [df|]; [|discriminate]. cbn [bind].
  destruct (generation_value df plant) as [v|]; [|discriminate]. cbn [bind].
  destruct (dict_get plant_info plant unknown) as [state region] eqn:E.
  intros [= <-]. unfold record_of.
  cbn [row_plant row_state row_region Date_dt Date_Label].
  split; [reflexivity|]. split; [symmetry; exact E|].
  intros d Hd. cbn [fst snd] in D. rewrite (D d Hd). reflexivity.
Qed.

Lemma coal_row_record (plant : text) (f : file) (r : data_row) :
  coal_row month_name year_val coal_value plant f = Ok r ->
  record_of plant r.
Proof.
  unfold coal_row.
  destruct (get_date_from_coal_file f month_name year_val) as [p|]; [|discriminate].
  cbn [bind].
  pose proof (@format_date_label_dated p month_name year_val) as D.
  destruct (format_date_label p month_name year_val) as [label dt].
  destruct (coal_value f plant) as [v|]; [|discriminate]. cbn [bind].
  destruct (dict_get plant_info plant unknown) as [state region] eqn:E.
  intros [= <-]. unfold record_of.
  cbn [row_plant row_state row_region Date_dt Date_Label].
  split; [reflexivity|]. split; [symmetry; exact E|].
  intros d Hd. cbn [fst snd] in D. rewrite (D d Hd). reflexivity.
Qed.

(** The plants of the records expected: each plant once per file, plant
    after plant. *)
Definition plants_by_file (plants : list text) (files : list file) : list text :=
  flat_map (fun p => repeat p (List.length files)) plants.

Lemma rows_of_records (body : text -> file -> result data_row)
    (plants : list text) (files : list file) (rows : list data_row) :
  (forall plant f r, body plant f = Ok r -> record_of plant r) ->
  rows_of body plants files = Ok rows ->
  map row_plant rows = plants_by_file plants files
  /\ Forall (fun r => record_of (row_plant r) r) rows.
Proof.
  intros Hbody. unfold rows_of, plants_by_file.
  assert (Inner : forall plant fs out,
             for_each (fun f => r <- body plant f ;; Ok [r]) fs = Ok out ->
             map row_plant out = repeat plant (List.length fs)
             /\ Forall (fun r => record_of (row_plant r) r) out).
  { intros plant fs. induction fs as [|f fs IH]; intros out H.
    - injection H as <-. split; constructor.
    - cbn [for_each] in H. destruct (body plant f) as [r|] eqn:E; [|discriminate].
      cbn [bind] in H.
      destruct (for_each (fun f0 => r0 <- body plant f0 ;; Ok [r0]) fs) as [later|];
        [|discriminate].
      cbn [bind] in H. injection H as <-.
      destruct (IH later eq_refl) as [Hm Hf]. pose proof (Hbody _ _ _ E) as R.
      cbn [app map List.length repeat]. split.
      + rewrite Hm. f_equal. apply R.
      + constructor; [|exact Hf]. destruct R as [Rp R']. rewrite Rp.
        split; [exact Rp | exact R']. }
  revert rows. induction plants as [|plant plants IH]; intros rows H.
  - injection H as <-. split; constructor.
  - cbn [for_each] in H.
    destruct (for_each (fun f => r <- body plant f ;; Ok [r]) files) as [here|] eqn:E;
      [|discriminate].
    cbn [bind] in H.
    destruct (for_each
                (fun plant0 => for_each (fun f => r <- body plant0 f ;; Ok [r]) files)
                plants) as [later|]; [|discriminate].
    cbn [bind] in H. injection H as <-.
    destruct (Inner _ _ _ E) as [Hm Hf]. destruct (IH later eq_refl) as [Hm' Hf'].
    cbn [flat_map]. rewrite map_app, Hm, Hm'. split; [reflexivity|].
    apply Forall_app. split; assumption.
Qed.

Lemma plants_by_file_length (plants : list text) (files : list file) :
  List.length (plants_by_file plants files) = List.length plants * List.length files.
Proof.
  unfold plants_by_file. induction plants as [|p plants IH]; [reflexivity|].
  cbn [flat_map List.length]. rewrite length_app, repeat_length, IH. lia.
Qed.

(** X14.  When a loop ends without an exception it has built one record
    for each pair of a selected plant and a file, plant after plant and,
    for a plant, file after file; each record holds the plant asked for,
    that plant's state and region of the registry (Unknown twice for a
    plant outside it) and, when it has a date, that date written dd/mm/yyyy
    as its label. *)
Theorem one_record_per_plant_and_file (plants : list text) (files : list file)
    (rows : list data_row) :
  rows_of (generation_row month_name year_val generation_value) plants files = Ok rows
  \/ rows_of (coal_row month_name year_val coal_value) plants files = Ok rows ->
  List.length rows = List.length plants * List.length files
  /\ map row_plant rows = plants_by_file plants files
  /\ Forall (fun r => record_of (row_plant r) r) rows.
Proof.
  intros [H | H].
  - destruct (@rows_of_records _ plants files rows generation_row_record H) as [Hm Hf].
    repeat split; try assumption.
    rewrite <- (length_map row_plant), Hm. apply plants_by_file_length.
  - destruct (@rows_of_records _ plants files rows coal_row_record H) as [Hm Hf].
    repeat split; try assumption.
    rewrite <- (length_map row_plant), Hm. apply plants_by_file_length.
Qed.

End Loops.

Definition sample_generation_rows : list data_row :=
  Eval vm_compute in
    match rows_of (generation_row (T "June") 2024 (fun _ _ => Ok (T "12.5000")))
            [T "PANIPAT TPS"; T "ACME CAPTIVE PLANT"] [gen_space_07; gen_underscore_07]
    with
    | Ok rows => rows
    | Raise _ => []
    end.

Lemma one_record_per_plant_and_file_witness :
  List.length sample_generation_rows = 2 * 2
  /\ map row_plant sample_generation_rows
     = plants_by_file [T "PANIPAT TPS"; T "ACME CAPTIVE PLANT"]
         [gen_space_07; gen_underscore_07]
  /\ Forall (fun r => record_of (row_plant r) r) sample_generation_rows.
Proof.
  apply (@one_record_per_plant_and_file (T "June") 2024
           (fun _ _ => Ok (T "12.5000")) (fun _ _ => Ok (T "3.2000"))
           [T "PANIPAT TPS"; T "ACME CAPTIVE PLANT"]
           [gen_space_07; gen_underscore_07] sample_generation_rows).
  left. vm_compute. reflexivity.
Defined.

(** A generation file dated in the year 999: the label of its record is
    the date as [strftime] writes it, with a year of three digits. *)
Definition year_999_file : file :=
  {| name := T "Gen 07.xlsx";
     read_excel := fun _ _ =>
       Ok {| columns := [T "0"; T "1"];
             rows := [(Str (T "Date: 05/06/0999"), [NaN]);
                      (Str (T "PANIPAT TPS"), [Str (T "12.5")])] |} |}.

Example year_999_record :
  option_map (fun r => (Date_Label r, Date_dt r))
    (match generation_row (T "June") 2024 (fun _ _ => Ok (T "12.5000"))
             (T "PANIPAT TPS") year_999_file with
     | Ok r => Some r
     | Raise _ => None
     end)
  = Some (T "05/06/999", Some (mkdate 999 6 5)).
Proof. vm_compute. reflexivity. Qed.

From Stdlib Require Import Permutation Sorted.

(* ================================================================== *)
(** ** The order of a result table *)
(* ================================================================== *)

Lemma text_leb_total (a b : text) : text_leb a b = false -> text_leb b a = true.
Proof.
  revert b. induction a as [|x a IH]; intros b; [discriminate|].
  destruct b as [|y b]; [reflexivity|]. cbn [text_leb].
  destruct (code x <? code y) eqn:E1; [discriminate|].
  destruct (code y <? code x) eqn:E2; [reflexivity|]. apply IH.
Qed.

Lemma text_leb_trans (a b c : text) :
  text_leb a b = true -> text_leb b c = true -> text_leb a c = true.
Proof.
  revert b c. induction a as [|x a IH]; intros b c; [reflexivity|].
  destruct b as [|y b]; [discriminate|]. destruct c as [|z c]; [intros _ H; exact H|].
  cbn [text_leb].
  destruct (code x <? code y) eqn:E1, (code y <? code x) eqn:E1',
           (code y <? code z) eqn:E2, (code z <? code y) eqn:E2',
           (code x <? code z) eqn:E3, (code z <? code x) eqn:E3';
    try reflexivity; try discriminate;
    repeat match goal with
           | H : (_ <? _) = true |- _ => apply Nat.ltb_lt in H
           | H : (_ <? _) = false |- _ => apply Nat.ltb_ge in H
           end;
    try lia.
  apply IH.
Qed.

(** The order of two dates. *)
Definition date_lt (d1 d2 : date) : Prop :=
  (year d1 < year d2
   \/ (year d1 = year d2
       /\ (month d1 < month d2 \/ (month d1 = month d2 /\ day d1 < day d2))))%Z.

Lemma date_ltb_spec (d1 d2 : date) : date_ltb d1 d2 = true <-> date_lt d1 d2.
Proof.
  unfold date_ltb, date_lt.
  rewrite !orb_true_iff, !andb_true_iff, !orb_true_iff, !andb_true_iff,
          !Z.ltb_lt, !Z.eqb_eq.
  reflexivity.
Qed.

Lemma date_ltb_false (d1 d2 : date) : date_ltb d1 d2 = false <-> ~ date_lt d1 d2.
Proof.
  rewrite <- date_ltb_spec. destruct (date_ltb d1 d2); split; intros; congruence.
Qed.

Ltac date_order :=
  repeat match goal with
         | H : date_ltb _ _ = true |- _ => apply date_ltb_spec in H; unfold date_lt in H
         | H : date_ltb _ _ = false |- _ => apply date_ltb_false in H; unfold date_lt in H
         end.

Lemma row_leb_total (a b : data_row) : row_leb a b = false -> row_leb b a = true.
Proof.
  unfold row_leb. destruct (Date_dt a) as [da|], (Date_dt b) as [db|];
    try discriminate; try reflexivity; try apply text_leb_total.
  destruct (date_ltb da db) eqn:E1; [discriminate|].
  destruct (date_ltb db da) eqn:E2; [reflexivity|]. apply text_leb_total.
Qed.

Lemma row_leb_trans (a b c : data_row) :
  row_leb a b = true -> row_leb b c = true -> row_leb a c = true.
Proof.
  unfold row_leb.
  destruct (Date_dt a) as [da|], (Date_dt b) as [db|], (Date_dt c) as [dc|];
    try discriminate; try reflexivity; try apply text_leb_trans.
  destruct (date_ltb da db) eqn:E1, (date_ltb db da) eqn:E1',
           (date_ltb db dc) eqn:E2, (date_ltb dc db) eqn:E2',
           (date_ltb da dc) eqn:E3, (date_ltb dc da) eqn:E3';
    try reflexivity; try discriminate;
    try (intros _ _; exfalso; date_order; lia);
    try (intros _ H; exfalso; date_order; lia);
    try (intros H _; exfalso; date_order; lia).
  apply text_leb_trans.
Qed.

Definition row_le (a b : data_row) : Prop := row_leb a b = true.

Lemma insert_row_perm (r : data_row) (l : list data_row) :
  Permutation (insert_row r l) (r :: l).
Proof.
  induction l as [|y l IH]; [reflexivity|]. cbn [insert_row].
  destruct (row_leb y r); [|reflexivity].
  rewrite IH. apply perm_swap.
Qed.

Lemma insert_row_sorted (r : data_row) (l : list data_row) :
  StronglySorted row_le l -> StronglySorted row_le (insert_row r l).
Proof.
  induction 1 as [|y l Hs IH Hy]; cbn [insert_row].
  - constructor; constructor.
  - destruct (row_leb y r) eqn:E.
    + constructor; [exact IH|].
      apply (Permutation_Forall (Permutation_sym (insert_row_perm r l))).
      constructor; [exact E | exact Hy].
    + apply row_leb_total in E. constructor; [constructor; assumption|].
      constructor; [exact E|].
      eapply Forall_impl; [|exact Hy]. intros z Hz. exact (row_leb_trans _ _ _ E Hz).
Qed.

Lemma fold_insert_perm (l acc : list data_row) :
  Permutation (fold_left (fun acc r => insert_row r acc) l acc) (acc ++ l).
Proof.
  revert acc. induction l as [|r l IH]; intros acc.
  - rewrite app_nil_r. reflexivity.
  - cbn [fold_left]. rewrite IH, insert_row_perm. apply Permutation_middle.
Qed.

Lemma fold_insert_sorted (l acc : list data_row) :
  StronglySorted row_le acc ->
  StronglySorted row_le (fold_left (fun acc r => insert_row r acc) l acc).
Proof.
  revert acc. induction l as [|r l IH]; intros acc H; [exact H|].
  cbn [fold_left]. apply IH, insert_row_sorted, H.
Qed.

Lemma sorted_later (R : data_row -> data_row -> Prop) (pre mid post : list data_row)
    (r1 r2 : data_row) :
  StronglySorted R (pre ++ r1 :: mid ++ r2 :: post) -> R r1 r2.
Proof.
  induction pre as [|x pre IH]; cbn [app]; intros H.
  - apply StronglySorted_inv in H. destruct H as [_ H].
    rewrite Forall_forall in H. apply H. apply in_elt.
  - apply StronglySorted_inv in H. apply IH, H.
Qed.

(** X15.  [sort_values] rearranges the records without losing or adding
    any, and leaves them ordered by date, then by plant name (by code
    point); records without a date come after all dated ones. *)
Theorem sort_values_orders_records (data : list data_row) :
  Permutation (sort_values data) data
  /\ StronglySorted row_le (sort_values data)
  /\ (forall pre r1 mid r2 post,
        sort_values data = pre ++ r1 :: mid ++ r2 :: post ->
        row_le r1 r2 /\ (Date_dt r1 = None -> Date_dt r2 = None)).
Proof.
  assert (S : StronglySorted row_le (sort_values data))
    by (apply fold_insert_sorted; constructor).
  split; [|split].
  - unfold sort_values. rewrite fold_insert_perm. reflexivity.
  - exact S.
  - intros pre r1 mid r2 post E. rewrite E in S.
    pose proof (sorted_later _ _ _ _ _ S) as R. split; [exact R|].
    unfold row_le, row_leb in R. intros H1. rewrite H1 in R.
    destruct (Date_dt r2); [discriminate | reflexivity].
Qed.

Example sort_values_sample :
  map (fun r => (Date_dt r, row_plant r))
      (sort_values
         [ {| Date_Label := T "Gen_x"; Date_dt := None; row_state := [];
              row_plant := T "KOTA TPS"; row_region := []; row_value := [] |};
           {| Date_Label := []; Date_dt := Some (mkdate 2024 6 8); row_state := [];
              row_plant := T "KOTA TPS"; row_region := []; row_value := [] |};
           {| Date_Label := []; Date_dt := Some (mkdate 2024 6 7); row_state := [];
              row_plant := T "OBRA TPS"; row_region := []; row_value := [] |};
           {| Date_Label := []; Date_dt := Some (mkdate 2024 6 7); row_state := [];
              row_plant := T "KOTA TPS"; row_region := []; row_value := [] |} ])
  = [(Some (mkdate 2024 6 7), T "KOTA TPS"); (Some (mkdate 2024 6 7), T "OBRA TPS");
     (Some (mkdate 2024 6 8), T "KOTA TPS"); (None, T "KOTA TPS")].
Proof. reflexivity. Qed.

(* ================================================================== *)
(** ** The registry filter and the tables of a run *)
(* ================================================================== *)

(** X16.  The registry filter keeps every row whose plant is a key of
    [plant_info] and no other; it changes nothing in a table that names
    registry plants only, and filtering twice is filtering once. *)
Theorem registry_filter_keeps_registry_rows (df : list table_row) :
  (forall r, In r (registry_filter df) <->
             In r df /\ In (Thermal_Plant r) (map fst plant_info))
  /\ ((forall r, In r df -> In (Thermal_Plant r) (map fst plant_info)) ->
      registry_filter df = df)
  /\ registry_filter (registry_filter df) = registry_filter df.
Proof.
  assert (Id : forall t : list table_row,
             (forall r, In r t -> In (Thermal_Plant r) (map fst plant_info)) ->
             registry_filter t = t).
  { intros t H. unfold registry_filter. destruct t as [|r0 t]; [reflexivity|].
    apply forallb_filter_id. apply forallb_forall. intros r Hr.
    apply isin_spec. apply H. exact Hr. }
  split; [|split].
  - intros r. apply registry_filter_in.
  - apply Id.
  - apply Id. intros r Hr. apply registry_filter_in in Hr. apply Hr.
Qed.

Lemma dict_get_in (V : Type) (d : list (text * V)) (k : text) (default : V) :
  In k (map fst d) -> In (k, dict_get d k default) d.
Proof.
  induction d as [|[k' v] d IH]; intros H; [destruct H|].
  cbn [dict_get]. destruct (text_eqb k' k) eqn:E.
  - apply text_eqb_eq in E. subst. left. reflexivity.
  - right. apply IH. destruct H as [H | H]; [|exact H].
    cbn [fst] in H. apply text_eqb_neq in E. contradiction.
Qed.

Lemma sort_values_in (data : list data_row) (r : data_row) :
  In r (sort_values data) <-> In r data.
Proof.
  assert (P : Permutation (sort_values data) data).
  { unfold sort_values. rewrite fold_insert_perm. reflexivity. }
  split; intros H.
  - exact (Permutation_in _ P H).
  - exact (Permutation_in _ (Permutation_sym P) H).
Qed.

Lemma sort_values_length (data : list data_row) :
  List.length (sort_values data) = List.length data.
Proof.
  apply Permutation_length. unfold sort_values. rewrite fold_insert_perm. reflexivity.
Qed.

(** The row of a result table made from a record. *)
Definition table_row_of (r : data_row) : table_row :=
  {| Date := match Date_dt r with
             | Some d => strftime_dmY d
             | None => Date_Label r
             end;
     State_Name := row_state r;
     Thermal_Plant := row_plant r;
     Region := row_region r;
     Metric := row_value r |}.

Lemma result_table_map (data : list data_row) :
  result_table data = map table_row_of (sort_values data).
Proof.
  destruct data; reflexivity.
Qed.

Lemma result_table_in (data : list data_row) (t : table_row) :
  In t (result_table data) <-> exists r, In r data /\ t = table_row_of r.
Proof.
  rewrite result_table_map, in_map_iff. split.
  - intros [r [E H]]. exists r. split; [apply sort_values_in, H | auto].
  - intros [r [H E]]. exists r. split; [auto | apply sort_values_in, H].
Qed.

Lemma result_table_length (data : list data_row) :
  List.length (result_table data) = List.length data.
Proof.
  rewrite result_table_map, length_map. apply sort_values_length.
Qed.

Section Run.

Variable month_name : text.
Variable year_val : Z.
Variable generation_value : frame -> text -> result text.
Variable coal_value : file -> text -> result text.

(** A run that ends well is the presentation of the records of the two
    loops. *)
Lemma run_records (selected_gen_plants selected_coal_plants : list text)
    (generation_files coal_files : list file) (out : outputs) :
  generate_final_dataset month_name year_val generation_value coal_value
    selected_gen_plants selected_coal_plants generation_files coal_files = Ok out ->
  exists gen_data coal_data,
    rows_of (generation_row month_name year_val generation_value)
      selected_gen_plants generation_files = Ok gen_data
    /\ rows_of (coal_row month_name year_val coal_value)
         selected_coal_plants coal_files = Ok coal_data
    /\ out = present gen_data coal_data.
Proof.
  unfold generate_final_dataset. intros H.
  destruct (rows_of _ selected_gen_plants generation_files) as [gen_data|];
    [|discriminate].
  destruct (rows_of _ selected_coal_plants coal_files) as [coal_data|];
    [|discriminate].
  cbn [bind] in H. injection H as <-. exists gen_data, coal_data. auto.
Qed.

Lemma table_rows_from_registry (data : list data_row) (t : table_row) :
  Forall (fun r => record_of (row_plant r) r) data ->
  In t (registry_filter (result_table data)) ->
  In (Thermal_Plant t, (State_Name t, Region t)) plant_info.
Proof.
  intros Hrec Ht. apply registry_filter_in in Ht. destruct Ht as [Ht Hp].
  apply result_table_in in Ht. destruct Ht as [r [Hr ->]].
  cbn [table_row_of Thermal_Plant State_Name Region] in *.
  rewrite Forall_forall in Hrec. destruct (Hrec r Hr) as [_ [Hsr _]].
  rewrite Hsr. apply dict_get_in. exact Hp.
Qed.

(** X17.  In the two tables of a run every row carries the state and the
    region that [plant_info] gives for its plant: the placeholder Unknown,
    put in the records of plants outside the registry, never reaches a
    table. *)
Theorem tables_carry_registry_state_and_region
    (selected_gen_plants selected_coal_plants : list text)
    (generation_files coal_files : list file) (out : outputs) :
  generate_final_dataset month_name year_val generation_value coal_value
    selected_gen_plants selected_coal_plants generation_files coal_files = Ok out ->
  forall t, In t (table1 out) \/ In t (table2 out) ->
    In (Thermal_Plant t, (State_Name t, Region t)) plant_info.
Proof.
  intros H t Ht. apply run_records in H.
  destruct H as [gen_data [coal_data [Hg [Hc ->]]]].
  unfold present in Ht. cbn [table1 table2] in Ht.
  destruct Ht as [Ht | Ht].
  - apply (@table_rows_from_registry gen_data); [|exact Ht].
    exact (proj2 (@rows_of_records _ _ _ _
                    (@generation_row_record month_name year_val generation_value) Hg)).
  - apply (@table_rows_from_registry coal_data); [|exact Ht].
    exact (proj2 (@rows_of_records _ _ _ _
                    (@coal_row_record month_name year_val coal_value) Hc)).
Qed.


Lemma filter_perm (A : Type) (f : A -> bool) (l l' : list A) :
  Permutation l l' -> Permutation (filter f l) (filter f l').
Proof.
  induction 1 as [|x l l' _ IH|x y l|l l' l'' _ IH1 _ IH2]; cbn [filter].
  - constructor.
  - destruct (f x); [constructor|]; exact IH.
  - destruct (f x), (f y); try reflexivity. apply perm_swap.
  - exact (Permutation_trans IH1 IH2).
Qed.

Lemma filter_plants_by_file (f : text -> bool) (plants : list text) (files : list file) :
  filter f (plants_by_file plants files) = plants_by_file (filter f plants) files.
Proof.
  unfold plants_by_file. induction plants as [|p plants IH]; [reflexivity|].
  cbn [flat_map filter]. rewrite filter_app, IH.
  assert (R : forall n, filter f (repeat p n) = if f p then repeat p n else []).
  { induction n as [|n IHn]; cbn [repeat filter].
    - destruct (f p); reflexivity.
    - rewrite IHn. destruct (f p); reflexivity. }
  rewrite R. destruct (f p); reflexivity.
Qed.

Lemma registry_filter_plants (df : list table_row) :
  map Thermal_Plant (registry_filter df)
  = filter (fun p => isin p allowed_plants) (map Thermal_Plant df).
Proof.
  unfold registry_filter. destruct df as [|r0 df]; [reflexivity|].
  rewrite filter_map_swap. reflexivity.
Qed.

Lemma table_plants (data : list data_row) (plants : list text) (files : list file) :
  map row_plant data = plants_by_file plants files ->
  Permutation (map Thermal_Plant (registry_filter (result_table data)))
    (plants_by_file (filter (fun p => isin p allowed_plants) plants) files).
Proof.
  intros H. rewrite registry_filter_plants, result_table_map, map_map.
  rewrite <- filter_plants_by_file, <- H. apply filter_perm.
  change (fun x => Thermal_Plant (table_row_of x)) with row_plant.
  apply Permutation_map. unfold sort_values. rewrite fold_insert_perm. reflexivity.
Qed.

(** X18.  A run leaves in each table exactly one row for every pair of a
    selected plant that is a key of [plant_info] and a file: nothing of the
    registry is lost between the loops and the tables, and nothing is
    repeated. *)
Theorem tables_hold_one_row_per_registry_plant_and_file
    (selected_gen_plants selected_coal_plants : list text)
    (generation_files coal_files : list file) (out : outputs) :
  generate_final_dataset month_name year_val generation_value coal_value
    selected_gen_plants selected_coal_plants generation_files coal_files = Ok out ->
  (Permutation (map Thermal_Plant (table1 out))
     (plants_by_file (filter (fun p => isin p allowed_plants) selected_gen_plants)
        generation_files)
   /\ List.length (table1 out)
      = List.length (filter (fun p => isin p allowed_plants) selected_gen_plants)
        * List.length generation_files)
  /\ (Permutation (map Thermal_Plant (table2 out))
        (plants_by_file (filter (fun p => isin p allowed_plants) selected_coal_plants)
           coal_files)
      /\ List.length (table2 out)
         = List.length (filter (fun p => isin p allowed_plants) selected_coal_plants)
           * List.length coal_files).
Proof.
  intros H. apply run_records in H.
  destruct H as [gen_data [coal_data [Hg [Hc ->]]]].
  unfold present. cbn [table1 table2].
  pose proof (proj1 (@rows_of_records _ _ _ _
                       (@generation_row_record month_name year_val generation_value) Hg))
    as Pg.
  pose proof (proj1 (@rows_of_records _ _ _ _
                       (@coal_row_record month_name year_val coal_value) Hc)) as Pc.
  apply table_plants in Pg. apply table_plants in Pc.
  split; (split; [assumption|]).
  - rewrite <- (length_map Thermal_Plant), (Permutation_length Pg).
    apply plants_by_file_length.
  - rewrite <- (length_map Thermal_Plant), (Permutation_length Pc).
    apply plants_by_file_length.
Qed.

End Run.

Lemma tables_carry_registry_state_and_region_witness :
  map (fun t => (Thermal_Plant t, (State_Name t, Region t))) (table1 sample_out)
  = [(T "PANIPAT TPS", (T "Haryana", T "NORTHERN"))]
  /\ (forall t, In t (table1 sample_out) \/ In t (table2 sample_out) ->
        In (Thermal_Plant t, (State_Name t, Region t)) plant_info).
Proof.
  split; [reflexivity|].
  apply (@tables_carry_registry_state_and_region (T "June") 2024
           (fun _ _ => Ok (T "12.5000")) (fun _ _ => Ok (T "3.2000"))
           [T "PANIPAT TPS"; T "ACME CAPTIVE PLANT"]
           [T "ACME CAPTIVE PLANT"; T "PANIPAT TPS"]
           [gen_space_07] [coal_07] sample_out).
  vm_compute. reflexivity.
Defined.

(** A run on two generation files and one coal file, for two plants of the
    registry and one outside it. *)
Definition two_file_out : outputs :=
  Eval vm_compute in
    match generate_final_dataset (T "June") 2024
            (fun _ _ => Ok (T "12.5000")) (fun _ _ => Ok (T "3.2000"))
            [T "PANIPAT TPS"; T "ACME CAPTIVE PLANT"; T "KOTA TPS"] [T "KOTA TPS"]
            [gen_space_07; gen_underscore_07] [coal_07]
    with
    | Ok out => out
    | Raise _ => {| table1 := []; table2 := []; merged_table := []; export := [] |}
    end.

Lemma tables_hold_one_row_per_registry_plant_and_file_witness :
  (Permutation (map Thermal_Plant (table1 two_file_out))
     [T "PANIPAT TPS"; T "PANIPAT TPS"; T "KOTA TPS"; T "KOTA TPS"]
   /\ List.length (table1 two_file_out) = 2 * 2)
  /\ (Permutation (map Thermal_Plant (table2 two_file_out)) [T "KOTA TPS"]
      /\ List.length (table2 two_file_out) = 1 * 1).
Proof.
  apply (@tables_hold_one_row_per_registry_plant_and_file (T "June") 2024
           (fun _ _ => Ok (T "12.5000")) (fun _ _ => Ok (T "3.2000"))
           [T "PANIPAT TPS"; T "ACME CAPTIVE PLANT"; T "KOTA TPS"] [T "KOTA TPS"]
           [gen_space_07; gen_underscore_07] [coal_07] two_file_out).
  vm_compute. reflexivity.
Defined.

(* ================================================================== *)
(** ** The generation rows in the merge *)
(* ================================================================== *)

(** The generation columns of a merged row. *)
Definition generation_part (m : merged_row) : table_row :=
  {| Date := m_Date m; State_Name := m_State_Name m;
     Thermal_Plant := m_Thermal_Plant m; Region := m_Region m;
     Metric := m_Generation m |}.

(** The key the merge joins on. *)
Definition merge_key (r : table_row) : text * text := (Date r, Thermal_Plant r).

Lemma generation_part_with_coal (g : table_row) (c : cell) :
  generation_part (with_coal g c) = g.
Proof.
  destruct g. reflexivity.
Qed.

Lemma joined_generation_part (coal : list table_row) (g : table_row) :
  map generation_part (joined coal g)
  = repeat g (Nat.max 1 (List.length (filter (same_key g) coal))).
Proof.
  unfold joined. destruct (filter (same_key g) coal) as [|h hits];
    [cbn [map]; rewrite generation_part_with_coal; reflexivity|].
  change (Nat.max 1 (List.length (h :: hits))) with (List.length (h :: hits)).
  rewrite map_map. generalize (h :: hits). intros l.
  induction l as [|c l IH]; [reflexivity|].
  cbn [map List.length repeat]. rewrite generation_part_with_coal, IH. reflexivity.
Qed.

Lemma unique_key_hits (coal : list table_row) (g : table_row) :
  NoDup (map merge_key coal) -> List.length (filter (same_key g) coal) <= 1.
Proof.
  induction coal as [|c coal IH]; intros H; [cbn; lia|].
  cbn [map] in H. apply NoDup_cons_iff in H. destruct H as [Hc H].
  cbn [filter]. destruct (same_key g c) eqn:K; [|exact (IH H)].
  assert (E : filter (same_key g) coal = []).
  { destruct (filter (same_key g) coal) as [|c' rest] eqn:F; [reflexivity|].
    exfalso. apply Hc.
    assert (Hin : In c' (filter (same_key g) coal)) by (rewrite F; left; reflexivity).
    apply filter_In in Hin. destruct Hin as [Hin K'].
    apply same_key_spec in K. apply same_key_spec in K'.
    apply in_map_iff. exists c'. split; [|exact Hin].
    unfold merge_key. destruct K as [Kd Kp], K' as [Kd' Kp']. congruence. }
  rewrite E. cbn. lia.
Qed.

(** X19.  The left merge keeps every generation row, in the order of the
    generation table: a row appears once, or as many times as the coal
    table has rows with its date and plant.  When no two coal rows share a
    date and a plant, the generation columns of the merge are the
    generation table itself. *)
Theorem merge_keeps_generation_rows (gen coal : list table_row) :
  map generation_part (merged gen coal)
  = flat_map
      (fun g => repeat g (Nat.max 1 (List.length (filter (same_key g) coal)))) gen
  /\ List.length gen <= List.length (merged gen coal)
  /\ (NoDup (map merge_key coal) -> map generation_part (merged gen coal) = gen).
Proof.
  assert (E : map generation_part (merged gen coal)
              = flat_map
                  (fun g => repeat g (Nat.max 1 (List.length (filter (same_key g) coal))))
                  gen).
  { rewrite merged_flat_map. induction gen as [|g gen IH]; [reflexivity|].
    cbn [flat_map]. rewrite map_app, joined_generation_part, IH. reflexivity. }
  split; [exact E|]. split.
  - rewrite <- (length_map generation_part), E. clear E.
    induction gen as [|g gen IH]; [cbn; lia|].
    cbn [flat_map List.length]. rewrite length_app, repeat_length. lia.
  - intros H. rewrite E. clear E. induction gen as [|g gen IH]; [reflexivity|].
    cbn [flat_map]. rewrite IH.
    pose proof (@unique_key_hits coal g H) as L.
    destruct (List.length (filter (same_key g) coal)) as [|[|n]]; [reflexivity..|lia].
Qed.

Example merge_repeats_generation_row :
  let g := {| Date := T "07/06/2024"; State_Name := T "Haryana";
              Thermal_Plant := T "PANIPAT TPS"; Region := T "NORTHERN";
              Metric := T "12.5000" |} in
  let c v := {| Date := T "07/06/2024"; State_Name := T "Haryana";
                Thermal_Plant := T "PANIPAT TPS"; Region := T "NORTHERN";
                Metric := v |} in
  map m_Coal (merged [g] [c (T "3.2000"); c (T "4.1000")])
  = [Str (T "3.2000"); Str (T "4.1000")].
Proof. reflexivity. Qed.

(* ================================================================== *)
(** ** The menu and the entry All *)
(* ================================================================== *)

Lemma insert_text_perm (x : text) (l : list text) :
  Permutation (insert_text x l) (x :: l).
Proof.
  induction l as [|y l IH]; cbn [insert_text]; [reflexivity|].
  destruct (text_leb y x); [|reflexivity]. rewrite IH. apply perm_swap.
Qed.

Lemma insert_text_sorted (x : text) (l : list text) :
  StronglySorted (fun a b => text_leb a b = true) l ->
  StronglySorted (fun a b => text_leb a b = true) (insert_text x l).
Proof.
  induction 1 as [|y l Hs IH Hy]; cbn [insert_text].
  - constructor; constructor.
  - destruct (text_leb y x) eqn:E.
    + constructor; [exact IH|].
      apply (Permutation_Forall (Permutation_sym (insert_text_perm x l))).
      constructor; [exact E | exact Hy].
    + apply text_leb_total in E. constructor; [constructor; assumption|].
      constructor; [exact E|].
      eapply Forall_impl; [|exact Hy]. intros z Hz. exact (text_leb_trans _ _ _ E Hz).
Qed.

Lemma sorted_perm (l : list text) : Permutation (sorted l) l.
Proof.
  unfold sorted.
  assert (G : forall acc, Permutation (fold_left (fun acc x => insert_text x acc) l acc)
                            (acc ++ l)).
  { induction l as [|x l IH]; intros acc.
    - rewrite app_nil_r. reflexivity.
    - cbn [fold_left]. rewrite IH, insert_text_perm. apply Permutation_middle. }
  exact (G []).
Qed.

Lemma sorted_sorted (l : list text) :
  StronglySorted (fun a b => text_leb a b = true) (sorted l).
Proof.
  unfold sorted.
  assert (G : forall acc, StronglySorted (fun a b => text_leb a b = true) acc ->
                StronglySorted (fun a b => text_leb a b = true)
                  (fold_left (fun acc x => insert_text x acc) l acc)).
  { induction l as [|x l IH]; intros acc H; [exact H|].
    cbn [fold_left]. apply IH, insert_text_sorted, H. }
  apply G. constructor.
Qed.

Lemma combined_plants_perm : Permutation combined_plants (map fst plant_info).
Proof.
  exact (sorted_perm allowed_plants).
Qed.

Lemma combined_plants_sorted :
  StronglySorted (fun a b => text_leb a b = true) combined_plants.
Proof.
  exact (sorted_sorted allowed_plants).
Qed.

Lemma combined_plants_in (p : text) :
  In p combined_plants <-> In p (map fst plant_info).
Proof.
  split; intros H.
  - exact (Permutation_in _ combined_plants_perm H).
  - exact (Permutation_in _ (Permutation_sym combined_plants_perm) H).
Qed.

Lemma all_is_no_plant : ~ In (T "All") (map fst plant_info).
Proof.
  intros H. apply isin_spec in H. vm_compute in H. discriminate H.
Qed.

Lemma interpret_all_registry (sel : list text) :
  (forall p, In p sel -> In p menu) ->
  forall p, In p (interpret_all sel) -> In p (map fst plant_info).
Proof.
  intros Hsel p. unfold interpret_all. destruct (isin (T "All") sel) eqn:E; intros Hp.
  - exact (proj1 (combined_plants_in p) Hp).
  - destruct (Hsel p Hp) as [<- | H].
    + apply isin_spec in Hp. rewrite Hp in E. discriminate.
    + exact (proj1 (combined_plants_in p) H).
Qed.

(** X20.  Whatever is picked in a multiselect of the menu, the loops run
    over keys of [plant_info] only, and never over the entry All itself;
    when All is among the picks they run over every key of [plant_info],
    each once, in the order of the menu (by code point), and without All
    over the picks as they are. *)
Theorem interpret_all_gives_registry_plants (sel : list text) :
  (forall p, In p sel -> In p menu) ->
  (forall p, In p (interpret_all sel) -> In p (map fst plant_info))
  /\ ~ In (T "All") (interpret_all sel)
  /\ (In (T "All") sel ->
      Permutation (interpret_all sel) (map fst plant_info)
      /\ StronglySorted (fun a b => text_leb a b = true) (interpret_all sel)
      /\ T "All" :: interpret_all sel = menu)
  /\ (~ In (T "All") sel -> interpret_all sel = sel).
Proof.
  intros Hsel. unfold interpret_all.
  destruct (isin (T "All") sel) eqn:E.
  - split; [|split; [|split]].
    + intros p Hp. exact (proj1 (combined_plants_in p) Hp).
    + intros H. exact (all_is_no_plant (proj1 (combined_plants_in _) H)).
    + intros _. split; [exact combined_plants_perm|].
      split; [exact combined_plants_sorted | reflexivity].
    + intros H. exfalso. apply H. apply isin_spec. exact E.
  - assert (N : ~ In (T "All") sel).
    { intros H. apply isin_spec in H. rewrite H in E. discriminate. }
    split; [|split; [|split]].
    + intros p Hp. destruct (Hsel p Hp) as [<- | H]; [contradiction|].
      exact (proj1 (combined_plants_in p) H).
    + exact N.
    + intros H. contradiction.
    + intros _. reflexivity.
Qed.

Lemma interpret_all_gives_registry_plants_witness :
  (forall p, In p (interpret_all [T "KOTA TPS"; T "All"]) -> In p (map fst plant_info))
  /\ (In (T "All") (interpret_all [T "KOTA TPS"; T "All"]) -> False)
  /\ (In (T "All") [T "KOTA TPS"; T "All"] ->
      Permutation (interpret_all [T "KOTA TPS"; T "All"]) (map fst plant_info)
      /\ StronglySorted (fun a b => text_leb a b = true)
           (interpret_all [T "KOTA TPS"; T "All"])
      /\ T "All" :: interpret_all [T "KOTA TPS"; T "All"] = menu)
  /\ ((In (T "All") [T "KOTA TPS"; T "All"] -> False) ->
      interpret_all [T "KOTA TPS"; T "All"] = [T "KOTA TPS"; T "All"]).
Proof.
  apply (interpret_all_gives_registry_plants [T "KOTA TPS"; T "All"]).
  intros p [<- | [<- | []]].
  - right. apply (proj2 (combined_plants_in _)). apply isin_spec.
    vm_compute. reflexivity.
  - left. reflexivity.
Defined.

Lemma registry_plants_unfiltered (plants : list text) :
  (forall p, In p plants -> In p (map fst plant_info)) ->
  filter (fun p => isin p allowed_plants) plants = plants.
Proof.
  intros H. apply forallb_filter_id. apply forallb_forall. intros p Hp.
  apply isin_spec. exact (H p Hp).
Qed.

(** X21.  With both selections picked from the menu, a run that ends well
    shows in each table one row for every pair of a plant the loop ran over
    and a file: the registry filter drops no record, and the merged table
    has at least the rows of Table 1. *)
Theorem menu_selection_loses_no_record (month_name : text) (year_val : Z)
    (generation_value : frame -> text -> result text)
    (coal_value : file -> text -> result text)
    (sel_gen sel_coal : list text) (generation_files coal_files : list file)
    (out : outputs) :
  (forall p, In p sel_gen -> In p menu) ->
  (forall p, In p sel_coal -> In p menu) ->
  generate_final_dataset month_name year_val generation_value coal_value
    (interpret_all sel_gen) (interpret_all sel_coal) generation_files coal_files
  = Ok out ->
  List.length (table1 out)
  = List.length (interpret_all sel_gen) * List.length generation_files
  /\ List.length (table2 out)
     = List.length (interpret_all sel_coal) * List.length coal_files
  /\ List.length (table1 out) <= List.length (export out).
Proof.
  intros Hg Hc H. apply run_records in H.
  destruct H as [gen_data [coal_data [Rg [Rc ->]]]].
  unfold present. cbn [table1 table2 export].
  pose proof (proj1 (@rows_of_records _ _ _ _
                       (@generation_row_record month_name year_val generation_value) Rg))
    as Pg.
  pose proof (proj1 (@rows_of_records _ _ _ _
                       (@coal_row_record month_name year_val coal_value) Rc)) as Pc.
  apply table_plants in Pg. apply table_plants in Pc.
  rewrite (@registry_plants_unfiltered _ (@interpret_all_registry _ Hg)) in Pg.
  rewrite (@registry_plants_unfiltered _ (@interpret_all_registry _ Hc)) in Pc.
  split; [|split].
  - rewrite <- (length_map Thermal_Plant), (Permutation_length Pg).
    apply plants_by_file_length.
  - rewrite <- (length_map Thermal_Plant), (Permutation_length Pc).
    apply plants_by_file_length.
  - unfold to_excel. rewrite length_map, merged_flat_map.
    generalize (registry_filter (result_table gen_data)). intros gen.
    induction gen as [|g gen IH]; [cbn; lia|].
    cbn [flat_map List.length]. rewrite length_app.
    assert (1 <= List.length (joined (registry_filter (result_table coal_data)) g)).
    { unfold joined.
      destruct (filter (same_key g) (registry_filter (result_table coal_data)));
        cbn [List.length map]; lia. }
    lia.
Qed.

Definition menu_out : outputs :=
  Eval vm_compute in
    match generate_final_dataset (T "June") 2024
            (fun _ _ => Ok (T "12.5000")) (fun _ _ => Ok (T "3.2000"))
            (interpret_all [T "KOTA TPS"; T "PANIPAT TPS"]) (interpret_all [T "All"])
            [gen_space_07; gen_underscore_07] [coal_07]
    with
    | Ok out => out
    | Raise _ => {| table1 := []; table2 := []; merged_table := []; export := [] |}
    end.

Lemma menu_selection_loses_no_record_witness :
  List.length (table1 menu_out)
  = List.length (interpret_all [T "KOTA TPS"; T "PANIPAT TPS"]) * 2
  /\ List.length (table2 menu_out) = List.length (interpret_all [T "All"]) * 1
  /\ List.length (table1 menu_out) <= List.length (export menu_out).
Proof.
  apply (@menu_selection_loses_no_record (T "June") 2024
           (fun _ _ => Ok (T "12.5000")) (fun _ _ => Ok (T "3.2000"))
           [T "KOTA TPS"; T "PANIPAT TPS"] [T "All"]
           [gen_space_07; gen_underscore_07] [coal_07] menu_out).
  - intros p [<- | [<- | []]]; right; apply (proj2 (combined_plants_in _));
      apply isin_spec; vm_compute; reflexivity.
  - intros p [<- | []]. left. reflexivity.
  - vm_compute. reflexivity.
Defined.

(* ================================================================== *)
(** ** The callbacks of the two multiselects *)
(* ================================================================== *)

Lemma set_eqb_spec (a b : list text) :
  set_eqb a b = true <-> (forall x, In x a <-> In x b).
Proof.
  unfold set_eqb. rewrite andb_true_iff, !forallb_forall. split.
  - intros [H1 H2] x. split; intros H.
    + apply isin_spec, H1, H.
    + apply isin_spec, H2, H.
  - intros H. split; intros x Hx; apply isin_spec, H, Hx.
Qed.

Lemma all_in_menu : isin (T "All") menu = true.
Proof.
  unfold menu. cbn [isin existsb]. rewrite text_eqb_refl. reflexivity.
Qed.

Lemma on_change_menu : on_change menu = menu.
Proof.
  unfold on_change. destruct (isin (T "All") menu && negb (set_eqb menu menu));
    reflexivity.
Qed.

(** X22.  The callback of a multiselect never changes which plants a run
    processes: the loops run over the same list after it as before it.  It
    leaves a selection without All as it is, turns one with All into a
    selection with exactly the entries of the menu, and running it twice is
    running it once. *)
Theorem on_change_keeps_processed_plants (sel : list text) :
  interpret_all (on_change sel) = interpret_all sel
  /\ on_change (on_change sel) = on_change sel
  /\ (In (T "All") sel -> forall p, In p (on_change sel) <-> In p menu)
  /\ (~ In (T "All") sel -> on_change sel = sel).
Proof.
  destruct (isin (T "All") sel) eqn:A.
  - destruct (set_eqb sel menu) eqn:S.
    + assert (E : on_change sel = sel) by (unfold on_change; rewrite A, S; reflexivity).
      rewrite !E. split; [reflexivity|]. split; [reflexivity|]. split.
      * intros _. apply set_eqb_spec. exact S.
      * intros _. reflexivity.
    + assert (E : on_change sel = menu) by (unfold on_change; rewrite A, S; reflexivity).
      rewrite !E. split; [|split; [|split]].
      * unfold interpret_all. rewrite all_in_menu, A. reflexivity.
      * exact on_change_menu.
      * intros _ p. reflexivity.
      * intros H. exfalso. apply H. apply isin_spec. exact A.
  - assert (E : on_change sel = sel) by (unfold on_change; rewrite A; reflexivity).
    rewrite !E. split; [reflexivity|]. split; [reflexivity|]. split.
    + intros H. apply isin_spec in H. rewrite H in A. discriminate.
    + intros _. reflexivity.
Qed.

Example on_change_fills_selection :
  on_change [T "KOTA TPS"; T "All"] = menu
  /\ on_change [T "KOTA TPS"; T "OBRA TPS"] = [T "KOTA TPS"; T "OBRA TPS"].
Proof.
  split; vm_compute; reflexivity.
Qed.

(* ================================================================== *)
(** ** The order of the uploads *)
(* ================================================================== *)

Definition name_le (f g : file) : Prop := text_leb (name f) (name g) = true.

Lemma text_leb_antisym (a b : text) :
  text_leb a b = true -> text_leb b a = true -> a = b.
Proof.
  revert b. induction a as [|x a IH]; intros [|y b]; cbn [text_leb];
    try discriminate; [reflexivity|].
  destruct (code x <? code y) eqn:E1, (code y <? code x) eqn:E2; try discriminate.
  - apply Nat.ltb_lt in E1, E2. lia.
  - intros H1 H2. apply Nat.ltb_ge in E1, E2.
    assert (E : code x = code y) by lia. unfold code in E.
    rewrite <- (ascii_nat_embedding x), <- (ascii_nat_embedding y), E.
    f_equal. apply IH; assumption.
Qed.

Lemma insert_file_perm (f : file) (l : list file) :
  Permutation (insert_file f l) (f :: l).
Proof.
  induction l as [|g l IH]; cbn [insert_file]; [reflexivity|].
  destruct (text_leb (name g) (name f)); [|reflexivity]. rewrite IH. apply perm_swap.
Qed.

Lemma insert_file_sorted (f : file) (l : list file) :
  StronglySorted name_le l -> StronglySorted name_le (insert_file f l).
Proof.
  induction 1 as [|g l Hs IH Hg]; cbn [insert_file].
  - constructor; constructor.
  - destruct (text_leb (name g) (name f)) eqn:E.
    + constructor; [exact IH|].
      apply (Permutation_Forall (Permutation_sym (insert_file_perm f l))).
      constructor; [exact E | exact Hg].
    + apply text_leb_total in E. constructor; [constructor; assumption|].
      constructor; [exact E|].
      eapply Forall_impl; [|exact Hg]. intros z Hz.
      exact (text_leb_trans _ _ _ E Hz).
Qed.

Lemma sorted_by_name_perm (files : list file) : Permutation (sorted_by_name files) files.
Proof.
  unfold sorted_by_name.
  assert (G : forall acc, Permutation (fold_left (fun acc f => insert_file f acc) files acc)
                            (acc ++ files)).
  { induction files as [|f files IH]; intros acc.
    - rewrite app_nil_r. reflexivity.
    - cbn [fold_left]. rewrite IH, insert_file_perm. apply Permutation_middle. }
  exact (G []).
Qed.

Lemma sorted_by_name_sorted (files : list file) :
  StronglySorted name_le (sorted_by_name files).
Proof.
  unfold sorted_by_name.
  assert (G : forall acc, StronglySorted name_le acc ->
                StronglySorted name_le
                  (fold_left (fun acc f => insert_file f acc) files acc)).
  { induction files as [|f files IH]; intros acc H; [exact H|].
    cbn [fold_left]. apply IH, insert_file_sorted, H. }
  apply G. constructor.
Qed.

Lemma name_le_refl (f : file) : name_le f f.
Proof.
  unfold name_le. destruct (text_leb (name f) (name f)) eqn:E; [reflexivity|].
  pose proof (text_leb_total _ _ E) as E'. rewrite E in E'. discriminate E'.
Qed.

Lemma same_name_same_file (l : list file) (f g : file) :
  NoDup (map name l) -> In f l -> In g l -> name f = name g -> f = g.
Proof.
  induction l as [|h l IH]; intros N Hf Hg E; [destruct Hf|].
  cbn [map] in N. apply NoDup_cons_iff in N. destruct N as [Nh N].
  destruct Hf as [<- | Hf], Hg as [<- | Hg].
  - reflexivity.
  - exfalso. apply Nh. rewrite E. apply in_map, Hg.
  - exfalso. apply Nh. rewrite <- E. apply in_map, Hf.
  - exact (IH N Hf Hg E).
Qed.

(** Two sorted arrangements of files with distinct names are the same
    list. *)
Lemma sorted_arrangement_unique (l1 l2 : list file) :
  NoDup (map name l1) -> Permutation l1 l2 ->
  StronglySorted name_le l1 -> StronglySorted name_le l2 -> l1 = l2.
Proof.
  revert l2. induction l1 as [|a t1 IH]; intros l2 N P S1 S2.
  - apply Permutation_nil in P. subst. reflexivity.
  - destruct l2 as [|b t2];
      [apply Permutation_sym, Permutation_nil in P; discriminate P|].
    assert (Hab : a = b).
    { apply (@same_name_same_file (a :: t1)); [exact N | left; reflexivity | |].
      - apply (Permutation_in _ (Permutation_sym P)). left. reflexivity.
      - apply StronglySorted_inv in S1, S2. destruct S1 as [_ F1], S2 as [_ F2].
        rewrite Forall_forall in F1, F2.
        assert (Hb : In b (a :: t1))
          by (apply (Permutation_in _ (Permutation_sym P)); left; reflexivity).
        assert (Ha : In a (b :: t2)) by (apply (Permutation_in _ P); left; reflexivity).
        apply text_leb_antisym.
        + destruct Hb as [<- | Hb]; [apply name_le_refl | exact (F1 b Hb)].
        + destruct Ha as [<- | Ha]; [apply name_le_refl | exact (F2 a Ha)]. }
    subst b. f_equal. apply IH.
    + cbn [map] in N. apply NoDup_cons_iff in N. apply N.
    + exact (Permutation_cons_inv P).
    + apply StronglySorted_inv in S1. apply S1.
    + apply StronglySorted_inv in S2. apply S2.
Qed.

Lemma sorted_by_name_of_permutation (files files' : list file) :
  NoDup (map name files) -> Permutation files files' ->
  sorted_by_name files = sorted_by_name files'.
Proof.
  intros N P. apply sorted_arrangement_unique.
  - apply (Permutation_NoDup (l := map name files)); [|exact N].
    apply Permutation_map, Permutation_sym, sorted_by_name_perm.
  - rewrite sorted_by_name_perm, P. apply Permutation_sym, sorted_by_name_perm.
  - apply sorted_by_name_sorted.
  - apply sorted_by_name_sorted.
Qed.

(** X23.  The order in which files are uploaded does not matter: when the
    generation files have distinct names, and the coal files too, uploading
    the same files in another order gives the same run, with the same
    tables, the same export or the same exception. The files are processed
    in the order of their names (by code point). *)
Theorem upload_order_is_irrelevant (month_name : text) (year_val : Z)
    (generation_value : frame -> text -> result text)
    (coal_value : file -> text -> result text)
    (selected_gen_plants selected_coal_plants : list text)
    (generation_files generation_files' coal_files coal_files' : list file) :
  NoDup (map name generation_files) -> NoDup (map name coal_files) ->
  Permutation generation_files generation_files' ->
  Permutation coal_files coal_files' ->
  run_on_uploads month_name year_val generation_value coal_value
    selected_gen_plants selected_coal_plants generation_files coal_files
  = run_on_uploads month_name year_val generation_value coal_value
      selected_gen_plants selected_coal_plants generation_files' coal_files'
  /\ StronglySorted name_le (sorted_by_name generation_files)
  /\ StronglySorted name_le (sorted_by_name coal_files).
Proof.
  intros Ng Nc Pg Pc. unfold run_on_uploads.
  rewrite (sorted_by_name_of_permutation Ng Pg), (sorted_by_name_of_permutation Nc Pc).
  split; [reflexivity|]. split; apply sorted_by_name_sorted.
Qed.

Lemma upload_order_is_irrelevant_witness :
  run_on_uploads (T "June") 2024
    (fun _ _ => Ok (T "12.5000")) (fun _ _ => Ok (T "3.2000"))
    [T "PANIPAT TPS"] [T "PANIPAT TPS"] [gen_underscore_07; gen_space_07] [coal_07]
  = run_on_uploads (T "June") 2024
      (fun _ _ => Ok (T "12.5000")) (fun _ _ => Ok (T "3.2000"))
      [T "PANIPAT TPS"] [T "PANIPAT TPS"] [gen_space_07; gen_underscore_07] [coal_07]
  /\ StronglySorted name_le (sorted_by_name [gen_underscore_07; gen_space_07])
  /\ StronglySorted name_le (sorted_by_name [coal_07]).
Proof.
  apply (@upload_order_is_irrelevant (T "June") 2024
           (fun _ _ => Ok (T "12.5000")) (fun _ _ => Ok (T "3.2000"))
           [T "PANIPAT TPS"] [T "PANIPAT TPS"]
           [gen_underscore_07; gen_space_07] [gen_space_07; gen_underscore_07]
           [coal_07] [coal_07]).
  - constructor; [|constructor; [intros []|constructor]].
    intros [H | []]. vm_compute in H. discriminate H.
  - constructor; [intros []|constructor].
  - apply perm_swap.
  - apply Permutation_refl.
Defined.

Example sorted_by_name_sample :
  map name (sorted_by_name [gen_underscore_07; gen_space_07])
  = map name [gen_space_07; gen_underscore_07].
Proof. reflexivity. Qed.
